(** * Hope Remote Log: log normalisation, sequencing and the batch pipeline

    A shallow embedding of [src/utils/logProcessor.js] (class [LogProcessor])
    and [src/services/batchProcessor.js] (class [BatchProcessor]), with the
    parts of the ECMAScript [Date] and [String] objects those two files use,
    and of what stands around them: [src/utils/filesystem.js], the key check
    of [src/middleware/auth.js], the upload handlers of
    [src/routes/upload.js] and the failure report of
    [src/routes/monitoring.js].

    Conventions.
    - A JavaScript string is the list of its UTF-16 code units ([jsstring]).
    - A [Date] is its time value, a [Z] of milliseconds since the epoch.  The
      program only builds dates from a calendar year read off the clock and
      two-digit fields, so the time values stay far inside the range in which
      JavaScript numbers are exact integers and [TimeClip] is the identity.
    - The wall clock is a sequence of readings, [clock n] being the n-th
      future reading; every [new Date()] and [Date.now()] consumes one.
    - The host's time zone is a function [tza] from a UTC time value to the
      local offset in milliseconds (ECMAScript's LocalTZA). *)

From Stdlib Require Import ZArith QArith Qround List Lia Bool String Ascii.
From stdpp Require Import gmap list.

Local Open Scope Z_scope.

(** ** JavaScript strings *)

Definition codeunit := N.
Definition jsstring := list codeunit.

Definition js (s : string) : jsstring :=
  map N_of_ascii (list_ascii_of_string s).

Arguments js : simpl never.

(** ** ECMAScript time values (ECMA-262, Date objects) *)

Module JSDate.

Definition msPerSecond : Z := 1000.
Definition msPerMinute : Z := 60000.
Definition msPerHour : Z := 3600000.
Definition msPerDay : Z := 86400000.

Definition Day (t : Z) : Z := t / msPerDay.
Definition TimeWithinDay (t : Z) : Z := t mod msPerDay.

Definition DayFromYear (y : Z) : Z :=
  365 * (y - 1970) + (y - 1969) / 4 - (y - 1901) / 100 + (y - 1601) / 400.

Definition isLeapYear (y : Z) : bool :=
  (y mod 4 =? 0) && (negb (y mod 100 =? 0) || (y mod 400 =? 0)).

Definition DaysInYear (y : Z) : Z := if isLeapYear y then 366 else 365.

(** The largest [y] with [DayFromYear y <= Day t], found from the estimate
    [1970 + Day t / 365.2425], which is off by at most one. *)
Definition YearFromDay (d : Z) : Z :=
  let y0 := 1970 + (400 * d) / 146097 in
  if d <? DayFromYear y0 then y0 - 1
  else if DayFromYear (y0 + 1) <=? d then y0 + 1
  else y0.

Definition YearFromTime (t : Z) : Z := YearFromDay (Day t).

Definition InLeapYear (t : Z) : Z :=
  if isLeapYear (YearFromTime t) then 1 else 0.

Definition DayWithinYear (t : Z) : Z := Day t - DayFromYear (YearFromTime t).

(** Day number, within its year, of the first day of month [m] (0 = January;
    12 = the first day of the next year). *)
Definition monthStart (leap : Z) (m : Z) : Z :=
  if m <=? 0 then 0
  else if m =? 1 then 31
  else if m =? 2 then 59 + leap
  else if m =? 3 then 90 + leap
  else if m =? 4 then 120 + leap
  else if m =? 5 then 151 + leap
  else if m =? 6 then 181 + leap
  else if m =? 7 then 212 + leap
  else if m =? 8 then 243 + leap
  else if m =? 9 then 273 + leap
  else if m =? 10 then 304 + leap
  else if m =? 11 then 334 + leap
  else 365 + leap.

Definition monthOfDayInYear (leap : Z) (d : Z) : Z :=
  if d <? 31 then 0
  else if d <? 59 + leap then 1
  else if d <? 90 + leap then 2
  else if d <? 120 + leap then 3
  else if d <? 151 + leap then 4
  else if d <? 181 + leap then 5
  else if d <? 212 + leap then 6
  else if d <? 243 + leap then 7
  else if d <? 273 + leap then 8
  else if d <? 304 + leap then 9
  else if d <? 334 + leap then 10
  else 11.

Definition MonthFromTime (t : Z) : Z :=
  monthOfDayInYear (InLeapYear t) (DayWithinYear t).

Definition DateFromTime (t : Z) : Z :=
  DayWithinYear t - monthStart (InLeapYear t) (MonthFromTime t) + 1.

Definition HourFromTime (t : Z) : Z := (t / msPerHour) mod 24.
Definition MinFromTime (t : Z) : Z := (t / msPerMinute) mod 60.
Definition SecFromTime (t : Z) : Z := (t / msPerSecond) mod 60.
Definition msFromTime (t : Z) : Z := t mod msPerSecond.

Definition MakeTime (hour min sec ms : Z) : Z :=
  hour * msPerHour + min * msPerMinute + sec * msPerSecond + ms.

Definition MakeDay (year month date : Z) : Z :=
  let ym := year + month / 12 in
  let mn := month mod 12 in
  DayFromYear ym + monthStart (if isLeapYear ym then 1 else 0) mn + date - 1.

Definition MakeDate (day time : Z) : Z := day * msPerDay + time.

(** [Date.UTC(year, month, date, hours, minutes, seconds)]: a year in 0..99
    stands for 1900 + year. *)
Definition UTC (year month date hours minutes seconds : Z) : Z :=
  let yr := if (0 <=? year) && (year <=? 99) then 1900 + year else year in
  MakeDate (MakeDay yr month date) (MakeTime hours minutes seconds 0).

Definition getUTCHours (t : Z) : Z := HourFromTime t.

(** [date.setUTCHours(h)] *)
Definition setUTCHours (t h : Z) : Z :=
  MakeDate (Day t) (MakeTime h (MinFromTime t) (SecFromTime t) (msFromTime t)).

(** [date.setUTCMilliseconds(ms)] *)
Definition setUTCMilliseconds (t ms : Z) : Z :=
  MakeDate (Day t)
    (MakeTime (HourFromTime t) (MinFromTime t) (SecFromTime t) ms).

End JSDate.

(** ** Characters, numerals and the regular expressions of the source *)

Module JSString.

Definition isDigit (c : codeunit) : bool := ((48 <=? c) && (c <=? 57))%N.

(** [[A-Za-z]] *)
Definition isLetter (c : codeunit) : bool :=
  (((65 <=? c) && (c <=? 90)) || ((97 <=? c) && (c <=? 122)))%N.

(** [\w] is [[A-Za-z0-9_]] *)
Definition isWordChar (c : codeunit) : bool :=
  isLetter c || isDigit c || (c =? 95)%N.

(** [\s]: ECMAScript WhiteSpace and LineTerminator code points. *)
Definition isSpace (c : codeunit) : bool :=
  (((9 <=? c) && (c <=? 13)) || (c =? 32) || (c =? 160) || (c =? 5760)
   || ((8192 <=? c) && (c <=? 8202)) || (c =? 8232) || (c =? 8233)
   || (c =? 8239) || (c =? 8287) || (c =? 12288) || (c =? 65279))%N.

Definition digitChar (d : Z) : codeunit := Z.to_N (48 + d).
Definition digitVal (c : codeunit) : Z := Z.of_N c - 48.

Arguments isDigit : simpl never.
Arguments isLetter : simpl never.
Arguments isWordChar : simpl never.
Arguments isSpace : simpl never.
Arguments digitChar : simpl never.

(** [Number(s)] and [parseInt(s, 10)] on a string of decimal digits. *)
Definition Number (s : jsstring) : Z :=
  fold_left (fun acc c => 10 * acc + digitVal c) s 0.

(** The [w] low decimal digits of [n], most significant first. *)
Fixpoint fixedDigits (w : nat) (n : Z) : jsstring :=
  match w with
  | O => []
  | S w' => fixedDigits w' (n / 10) ++ [digitChar (n mod 10)]
  end.

Fixpoint decimalDigits (fuel : nat) (n : Z) (acc : jsstring) : jsstring :=
  match fuel with
  | O => acc
  | S fuel' =>
      let acc' := digitChar (n mod 10) :: acc in
      if n <? 10 then acc' else decimalDigits fuel' (n / 10) acc'
  end.

(** [String(n)] for an integer [n]. *)
Definition ofInteger (n : Z) : jsstring :=
  let a := Z.abs n in
  let ds := decimalDigits (S (Z.to_nat (Z.log2 a))) a [] in
  if n <? 0 then js "-" ++ ds else ds.

(** [x.toFixed(1)] for [x >= 0], as a decimal number: the nearest multiple
    of one tenth, the larger one at a tie. *)
Definition toFixed1 (x : Q) : Q := (Qfloor (x * 10 + (1 # 2)) # 10)%Q.

(** [s.padStart(n, c)] for a one-character filler. *)
Definition padStart (n : nat) (c : codeunit) (s : jsstring) : jsstring :=
  replicate (n - length s) c ++ s.

(** [s.substring(0, n)] *)
Definition substring0 (n : nat) (s : jsstring) : jsstring := take n s.

Definition startsWith (s p : jsstring) : bool := bool_decide (p `prefix_of` s).
Definition endsWith (s p : jsstring) : bool := bool_decide (p `suffix_of` s).

(** [s.split(sep)] for a one-character separator. *)
Fixpoint splitOn (sep : codeunit) (s : jsstring) : list jsstring :=
  match s with
  | [] => [[]]
  | c :: r =>
      if (c =? sep)%N then [] :: splitOn sep r
      else match splitOn sep r with
           | [] => [[c]]
           | p :: ps => (c :: p) :: ps
           end
  end.

(** [a < b] on strings: lexicographic on code units. *)
Fixpoint ltb (a b : jsstring) : bool :=
  match a, b with
  | _, [] => false
  | [], _ :: _ => true
  | x :: a', y :: b' => (x <? y)%N || ((x =? y)%N && ltb a' b')
  end.

(** Drops the longest run of [\s] at the front. *)
Fixpoint skipSpaces (s : jsstring) : jsstring :=
  match s with
  | c :: r => if isSpace c then skipSpaces r else s
  | [] => []
  end.

(** [\s+]: the rest of the string after one or more white-space characters. *)
Definition spaces1 (s : jsstring) : option jsstring :=
  match s with
  | c :: r => if isSpace c then Some (skipSpaces r) else None
  | [] => None
  end.

(** [(\d{1,2})], greedy: the digits taken and the rest. *)
Definition digits12 (s : jsstring) : option (jsstring * jsstring) :=
  match s with
  | a :: b :: r =>
      if isDigit a then
        if isDigit b then Some ([a; b], r) else Some ([a], b :: r)
      else None
  | [a] => if isDigit a then Some ([a], []) else None
  | [] => None
  end.

(** [(\d{2}:\d{2}:\d{2})] *)
Definition clockTime (s : jsstring) : option (jsstring * jsstring) :=
  match s with
  | h1 :: h2 :: c1 :: m1 :: m2 :: c2 :: s1 :: s2 :: r =>
      if isDigit h1 && isDigit h2 && (c1 =? 58)%N && isDigit m1 && isDigit m2
         && (c2 =? 58)%N && isDigit s1 && isDigit s2
      then Some ([h1; h2; c1; m1; m2; c2; s1; s2], r)
      else None
  | _ => None
  end.

(** The tail [\s+(\d{1,2})\s+(\d{2}:\d{2}:\d{2})] shared by both regular
    expressions.  Greedy matching never has to back off here: a shorter run
    of white space would be followed by white space where a digit is
    required, and a one-digit day taken where two digits stand would be
    followed by a digit where white space is required. *)
Definition dayAndTime (s : jsstring)
  : option (jsstring * jsstring * jsstring * jsstring) :=
  match spaces1 s with
  | None => None
  | Some r1 =>
      match digits12 r1 with
      | None => None
      | Some (dayStr, r2) =>
          match spaces1 r2 with
          | None => None
          | Some r3 =>
              match clockTime r3 with
              | None => None
              | Some (timeStr, rest) =>
                  Some (take (length s - length r1) s, dayStr,
                        take (length r2 - length r3) r2, timeStr)
              end
          end
      end
  end.

(** [logLine.match(/^([A-Za-z]{3})\s+(\d{1,2})\s+(\d{2}:\d{2}:\d{2})/)]:
    the three captures, or [None] when there is no match. *)
Definition matchLogPrefix (logLine : jsstring)
  : option (jsstring * jsstring * jsstring) :=
  match logLine with
  | a :: b :: c :: r =>
      if isLetter a && isLetter b && isLetter c then
        match dayAndTime r with
        | Some (_, dayStr, _, timeStr) => Some ([a; b; c], dayStr, timeStr)
        | None => None
        end
      else None
  | _ => None
  end.

(** [logMessage.match(/^(\w{3}\s+\d{1,2}\s+\d{2}:\d{2}:\d{2})/)]: the one
    capture, the matched prefix itself. *)
Definition matchLegacyPrefix (logMessage : jsstring) : option jsstring :=
  match logMessage with
  | a :: b :: c :: r =>
      if isWordChar a && isWordChar b && isWordChar c then
        match dayAndTime r with
        | Some (ws1, dayStr, ws2, timeStr) =>
            Some ([a; b; c] ++ ws1 ++ dayStr ++ ws2 ++ timeStr)
        | None => None
        end
      else None
  | _ => None
  end.

End JSString.

(** ** Dates as text: [toISOString], [new Date(isoString)], local fields *)

Module JSDateText.
Import JSDate JSString.

(** The year of the ISO format: four digits for 0..9999, else a sign and six
    digits. *)
Definition isoYear (y : Z) : jsstring :=
  if (0 <=? y) && (y <=? 9999) then fixedDigits 4 y
  else (if y <? 0 then js "-" else js "+") ++ fixedDigits 6 (Z.abs y).

(** The part of the ISO format down to the second: [YYYY-MM-DDTHH:mm:ss]. *)
Definition isoSeconds (t : Z) : jsstring :=
  isoYear (YearFromTime t) ++ js "-"
  ++ fixedDigits 2 (MonthFromTime t + 1) ++ js "-"
  ++ fixedDigits 2 (DateFromTime t) ++ js "T"
  ++ fixedDigits 2 (HourFromTime t) ++ js ":"
  ++ fixedDigits 2 (MinFromTime t) ++ js ":"
  ++ fixedDigits 2 (SecFromTime t).

(** [date.toISOString()]: [YYYY-MM-DDTHH:mm:ss.sssZ] *)
Definition toISOString (t : Z) : jsstring :=
  isoSeconds t ++ js "." ++ fixedDigits 3 (msFromTime t) ++ js "Z".

(** The time values of valid dates (ECMAScript's TimeClip range). *)
Definition validTime (t : Z) : Prop :=
  -8640000000000000 <= t <= 8640000000000000.

Definition allDigits (s : jsstring) : bool := forallb isDigit s.

Definition DaysInMonth (y m : Z) : Z :=
  let leap := if isLeapYear y then 1 else 0 in
  monthStart leap (m + 1) - monthStart leap m.

(** The part of an ISO string after the year: [-MM-DDTHH:mm:ss.sssZ]. *)
Definition parseISOAfterYear (y : Z) (s : jsstring) : option Z :=
  match s with
  | [d1; M1; M2; d2; D1; D2; T; h1; h2; c1; m1; m2; c2; s1; s2; p; f1; f2; f3; z] =>
      if (d1 =? 45)%N && (d2 =? 45)%N && (T =? 84)%N && (c1 =? 58)%N
         && (c2 =? 58)%N && (p =? 46)%N && (z =? 90)%N
         && allDigits [M1; M2; D1; D2; h1; h2; m1; m2; s1; s2; f1; f2; f3]
      then
        let month := Number [M1; M2] in
        let date := Number [D1; D2] in
        let hour := Number [h1; h2] in
        let min := Number [m1; m2] in
        let sec := Number [s1; s2] in
        let ms := Number [f1; f2; f3] in
        if (1 <=? month) && (month <=? 12) && (1 <=? date)
           && (date <=? DaysInMonth y (month - 1))
           && ((hour <=? 23) || ((hour =? 24) && (min =? 0) && (sec =? 0) && (ms =? 0)))
           && (min <=? 59) && (sec <=? 59)
        then Some (MakeDate (MakeDay y (month - 1) date) (MakeTime hour min sec ms))
        else None
      else None
  | _ => None
  end.

(** [new Date(s).getTime()] for a string in the format [toISOString] writes;
    [None] is the invalid date.  (The program passes no other string.) *)
Definition parseISO (s : jsstring) : option Z :=
  match s with
  | c :: r =>
      if (c =? 43)%N || (c =? 45)%N then
        let ys := take 6 r in
        if (length ys =? 6)%nat && allDigits ys
           && negb ((c =? 45)%N && (Number ys =? 0))
        then parseISOAfterYear (if (c =? 45)%N then - Number ys else Number ys)
                               (drop 6 r)
        else None
      else
        let ys := take 4 s in
        if (length ys =? 4)%nat && allDigits ys
        then parseISOAfterYear (Number ys) (drop 4 s)
        else None
  | [] => None
  end.

Section LocalTime.
(** LocalTZA: the host's offset from UTC, in milliseconds, at a UTC time. *)
Variable tza : Z -> Z.

Definition LocalTime (t : Z) : Z := t + tza t.
Definition getFullYear (t : Z) : Z := YearFromTime (LocalTime t).
Definition getMonth (t : Z) : Z := MonthFromTime (LocalTime t).
Definition getDate (t : Z) : Z := DateFromTime (LocalTime t).
Definition getHours (t : Z) : Z := HourFromTime (LocalTime t).
End LocalTime.

End JSDateText.

(** ** The world the two classes run in *)

(** [src/config.js] *)
Module config.
Definition maxRetries : Z := 3.
Definition s3KeyPrefix : jsstring := js "logs".
End config.

(** The four directories under [config.paths.base]. *)
Inductive Dir := Incoming | Processing | Failed | Status.

#[global] Instance Dir_eq_dec : EqDecision Dir.
Proof. solve_decision. Defined.

#[global] Instance Dir_countable : Countable Dir.
Proof.
  refine (inj_countable'
    (fun d => match d with
              | Incoming => 0%nat | Processing => 1%nat
              | Failed => 2%nat | Status => 3%nat end)
    (fun n => match n with
              | 0%nat => Incoming | 1%nat => Processing
              | 2%nat => Failed | _ => Status end) _).
  intros []; reflexivity.
Defined.

(** [path.join(config.paths.<dir>, filename)] *)
Definition Path : Type := Dir * jsstring.

(** LogEntry: [{device_id, log_timestamp, message}] *)
Record LogEntry := {
  device_id : jsstring;
  log_timestamp : jsstring;
  message : jsstring
}.

Inductive RunState := running | success | failed.

(** What [updateStatus] writes to [status/last_run.json]; a field that a
    transition leaves out is [None].  [duration_ms] is the elapsed time
    behind [duration_seconds] (the source divides by 1000 and rounds to one
    decimal with [toFixed], a floating-point step that is left out). *)
Record RunStatus := {
  status : RunState;
  started_at : option jsstring;
  finished_at : option jsstring;
  duration_ms : option Z;
  files_processed : option Z;
  error_message : option jsstring
}.

(** The sidecar [<filename>.meta] of a quarantined file. *)
Module Meta.
Record t := {
  failed_at : jsstring;
  error_message : jsstring;
  retry_attempts : Z
}.
End Meta.

(** File contents, up to serialisation: a bucket file holds one
    [JSON.stringify(entry) + "\n"] per record. *)
Inductive FileData :=
| Lines (records : list LogEntry)
| Gzip (d : FileData)
| StatusJson (s : RunStatus)
| MetaJson (m : Meta.t)
| Concat (a b : FileData).

(** A parsed JSON document, as far as the program reads one. *)
Inductive Json :=
| JsonStatus (s : RunStatus)
| JsonMeta (m : Meta.t)
| JsonEntry (e : LogEntry).

(** [JSON.parse] of a file's text; [None] is a SyntaxError.  A file of
    records parses when it holds exactly one (a document followed by a line
    break); an empty file, several documents in a row and compressed data
    do not. *)
Definition parseJson (d : FileData) : option Json :=
  match d with
  | StatusJson s => Some (JsonStatus s)
  | MetaJson m => Some (JsonMeta m)
  | Lines [e] => Some (JsonEntry e)
  | _ => None
  end.

(** What the outside observes of a cycle, oldest first. *)
Inductive Effect :=
| UploadAttempt (originalFilename : jsstring) (retryCount : Z)
| Sleep (ms : Z)
| StatusWritten (s : RunStatus).

Record World := {
  (** future readings of the wall clock *)
  clock : nat -> Z;
  (** the files under [config.paths.base] *)
  disk : gmap Path FileData;
  (** future results of [s3Client.send]: [None] is success, [Some m] an
      error with message [m] *)
  s3Outcomes : nat -> option jsstring;
  (** future values of [Math.random().toString(36).substring(2, 8)] *)
  randomSuffixes : nat -> jsstring;
  (** [logProcessor.timestampCounters] *)
  timestampCounters : gmap jsstring Z;
  (** [logProcessor.recentRequests] *)
  recentRequests : list Z;
  (** [batchProcessor.isProcessing] *)
  isProcessing : bool;
  effects : list Effect
}.

Definition setClock (c : nat -> Z) (w : World) : World :=
  {| clock := c; disk := disk w; s3Outcomes := s3Outcomes w;
     randomSuffixes := randomSuffixes w;
     timestampCounters := timestampCounters w;
     recentRequests := recentRequests w; isProcessing := isProcessing w;
     effects := effects w |}.

Definition setDisk (d : gmap Path FileData) (w : World) : World :=
  {| clock := clock w; disk := d; s3Outcomes := s3Outcomes w;
     randomSuffixes := randomSuffixes w;
     timestampCounters := timestampCounters w;
     recentRequests := recentRequests w; isProcessing := isProcessing w;
     effects := effects w |}.

Definition setS3Outcomes (o : nat -> option jsstring) (w : World) : World :=
  {| clock := clock w; disk := disk w; s3Outcomes := o;
     randomSuffixes := randomSuffixes w;
     timestampCounters := timestampCounters w;
     recentRequests := recentRequests w; isProcessing := isProcessing w;
     effects := effects w |}.

Definition setRandomSuffixes (r : nat -> jsstring) (w : World) : World :=
  {| clock := clock w; disk := disk w; s3Outcomes := s3Outcomes w;
     randomSuffixes := r;
     timestampCounters := timestampCounters w;
     recentRequests := recentRequests w; isProcessing := isProcessing w;
     effects := effects w |}.

Definition setTimestampCounters (m : gmap jsstring Z) (w : World) : World :=
  {| clock := clock w; disk := disk w; s3Outcomes := s3Outcomes w;
     randomSuffixes := randomSuffixes w;
     timestampCounters := m;
     recentRequests := recentRequests w; isProcessing := isProcessing w;
     effects := effects w |}.

Definition setRecentRequests (l : list Z) (w : World) : World :=
  {| clock := clock w; disk := disk w; s3Outcomes := s3Outcomes w;
     randomSuffixes := randomSuffixes w;
     timestampCounters := timestampCounters w;
     recentRequests := l; isProcessing := isProcessing w;
     effects := effects w |}.

Definition setIsProcessing (b : bool) (w : World) : World :=
  {| clock := clock w; disk := disk w; s3Outcomes := s3Outcomes w;
     randomSuffixes := randomSuffixes w;
     timestampCounters := timestampCounters w;
     recentRequests := recentRequests w; isProcessing := b;
     effects := effects w |}.

Definition emit (e : Effect) (w : World) : World :=
  {| clock := clock w; disk := disk w; s3Outcomes := s3Outcomes w;
     randomSuffixes := randomSuffixes w;
     timestampCounters := timestampCounters w;
     recentRequests := recentRequests w; isProcessing := isProcessing w;
     effects := effects w ++ [e] |}.

(** How a call ends: with a value, or with a thrown [Error] (its message). *)
Inductive Completion (A : Type) :=
| Return (a : A)
| Throw (message : jsstring).
Arguments Return {A} a.
Arguments Throw {A} message.

(** Computations over the world that may throw. *)
Definition IO (A : Type) : Type := World -> Completion A * World.

Definition ret {A} (a : A) : IO A := fun w => (Return a, w).
Definition throw {A} (m : jsstring) : IO A := fun w => (Throw m, w).

Definition bind {A B} (c : IO A) (k : A -> IO B) : IO B :=
  fun w =>
    match c w with
    | (Return a, w') => k a w'
    | (Throw m, w') => (Throw m, w')
    end.

(** [try { c } catch (error) { h(error.message) }] *)
Definition tryCatch {A} (c : IO A) (h : jsstring -> IO A) : IO A :=
  fun w =>
    match c w with
    | (Return a, w') => (Return a, w')
    | (Throw m, w') => h m w'
    end.

(** [try { c } finally { f }], for a [f] that does not throw. *)
Definition finally {A} (c : IO A) (f : World -> World) : IO A :=
  fun w => let '(r, w') := c w in (r, f w').

Definition modify (f : World -> World) : IO unit := fun w => (Return tt, f w).
Definition gets {A} (f : World -> A) : IO A := fun w => (Return (f w), w).

#[global] Instance IO_ret : MRet IO := @ret.
#[global] Instance IO_bind : MBind IO := fun A B k c => bind c k.

(** [Date.now()] and the time value of [new Date()]: the next reading. *)
Definition now : IO Z :=
  fun w => (Return (clock w 0%nat), setClock (fun n => clock w (S n)) w).

(** [Math.random().toString(36).substring(2, 8)] *)
Definition randomSuffix : IO jsstring :=
  fun w => (Return (randomSuffixes w 0%nat),
            setRandomSuffixes (fun n => randomSuffixes w (S n)) w).

(** [await s3Client.send(command)] *)
Definition s3Send : IO unit :=
  fun w =>
    let w' := setS3Outcomes (fun n => s3Outcomes w (S n)) w in
    match s3Outcomes w 0%nat with
    | None => (Return tt, w')
    | Some m => (Throw m, w')
    end.

(** ** [src/utils/filesystem.js] on the modelled disk

    The disk is healthy: an operation fails only when the file it reads is
    missing (or, for [readJsonFile], does not parse). *)

Module FilesystemManager.

Definition appendData (old new : FileData) : FileData :=
  match old, new with
  | Lines a, Lines b => Lines (a ++ b)
  | _, _ => Concat old new
  end.

(** [fs.appendFile(path, data)]: creates the file when it is absent. *)
Definition appendFile (p : Path) (data : FileData) : IO unit :=
  modify (fun w =>
    setDisk (<[p := match disk w !! p with
                    | Some old => appendData old data
                    | None => data
                    end]> (disk w)) w).

(** [fs.rename(source, destination)] *)
Definition rename (source destination : Path) : IO unit :=
  fun w =>
    match disk w !! source with
    | Some d => (Return tt, setDisk (<[destination := d]> (delete source (disk w))) w)
    | None => (Throw (js "ENOENT"), w)
    end.

(** [fs.copyFile(source, destination)] *)
Definition copyFile (source destination : Path) : IO unit :=
  fun w =>
    match disk w !! source with
    | Some d => (Return tt, setDisk (<[destination := d]> (disk w)) w)
    | None => (Throw (js "ENOENT"), w)
    end.

(** [fs.unlink(path)] *)
Definition unlink (p : Path) : IO unit :=
  fun w =>
    match disk w !! p with
    | Some _ => (Return tt, setDisk (delete p (disk w)) w)
    | None => (Throw (js "ENOENT"), w)
    end.

(** [fs.writeFile(path, data)] *)
Definition writeFile (p : Path) (data : FileData) : IO unit :=
  modify (fun w => setDisk (<[p := data]> (disk w)) w).

(** [listFiles(dirPath, filter)]: the names in the directory that pass the
    filter.  [fs.readdir] promises no order; the names come here in the
    order of the map, and no statement below relies on it. *)
Definition listFiles (dir : Dir) (filter : jsstring -> bool) : IO (list jsstring) :=
  gets (fun w =>
    List.filter filter
      (omap (fun p : Path => if decide (p.1 = dir) then Some p.2 else None)
            (elements (dom (disk w))))).

(** [moveFile(source, destination)]: rename, else copy and delete. *)
Definition moveFile (source destination : Path) : IO unit :=
  tryCatch (rename source destination)
    (fun _ => copyFile source destination ;; unlink source).

(** [writeJsonFile(filePath, data)]: write [filePath.tmp], rename it over
    [filePath]; on an error remove the temporary file and rethrow. *)
Definition writeJsonFile (filePath : Path) (data : FileData) : IO unit :=
  let tempPath : Path := (filePath.1, filePath.2 ++ js ".tmp") in
  tryCatch (writeFile tempPath data ;; rename tempPath filePath)
    (fun m => tryCatch (unlink tempPath) (fun _ => mret tt) ;; throw m).

(** [readJsonFile(filePath)]: [null] for a missing file; a parse error is
    rethrown (its message is the engine's). *)
Definition readJsonFile (filePath : Path) : IO (option Json) :=
  fun w =>
    match disk w !! filePath with
    | None => (Return None, w)
    | Some d =>
        match parseJson d with
        | Some j => (Return (Some j), w)
        | None => (Throw (js "SyntaxError"), w)
        end
    end.

End FilesystemManager.

(** ** [src/utils/logProcessor.js] *)

Module LogProcessor.
Import JSDate JSString JSDateText FilesystemManager.

Definition months : list (jsstring * Z) :=
  [ (js "Jan", 0); (js "Feb", 1); (js "Mar", 2); (js "Apr", 3);
    (js "May", 4); (js "Jun", 5); (js "Jul", 6); (js "Aug", 7);
    (js "Sep", 8); (js "Oct", 9); (js "Nov", 10); (js "Dec", 11) ].

(** [table[key]], [None] for [undefined]. *)
Fixpoint lookup (key : jsstring) (table : list (jsstring * Z)) : option Z :=
  match table with
  | [] => None
  | (k, v) :: r => if decide (k = key) then Some v else lookup key r
  end.

(** [fileEntries]: a [Map] from filename to the array of its entries, in
    insertion order of the filenames. *)
Fixpoint pushEntry (filename : jsstring) (e : LogEntry)
    (m : list (jsstring * list LogEntry)) : list (jsstring * list LogEntry) :=
  match m with
  | [] => [(filename, [e])]
  | (f, es) :: r =>
      if decide (f = filename) then (f, es ++ [e]) :: r
      else (f, es) :: pushEntry filename e r
  end.

Record ProcessResult := {
  result_success : bool;
  linesProcessed : Z;
  filesWritten : Z
}.

Record EnhancedTimestamp := {
  baseTimestamp : Z;
  enhancedTimestamp : jsstring;
  hourKey : jsstring
}.

Section Host.
(** The host's time zone. *)
Variable tza : Z -> Z.
(** The host's [Date.parse] on text that is not in the ISO format (the
    language leaves it to the implementation); [None] is the invalid
    date. *)
Variable dateParse : jsstring -> option Z.

(** Get timestamp from log line with time-zone conversion and millisecond
    indexing; [None] is [null]. *)
Definition getTimestampFromLog (logLine : jsstring) (secondIndex : Z)
  : IO (option jsstring) :=
  match matchLogPrefix logLine with
  | None => mret None
  | Some (monthStr, dayStr, timeStr) =>
      let parts := map Number (splitOn 58%N timeStr) in
      let hours := nth 0 parts 0 in
      let minutes := nth 1 parts 0 in
      let seconds := nth 2 parts 0 in
      let day := Number dayStr in
      match lookup monthStr months with
      | None => mret None
      | Some monthIndex =>
          t ← now;
          let year := getFullYear tza t in
          let date := UTC year monthIndex day hours minutes seconds in
          let date := setUTCHours date (getUTCHours date - 7) in
          let date := setUTCMilliseconds date secondIndex in
          mret (Some (toISOString date))
      end
  end.

(** Sequencing key for the process-lifetime counters. *)
Definition formatTimestampKey (timestamp : Z) : jsstring :=
  substring0 19 (toISOString timestamp).

(** Drop the counters of seconds more than an hour old. *)
Definition cleanOldCounters : IO unit :=
  t ← now;
  let oneHourAgo := t - 60 * 60 * 1000 in
  let cutoffKey := formatTimestampKey oneHourAgo in
  modify (fun w =>
    setTimestampCounters
      (filter (fun kv => ltb kv.1 cutoffKey = false) (timestampCounters w)) w).

(** Hour key for the filename, [YYYY-MM-DD-HH] in the host's local time. *)
Definition getHourKey (timestamp : Z) : jsstring :=
  let year := getFullYear tza timestamp in
  let month := padStart 2 48%N (ofInteger (getMonth tza timestamp + 1)) in
  let day := padStart 2 48%N (ofInteger (getDate tza timestamp)) in
  let hour := padStart 2 48%N (ofInteger (getHours tza timestamp)) in
  ofInteger year ++ js "-" ++ month ++ js "-" ++ day ++ js "-" ++ hour.

(** [getHourKey(new Date(s))]; every field of an invalid date prints as
    [NaN]. *)
Definition getHourKeyOfString (s : jsstring) : jsstring :=
  match parseISO s with
  | Some t => getHourKey t
  | None => js "NaN-NaN-NaN-NaN"
  end.

(** Parse the timestamp of a log message and sequence it (legacy method). *)
Definition parseAndEnhanceTimestamp (logMessage : jsstring)
  : IO EnhancedTimestamp :=
  match matchLegacyPrefix logMessage with
  | None => throw (js "Invalid log format: timestamp not found")
  | Some timestampStr =>
      t ← now;
      let currentYear := getFullYear tza t in
      match dateParse (timestampStr ++ js " " ++ ofInteger currentYear) with
      | None => throw (js "Invalid timestamp format")
      | Some baseTimestamp =>
          let secondKey := formatTimestampKey baseTimestamp in
          counters ← gets timestampCounters;
          let counter := default 0 (counters !! secondKey) + 1 in
          modify (setTimestampCounters (<[secondKey := counter]> counters)) ;;
          cleanOldCounters ;;
          let enhanced := baseTimestamp + counter in
          mret {| baseTimestamp := baseTimestamp;
                  enhancedTimestamp := toISOString enhanced;
                  hourKey := getHourKey baseTimestamp |}
      end
  end.

Definition createLogEntry (deviceId logMessage : jsstring)
  : IO (LogEntry * jsstring) :=
  r ← parseAndEnhanceTimestamp logMessage;
  mret ({| device_id := deviceId;
           log_timestamp := enhancedTimestamp r;
           message := logMessage |},
        hourKey r ++ js ".log").

Definition writeLogEntry (logEntry : LogEntry) (filename : jsstring) : IO unit :=
  appendFile (Incoming, filename) (Lines [logEntry]).

(** Track a request for the ingestion rate: keep the last five minutes. *)
Definition trackRequest : IO unit :=
  t ← now;
  let fiveMinutesAgo := t - 5 * 60 * 1000 in
  modify (fun w =>
    setRecentRequests
      (List.filter (fun timestamp => fiveMinutesAgo <? timestamp)
                   (recentRequests w ++ [t])) w).

(** Ingestion rate, requests per minute over the last five minutes:
    [parseFloat((this.recentRequests.length / 5).toFixed(1))], as the
    decimal number it denotes. *)
Definition getIngestionRate : IO Q :=
  gets (fun w => toFixed1 (inject_Z (Z.of_nat (length (recentRequests w))) / 5)%Q).

(** Process an incoming single-line request (legacy entry point). *)
Definition processLogRequest (deviceId logMessage : jsstring) : IO unit :=
  trackRequest ;;
  r ← createLogEntry deviceId logMessage;
  writeLogEntry r.1 r.2.

(** The body of the [for (const line of logLines)] loop, on the two local
    maps [secondCounters] and [fileEntries]. *)
Definition processLine (deviceId line : jsstring)
    (secondCounters : gmap jsstring Z)
    (fileEntries : list (jsstring * list LogEntry))
  : IO (gmap jsstring Z * list (jsstring * list LogEntry)) :=
  baseTimestamp ← getTimestampFromLog line 0;
  r ← match baseTimestamp with
      | None =>
          t ← now;
          mret (toISOString t, secondCounters)
      | Some base =>
          let secondKey := substring0 19 base ++ js "Z" in
          let currentCount := default 0 (secondCounters !! secondKey) in
          let secondCounters' :=
            <[secondKey := currentCount + 1]> secondCounters in
          stamped ← getTimestampFromLog line currentCount;
          match stamped with
          | Some ts => mret (ts, secondCounters')
          | None => t ← now; mret (toISOString t, secondCounters')
          end
      end;
  let logTimestamp : jsstring := r.1 in
  let logEntry := {| device_id := deviceId;
                     log_timestamp := logTimestamp;
                     message := line |} in
  let filename := getHourKeyOfString logTimestamp ++ js ".log" in
  mret (r.2, pushEntry filename logEntry fileEntries).

Fixpoint processLines (deviceId : jsstring) (logLines : list jsstring)
    (secondCounters : gmap jsstring Z)
    (fileEntries : list (jsstring * list LogEntry))
  : IO (list (jsstring * list LogEntry)) :=
  match logLines with
  | [] => mret fileEntries
  | line :: rest =>
      st ← processLine deviceId line secondCounters fileEntries;
      processLines deviceId rest st.1 st.2
  end.

Fixpoint writeAll (fileEntries : list (jsstring * list LogEntry)) : IO unit :=
  match fileEntries with
  | [] => mret tt
  | (filename, entries) :: rest =>
      appendFile (Incoming, filename) (Lines entries) ;; writeAll rest
  end.

(** [logContent.split("\n").filter((line) => line.length > 0)] *)
Definition nonEmptyLines (logContent : jsstring) : list jsstring :=
  List.filter (fun line => (0 <? length line)%nat) (splitOn 10%N logContent).

(** Process log content line by line. *)
Definition processLogContentLineByLine (deviceId logContent : jsstring)
  : IO ProcessResult :=
  trackRequest ;;
  let logLines := nonEmptyLines logContent in
  if (length logLines =? 0)%nat
  then mret {| result_success := false; linesProcessed := 0; filesWritten := 0 |}
  else
    fileEntries ← processLines deviceId logLines ∅ [];
    writeAll fileEntries ;;
    mret {| result_success := true;
            linesProcessed := Z.of_nat (length logLines);
            filesWritten := Z.of_nat (length fileEntries) |}.

End Host.

End LogProcessor.

(** ** [src/services/batchProcessor.js] *)

Module BatchProcessor.
Import JSDate JSString JSDateText FilesystemManager.

(** [s.replace(pat, "")]: removes the first occurrence of [pat]. *)
Fixpoint removeFirst (pat s : jsstring) : jsstring :=
  match s with
  | [] => []
  | c :: r =>
      if startsWith s pat then drop (length pat) s else c :: removeFirst pat r
  end.

(** [filename.match(/^(\d{4})-(\d{2})-(\d{2})-(\d{2})\.log$/)] *)
Definition matchBucketFilename (filename : jsstring)
  : option (jsstring * jsstring * jsstring * jsstring) :=
  match filename with
  | [y1; y2; y3; y4; a; m1; m2; b; d1; d2; c; h1; h2; p; l; o; g] =>
      if allDigits [y1; y2; y3; y4; m1; m2; d1; d2; h1; h2]
         && bool_decide ([a; b; c] = js "---")
         && bool_decide ([p; l; o; g] = js ".log")
      then Some ([y1; y2; y3; y4], [m1; m2], [d1; d2], [h1; h2])
      else None
  | _ => None
  end.

(** Generate the S3 key, partitioned and with a random suffix. *)
Definition generateS3Key (filename : jsstring) : IO jsstring :=
  match matchBucketFilename filename with
  | None => throw (js "Invalid filename format: " ++ filename)
  | Some (year, month, day, hour) =>
      randomSuffix ← randomSuffix;
      let uniqueFilename :=
        removeFirst (js ".log") filename ++ js "_" ++ randomSuffix ++ js ".log" in
      mret (config.s3KeyPrefix ++ js "/year=" ++ year ++ js "/month=" ++ month
            ++ js "/day=" ++ day ++ js "/hour=" ++ hour ++ js "/"
            ++ uniqueFilename ++ js ".gz")
  end.

(** Compress a file with GZIP.  When the input is missing the output file
    has still been opened, and is left empty. *)
Definition compressFile (inputPath outputPath : Path) : IO unit :=
  fun w =>
    match disk w !! inputPath with
    | Some d => (Return tt, setDisk (<[outputPath := Gzip d]> (disk w)) w)
    | None => (Throw (js "ENOENT"), setDisk (<[outputPath := Lines []]> (disk w)) w)
    end.

(** Upload the compressed file with retries.  [fuel] bounds the recursion;
    [uploadToS3] below supplies enough of it. *)
Fixpoint uploadToS3From (fuel : nat) (filePath : Path)
    (originalFilename : jsstring) (retryCount : Z) : IO unit :=
  modify (emit (UploadAttempt originalFilename retryCount)) ;;
  tryCatch
    (s3Key ← generateS3Key originalFilename;
     s3Send)
    (fun error =>
       if retryCount <? config.maxRetries then
         modify (emit (Sleep (1000 * (retryCount + 1)))) ;;
         match fuel with
         | O => throw error
         | S fuel' => uploadToS3From fuel' filePath originalFilename (retryCount + 1)
         end
       else throw error).

(** [uploadToS3(filePath, originalFilename, retryCount = 0)] *)
Definition uploadToS3 (filePath : Path) (originalFilename : jsstring) : IO unit :=
  uploadToS3From (Z.to_nat config.maxRetries) filePath originalFilename 0.

(** [await Promise.all([a, b])]: both run; the first error is thrown. *)
Definition both (a b : IO unit) : IO unit :=
  fun w =>
    let '(ra, w1) := a w in
    let '(rb, w2) := b w1 in
    match ra, rb with
    | Throw m, _ => (Throw m, w2)
    | _, Throw m => (Throw m, w2)
    | _, _ => (Return tt, w2)
    end.

(** Process a single file: compress and upload to S3. *)
Definition processFile (filename : jsstring) : IO unit :=
  let sourceFile : Path := (Processing, filename) in
  let compressedFile : Path := (Processing, filename ++ js ".gz") in
  tryCatch
    (compressFile sourceFile compressedFile ;;
     uploadToS3 compressedFile filename ;;
     both (unlink sourceFile) (unlink compressedFile))
    (fun error =>
       tryCatch (unlink compressedFile) (fun _ => mret tt) ;;
       throw error).

(** Move a failed file to the failed directory and write its metadata. *)
Definition handleFailedFile (filename errorMessage : jsstring) : IO unit :=
  tryCatch
    (moveFile (Processing, filename) (Failed, filename) ;;
     t ← now;
     writeJsonFile (Failed, filename ++ js ".meta")
       (MetaJson {| Meta.failed_at := toISOString t;
                    Meta.error_message := errorMessage;
                    Meta.retry_attempts := config.maxRetries |}))
    (fun _ => mret tt).

(** Update the processing status. *)
Definition updateStatus (statusData : RunStatus) : IO unit :=
  writeJsonFile (Status, js "last_run.json") (StatusJson statusData) ;;
  modify (emit (StatusWritten statusData)).

(** The [for (const filename of incomingFiles)] loop of the sweep. *)
Fixpoint sweepLoop (incomingFiles sweptFiles : list jsstring) : IO (list jsstring) :=
  match incomingFiles with
  | [] => mret sweptFiles
  | filename :: rest =>
      swept ← tryCatch
                (moveFile (Incoming, filename) (Processing, filename) ;;
                 mret (sweptFiles ++ [filename]))
                (fun _ => mret sweptFiles);
      sweepLoop rest swept
  end.

(** The [for (const filename of sweptFiles)] loop of a cycle. *)
Fixpoint processLoop (sweptFiles : list jsstring) (filesProcessed : Z)
    (st : RunState) : IO (Z * RunState) :=
  match sweptFiles with
  | [] => mret (filesProcessed, st)
  | filename :: rest =>
      r ← tryCatch
            (processFile filename ;; mret (filesProcessed + 1, st))
            (fun error =>
               handleFailedFile filename error ;; mret (filesProcessed, failed));
      processLoop rest r.1 r.2
  end.

Section Host.
(** The host's time zone. *)
Variable tza : Z -> Z.

(** The key of the current hour as the sweep builds it: the hour from one
    reading of the clock, the date from the next. *)
Definition currentHourKey (hourReading dateReading : Z) : jsstring :=
  ofInteger (getFullYear tza dateReading) ++ js "-"
  ++ padStart 2 48%N (ofInteger (getMonth tza dateReading + 1)) ++ js "-"
  ++ padStart 2 48%N (ofInteger (getDate tza dateReading)) ++ js "-"
  ++ padStart 2 48%N (ofInteger (getHours tza hourReading)).

(** The filter the sweep lists the incoming directory with. *)
Definition completed (currentHourKey filename : jsstring) : bool :=
  endsWith filename (js ".log") && negb (startsWith filename currentHourKey).

(** Sweep completed files from incoming to processing. *)
Definition sweepCompletedFiles : IO (list jsstring) :=
  hourReading ← now;
  dateReading ← now;
  let currentHourKey := currentHourKey hourReading dateReading in
  incomingFiles ← listFiles Incoming (completed currentHourKey);
  sweepLoop incomingFiles [].

(** The body of [run]'s [try] block. *)
Definition cycle (startTime : Z) : IO unit :=
  t ← now;
  updateStatus {| status := running; started_at := Some (toISOString t);
                  finished_at := None; duration_ms := None;
                  files_processed := None; error_message := None |} ;;
  sweptFiles ← sweepCompletedFiles;
  r ← processLoop sweptFiles 0 success;
  finishTime ← now;
  let duration := finishTime - startTime in
  t' ← now;
  updateStatus {| status := r.2; started_at := None;
                  finished_at := Some (toISOString t');
                  duration_ms := Some duration;
                  files_processed := Some r.1; error_message := None |}.

(** Main processing method, called by cron. *)
Definition run : IO unit :=
  busy ← gets isProcessing;
  if (busy : bool) then ret tt
  else
    modify (setIsProcessing true) ;;
    startTime ← now;
    finally
      (tryCatch (cycle startTime)
         (fun error =>
            t ← now;
            updateStatus {| status := failed; started_at := None;
                            finished_at := Some (toISOString t);
                            duration_ms := None; files_processed := None;
                            error_message := Some error |}))
      (setIsProcessing false).

End Host.

End BatchProcessor.

(** ** Requests and responses *)

Module Http.
Import JSString.

(** [req.body]: absent, a string, or a value of another type. *)
Inductive Body := NoBody | TextBody (s : jsstring) | OtherBody.

(** What the handlers read of a request.  [file] is the upload that
    [multer] has put in [req.file], as [req.file.buffer.toString("utf8")]. *)
Record Request := {
  authorization : option jsstring;
  param_device_id : jsstring;
  file : option jsstring;
  body : Body
}.

Inductive Payload :=
| ErrorPayload (error : jsstring)
| AcceptedPayload.

(** [res.status(statusCode).json(payload)]; [AcceptedPayload] is
    [{status: "accepted", message: "Log entry received and queued for
    processing"}]. *)
Record Response := {
  statusCode : Z;
  payload : Payload
}.

Definition respond (code : Z) (p : Payload) : IO Response :=
  mret {| statusCode := code; payload := p |}.

(** [s.trim()] *)
Definition trim (s : jsstring) : jsstring :=
  reverse (skipSpaces (reverse (skipSpaces s))).

(** [s.includes(pat)] *)
Fixpoint includes (s pat : jsstring) : bool :=
  startsWith s pat
  || match s with
     | [] => false
     | _ :: r => includes r pat
     end.

End Http.

(** ** [src/middleware/auth.js] and [src/routes/upload.js] *)

Module UploadRoute.
Import JSString LogProcessor Http.

(** [config.apiKey]: [process.env.API_KEY || "your-api-key-here"]. *)
Definition apiKey (API_KEY : option jsstring) : jsstring :=
  match API_KEY with
  | Some (c :: s) => c :: s
  | _ => js "your-api-key-here"
  end.

Section Host.
Variable tza : Z -> Z.
Variable dateParse : jsstring -> option Z.
(** The environment variable [API_KEY]. *)
Variable API_KEY : option jsstring.

(** Authentication middleware: [next] runs only for the configured key. *)
Definition authenticateApiKey (req : Request) (next : IO Response) : IO Response :=
  match authorization req with
  | None | Some [] => respond 401 (ErrorPayload (js "Missing Authorization header"))
  | Some providedKey =>
      if decide (providedKey = apiKey API_KEY) then next
      else respond 401 (ErrorPayload (js "Invalid API key"))
  end.

(** The [catch] block shared by the upload handlers. *)
Definition uploadError (message : jsstring) : IO Response :=
  if includes message (js "Invalid log format")
     || includes message (js "Invalid timestamp")
  then respond 400 (ErrorPayload message)
  else respond 500 (ErrorPayload (js "Internal server error")).

(** The handler of [POST /upload-logs/:device_id], raw text or file. *)
Definition uploadLogs (req : Request) : IO Response :=
  tryCatch
    (let device_id := param_device_id req in
     if decide (device_id = []) then
       respond 400 (ErrorPayload (js "Missing device_id parameter"))
     else
       match
         match file req with
         | Some content => Some content
         | None =>
             match body req with
             | TextBody (c :: s) => Some (c :: s)
             | _ => None
             end
         end
       with
       | None =>
           respond 400
             (ErrorPayload
                (js "Invalid log message: must be plain text or uploaded file"))
       | Some logMessage =>
           if bool_decide (logMessage = []) || bool_decide (trim logMessage = [])
           then respond 400 (ErrorPayload (js "Invalid log message: must be plain text"))
           else
             processLogContentLineByLine tza device_id logMessage ;;
             respond 202 AcceptedPayload
       end)
    uploadError.

(** The handler of the single-line [POST /upload-logs/:device_id]. *)
Definition uploadLogMessage (req : Request) : IO Response :=
  tryCatch
    (let device_id := param_device_id req in
     if decide (device_id = []) then
       respond 400 (ErrorPayload (js "Missing device_id parameter"))
     else
       match body req with
       | TextBody (c :: s) =>
           processLogRequest tza dateParse device_id (c :: s) ;;
           respond 202 AcceptedPayload
       | _ => respond 400 (ErrorPayload (js "Invalid log message: must be plain text"))
       end)
    uploadError.

(** The two routes: the middleware, then the handler. *)
Definition postUploadLogs (req : Request) : IO Response :=
  authenticateApiKey req (uploadLogs req).

Definition postUploadLogMessage (req : Request) : IO Response :=
  authenticateApiKey req (uploadLogMessage req).

(** The handler of [POST /supervisor/v1/:device_id/upload-logs] that reads
    the attached file only.  Each [Date.now()] and each [new Date()] of a
    log line takes a reading of the clock; without [req.file], reading
    [req.file.buffer] throws a TypeError (the message is Node's). *)
Definition uploadLogFile (req : Request) : IO Response :=
  startTime ← now;
  now ;;
  tryCatch
    (let device_id := param_device_id req in
     match file req with
     | None => throw (js "Cannot read properties of undefined (reading 'buffer')")
     | Some logMessage =>
         now ;;
         result ← processLogContentLineByLine tza device_id logMessage;
         now ;;
         now ;;
         respond 202 AcceptedPayload
     end)
    (fun message => now ;; now ;; uploadError message).

Definition postUploadLogFile (req : Request) : IO Response :=
  authenticateApiKey req (uploadLogFile req).

End Host.

End UploadRoute.

(** ** [src/routes/monitoring.js] *)

Module MonitoringRoute.
Import JSString FilesystemManager.

(** A property of a JSON object: absent, [null], or a string. *)
Inductive Field := Undefined | Null | Text (s : jsstring).

(** An element of the array [GET /api/failures] answers with. *)
Module Failure.
Record t := {
  file_name : jsstring;
  failed_at : Field;
  error_message : Field;
  retry_attempts : Z
}.
End Failure.

Inductive FailuresResponse :=
| FailuresOk (failures : list Failure.t)
| FailuresError (statusCode : Z) (error : jsstring).

(** [x || 0] on a number. *)
Definition orZero (x : Z) : Z := if x =? 0 then 0 else x.

(** The entry pushed for [filename], from what its sidecar reads as. *)
Definition failureOf (filename : jsstring) (metaData : option Json)
  : Failure.t :=
  match metaData with
  | Some (JsonMeta m) =>
      {| Failure.file_name := filename;
         Failure.failed_at := Text (Meta.failed_at m);
         Failure.error_message := Text (Meta.error_message m);
         Failure.retry_attempts := orZero (Meta.retry_attempts m) |}
  | Some (JsonStatus s) =>
      {| Failure.file_name := filename;
         Failure.failed_at := Undefined;
         Failure.error_message := match error_message s with
                                  | Some m => Text m
                                  | None => Undefined
                                  end;
         Failure.retry_attempts := 0 |}
  | Some (JsonEntry _) =>
      {| Failure.file_name := filename; Failure.failed_at := Undefined;
         Failure.error_message := Undefined; Failure.retry_attempts := 0 |}
  | None =>
      {| Failure.file_name := filename; Failure.failed_at := Null;
         Failure.error_message := Text (js "No metadata available");
         Failure.retry_attempts := 0 |}
  end.

(** The [for (const filename of failedFiles)] loop. *)
Fixpoint failuresLoop (failedFiles : list jsstring) (failures : list Failure.t)
  : IO (list Failure.t) :=
  match failedFiles with
  | [] => mret failures
  | filename :: rest =>
      metaData ← readJsonFile (Failed, filename ++ js ".meta");
      failuresLoop rest (failures ++ [failureOf filename metaData])
  end.

(** [GET /api/failures]: details of all quarantined batches. *)
Definition getFailures : IO FailuresResponse :=
  tryCatch
    (failedFiles ← listFiles Failed (fun filename => endsWith filename (js ".log"));
     failures ← failuresLoop failedFiles [];
     mret (FailuresOk failures))
    (fun _ => mret (FailuresError 500 (js "Failed to retrieve failure information"))).

End MonitoringRoute.

(** ** Vocabulary for the statements about the log processor *)

Module LogSpec.
Import JSDate JSString JSDateText LogProcessor.

(** A line cut at the places where the pattern [MMM DD HH:MM:SS] applies. *)
Record LogPrefix := {
  monthStr : jsstring;
  gap1 : jsstring;
  dayStr : jsstring;
  gap2 : jsstring;
  hh : jsstring;
  mm : jsstring;
  ss : jsstring;
  tail : jsstring
}.

Definition lineOf (p : LogPrefix) : jsstring :=
  monthStr p ++ gap1 p ++ dayStr p ++ gap2 p
  ++ hh p ++ js ":" ++ mm p ++ js ":" ++ ss p ++ tail p.

(** Three letters, white space, one or two digits, white space, and three
    pairs of digits between colons. *)
Definition wellFormed (p : LogPrefix) : bool :=
  (length (monthStr p) =? 3)%nat && forallb isLetter (monthStr p)
  && (0 <? length (gap1 p))%nat && forallb isSpace (gap1 p)
  && ((length (dayStr p) =? 1)%nat || (length (dayStr p) =? 2)%nat)
  && forallb isDigit (dayStr p)
  && (0 <? length (gap2 p))%nat && forallb isSpace (gap2 p)
  && (length (hh p) =? 2)%nat && forallb isDigit (hh p)
  && (length (mm p) =? 2)%nat && forallb isDigit (mm p)
  && (length (ss p) =? 2)%nat && forallb isDigit (ss p).

(** The line starts with a recognisable [MMM DD HH:MM:SS] prefix whose
    month is one of the twelve abbreviations. *)
Definition recognised (line : jsstring) : Prop :=
  exists p, wellFormed p = true /\ line = lineOf p
            /\ In (monthStr p) (map fst months).

(** The twelve month abbreviations, by name. *)
Definition monthAbbreviations : list jsstring :=
  [js "Jan"; js "Feb"; js "Mar"; js "Apr"; js "May"; js "Jun";
   js "Jul"; js "Aug"; js "Sep"; js "Oct"; js "Nov"; js "Dec"].

(** The line starts with a well-formed [MMM DD HH:MM:SS] prefix whose three
    letters are one of the twelve abbreviations. *)
Definition timestamped (line : jsstring) : Prop :=
  exists p, wellFormed p = true /\ line = lineOf p
            /\ In (monthStr p) monthAbbreviations.

(** A line holds no line break. *)
Definition oneLine (l : jsstring) : Prop := 10%N ∉ l.

#[global] Instance oneLine_dec l : Decision (oneLine l).
Proof. unfold oneLine. apply _. Defined.

(** A text from its lines: a line break between each two. *)
Fixpoint joinLines (ls : list jsstring) : jsstring :=
  match ls with
  | [] => []
  | l :: rest =>
      match rest with
      | [] => l
      | _ :: _ => l ++ 10%N :: joinLines rest
      end
  end.

(** The numbers [getTimestampFromLog] reads off a line. *)
Record Fields := {
  monthIndex : Z;
  day : Z;
  hours : Z;
  minutes : Z;
  seconds : Z
}.

Definition logFields (logLine : jsstring) : option Fields :=
  match matchLogPrefix logLine with
  | None => None
  | Some (monthStr, dayStr, timeStr) =>
      let parts := map Number (splitOn 58%N timeStr) in
      match lookup monthStr months with
      | None => None
      | Some monthIndex =>
          Some {| monthIndex := monthIndex; day := Number dayStr;
                  hours := nth 0 parts 0; minutes := nth 1 parts 0;
                  seconds := nth 2 parts 0 |}
      end
  end.

(** The event time of a line: its fields, read as a time of the given year
    in the zone UTC+7, as a UTC time value. *)
Definition eventTime (year : Z) (f : Fields) : Z :=
  UTC year (monthIndex f) (day f) (hours f) (minutes f) (seconds f)
  - 7 * msPerHour.

(** [secondKey]: the timestamp cut to the second. *)
Definition secondKeyOf (ts : jsstring) : jsstring :=
  substring0 19 ts ++ js "Z".

Definition entryOf (deviceId line ts : jsstring) : LogEntry :=
  {| device_id := deviceId; log_timestamp := ts; message := line |}.

(** The clock after [n] readings. *)
Definition later (n : nat) (clk : nat -> Z) : nat -> Z :=
  fun k => clk (n + k)%nat.

Section Host.
Variable tza : Z -> Z.

(** The file an entry with timestamp [ts] is grouped under. *)
Definition bucketOf (ts : jsstring) : jsstring :=
  getHourKeyOfString tza ts ++ js ".log".

(** [fileEntries] after pushing the entries [es], in order. *)
Definition groupEntries (es : list LogEntry)
    (fileEntries : list (jsstring * list LogEntry))
  : list (jsstring * list LogEntry) :=
  fold_left (fun fe e => pushEntry (bucketOf (log_timestamp e)) e fe)
            es fileEntries.

(** The second-keys the lines of a submission are observed under, in
    input order ([None] for a line without a timestamp), when the loop
    starts with the clock [clk]: a line with a timestamp takes two
    readings (the year of the base timestamp, the year of the final
    one), a line without takes one (the substitute time). *)
Fixpoint lineKeys (clk : nat -> Z) (lines : list jsstring)
  : list (option jsstring) :=
  match lines with
  | [] => []
  | line :: rest =>
      match logFields line with
      | None => None :: lineKeys (later 1 clk) rest
      | Some f =>
          Some (secondKeyOf
                  (toISOString (eventTime (getFullYear tza (clk 0%nat)) f)))
          :: lineKeys (later 2 clk) rest
      end
  end.

(** The timestamps the loop gives the lines, in input order, from the
    clock and the counters it starts with. *)
Fixpoint lineStamps (clk : nat -> Z) (secondCounters : gmap jsstring Z)
    (lines : list jsstring) : list jsstring :=
  match lines with
  | [] => []
  | line :: rest =>
      match logFields line with
      | None =>
          toISOString (clk 0%nat)
          :: lineStamps (later 1 clk) secondCounters rest
      | Some f =>
          let k := secondKeyOf
                     (toISOString (eventTime (getFullYear tza (clk 0%nat)) f)) in
          let c := default 0 (secondCounters !! k) in
          toISOString (eventTime (getFullYear tza (clk 1%nat)) f + c)
          :: lineStamps (later 2 clk) (<[k := c + 1]> secondCounters) rest
      end
  end.

(** How many of the first [i] lines were observed under the key [k]. *)
Definition seenBefore (k : jsstring) (i : nat)
    (keys : list (option jsstring)) : Z :=
  Z.of_nat (length (List.filter (fun o => bool_decide (o = Some k))
                                (take i keys))).

End Host.

(** The disk after each group of [fileEntries] has been appended to its
    bucket file in the incoming directory. *)
Definition written (fileEntries : list (jsstring * list LogEntry))
    (d : gmap Path FileData) : gmap Path FileData :=
  fold_left
    (fun d fe =>
       <[(Incoming, fe.1) := match d !! (Incoming, fe.1) with
                             | Some old => FilesystemManager.appendData old (Lines fe.2)
                             | None => Lines fe.2
                             end]> d)
    fileEntries d.

(** The records of a bucket file ([[]] when there is no such file). *)
Definition recordsOf (d : gmap Path FileData) (p : Path) : list LogEntry :=
  match d !! p with
  | Some (Lines es) => es
  | _ => []
  end.

Section Legacy.
Variable tza : Z -> Z.
Variable dateParse : jsstring -> option Z.

(** Successive single-line requests, as far as their timestamps go: one
    call of [parseAndEnhanceTimestamp] per message, in order. *)
Fixpoint parseEach (messages : list jsstring) : IO (list EnhancedTimestamp) :=
  match messages with
  | [] => mret []
  | m :: rest =>
      r ← parseAndEnhanceTimestamp tza dateParse m;
      rs ← parseEach rest;
      mret (r :: rs)
  end.

(** Successive single-line requests, each answered on its own: how the
    call of [parseAndEnhanceTimestamp] ends for each message, in order.  A
    message that is refused does not stop the ones after it. *)
Fixpoint parseRequests (messages : list jsstring)
  : IO (list (Completion EnhancedTimestamp)) :=
  match messages with
  | [] => mret []
  | m :: rest =>
      c ← tryCatch (r ← parseAndEnhanceTimestamp tza dateParse m; mret (Return r))
                   (fun message => mret (Throw message));
      cs ← parseRequests rest;
      mret (c :: cs)
  end.

(** The second-keys the messages of successive requests are observed
    under, in order ([None] for a message that is refused), when the first
    call starts with the clock [clk]: a call reads the clock for the year
    once it has found a prefix, and once more, in [cleanOldCounters], when
    the prefix is a date. *)
Fixpoint requestKeys (clk : nat -> Z) (messages : list jsstring)
  : list (option jsstring) :=
  match messages with
  | [] => []
  | m :: rest =>
      match matchLegacyPrefix m with
      | None => None :: requestKeys clk rest
      | Some s =>
          match dateParse (s ++ js " " ++ ofInteger (getFullYear tza (clk 0%nat))) with
          | None => None :: requestKeys (later 1 clk) rest
          | Some b => Some (formatTimestampKey b) :: requestKeys (later 2 clk) rest
          end
      end
  end.

End Legacy.

(** A host [Date.parse] for the examples: the text [MMM DD HH:MM:SS YYYY]
    read as a UTC time, anything else invalid.  The statements hold for
    every [dateParse]; this one is used on well-formed dates only, where
    it reads what an engine in a UTC host reads. *)
Definition sampleDateParse (s : jsstring) : option Z :=
  match matchLegacyPrefix s, logFields s with
  | Some pre, Some f =>
      match drop (length pre) s with
      | sp :: ys =>
          if (sp =? 32)%N && (0 <? length ys)%nat && allDigits ys
          then Some (UTC (Number ys) (monthIndex f) (day f) (hours f)
                         (minutes f) (seconds f))
          else None
      | [] => None
      end
  | _, _ => None
  end.

(** [n] ingestion calls in a row, as far as the request log goes. *)
Fixpoint trackEach (n : nat) : IO unit :=
  match n with
  | O => mret tt
  | S n' => trackRequest ;; trackEach n'
  end.

(** The ingestion rate by the words of the specification: the calls among
    [calls] (their times) that fall in the five minutes up to [t], divided
    by five and rounded to one decimal. *)
Definition ingestionRateAt (calls : list Z) (t : Z) : Q :=
  toFixed1 (inject_Z (Z.of_nat (length
      (List.filter (fun c => (t - 5 * 60 * 1000 <? c) && (c <=? t)) calls))) / 5)%Q.

(** The world after one reading of the clock. *)
Definition tick (w : World) : World := setClock (later 1 (clock w)) w.

(** Only the clock moved, by [n] readings. *)
Definition clockAdvanced (n : nat) (w w' : World) : Prop :=
  (forall k, clock w' k = clock w (n + k)%nat)
  /\ disk w' = disk w /\ s3Outcomes w' = s3Outcomes w
  /\ randomSuffixes w' = randomSuffixes w
  /\ timestampCounters w' = timestampCounters w
  /\ recentRequests w' = recentRequests w
  /\ isProcessing w' = isProcessing w /\ effects w' = effects w.

(** A string that does not start with white space. *)
Definition noLeadingSpace (s : jsstring) : Prop :=
  match s with
  | c :: _ => isSpace c = false
  | [] => True
  end.

(** [cleanOldCounters], run at the time [t], keeps the counter of the
    second-key [k]. *)
Definition retained (k : jsstring) (t : Z) : Prop :=
  ltb k (formatTimestampKey (t - 60 * 60 * 1000)) = false.

End LogSpec.

(** ** Vocabulary for the statements about the batch processor *)

Module BatchSpec.

(** What an operation on the disk leaves as it was. *)
Definition sameButDisk (w w' : World) : Prop :=
  clock w' = clock w /\ s3Outcomes w' = s3Outcomes w
  /\ randomSuffixes w' = randomSuffixes w
  /\ timestampCounters w' = timestampCounters w
  /\ recentRequests w' = recentRequests w
  /\ isProcessing w' = isProcessing w /\ effects w' = effects w.

(** What an upload leaves as it was: everything but the streams it draws
    from and the record of effects. *)
Definition uploadFrame (w w' : World) : Prop :=
  clock w' = clock w /\ disk w' = disk w
  /\ timestampCounters w' = timestampCounters w
  /\ recentRequests w' = recentRequests w
  /\ isProcessing w' = isProcessing w.

(** The attempts and pauses of an upload that fails throughout, from the
    attempt numbered [retryCount] with [fuel] retries left. *)
Fixpoint failedAttempts (name : jsstring) (retryCount : Z) (fuel : nat)
  : list Effect :=
  UploadAttempt name retryCount
  :: match fuel with
     | O => []
     | S fuel' => Sleep (1000 * (retryCount + 1))
                  :: failedAttempts name (retryCount + 1) fuel'
     end.

End BatchSpec.

(** ** Vocabulary for the further properties *)

Module BucketSpec.
Import JSDateText.
(** The name of a bucket file with the given fields. *)
Definition bucketStem (y m d h : jsstring) : jsstring :=
  y ++ js "-" ++ m ++ js "-" ++ d ++ js "-" ++ h.

(** Four, two, two and two decimal digits. *)
Definition bucketFields (y m d h : jsstring) : Prop :=
  length y = 4%nat /\ length m = 2%nat /\ length d = 2%nat /\ length h = 2%nat
  /\ allDigits (y ++ m ++ d ++ h) = true.

(** [YYYY-MM-DD-HH.log] *)
Definition isBucketName (filename : jsstring) : Prop :=
  exists y m d h, bucketFields y m d h /\ filename = bucketStem y m d h ++ js ".log".
End BucketSpec.

Module RetrySpec.
(** The world after an upload drew [n] results from the store and [r]
    random suffixes, and left the effects [es] behind. *)
Definition afterAttempts (n r : nat) (es : list Effect) (w : World) : World :=
  {| clock := clock w; disk := disk w;
     s3Outcomes := fun i => s3Outcomes w (n + i)%nat;
     randomSuffixes := fun i => randomSuffixes w (r + i)%nat;
     timestampCounters := timestampCounters w;
     recentRequests := recentRequests w; isProcessing := isProcessing w;
     effects := effects w ++ es |}.
End RetrySpec.

Module GroupSpec.
(** The entries grouped under a filename ([[]] when it has no group). *)
Definition entriesFor (name : jsstring) (fe : list (jsstring * list LogEntry))
  : list LogEntry :=
  match List.find (fun p => bool_decide (p.1 = name)) fe with
  | Some p => p.2
  | None => []
  end.

(** Every file of the incoming directory is a file of records. *)
Definition bucketFiles (d : gmap Path FileData) : Prop :=
  forall name data,
    d !! ((Incoming, name) : Path) = Some data -> exists es, data = Lines es.
End GroupSpec.

Module RouteSpec.
Import LogSpec.
(** The world after [trackRequest] has recorded a request. *)
Definition tracked (w : World) : World :=
  setRecentRequests
    (List.filter (fun timestamp => clock w 0%nat - 5 * 60 * 1000 <? timestamp)
                 (recentRequests w ++ [clock w 0%nat]))
    (tick w).
End RouteSpec.

Module StatusSpec.
(** The statuses written, oldest first, among the effects observed. *)
Definition statusWrites (es : list Effect) : list RunStatus :=
  omap (fun e => match e with StatusWritten s => Some s | _ => None end) es.

(** A computation that writes no status. *)
Definition quiet {A} (c : IO A) : Prop :=
  forall w, statusWrites (effects (c w).2) = statusWrites (effects w).
End StatusSpec.

(** ** Sample hosts and inputs *)

Module Samples.

(** A host whose zone is UTC. *)
Definition utc : Z -> Z := fun _ => 0.

(** 2025-09-04T12:53:01.045Z *)
Definition sampleTime : Z := 1756990381045.

(** A world whose clock stands at [sampleTime], with an empty disk and a
    store that refuses every request. *)
Definition sampleWorld : World :=
  {| clock := fun _ => sampleTime; disk := ∅;
     s3Outcomes := fun _ => Some (js "AccessDenied");
     randomSuffixes := fun _ => js "k3x9qa";
     timestampCounters := ∅; recentRequests := [];
     isProcessing := false; effects := [] |}.

Definition worldAt (t : Z) : World := setClock (fun _ => t) sampleWorld.

Definition newline : jsstring := [10%N].
Definition bootLine : jsstring := js "Sep 04 12:53:01 unit-a boot".
Definition readyLine : jsstring := js "Sep 04 12:53:01 unit-a ready".
Definition twoLines : jsstring := bootLine ++ newline ++ readyLine ++ newline.

(** [bootLine], cut where the pattern applies. *)
Definition bootPrefix : LogSpec.LogPrefix :=
  {| LogSpec.monthStr := js "Sep"; LogSpec.gap1 := js " ";
     LogSpec.dayStr := js "04"; LogSpec.gap2 := js " ";
     LogSpec.hh := js "12"; LogSpec.mm := js "53"; LogSpec.ss := js "01";
     LogSpec.tail := js " unit-a boot" |}.

(** The timestamps of the records at the given positions. *)
Definition stampsAt (positions : list nat) (es : list LogEntry)
  : list (option jsstring) :=
  map (fun i => log_timestamp <$> es !! i) positions.

(** For each of the named bucket files: how many records it holds, and
    the timestamp of the last. *)
Definition bucketSummary (d : gmap Path FileData) (names : list jsstring)
  : list (nat * option jsstring) :=
  map (fun n => let es := LogSpec.recordsOf d (Incoming, n) in
                (length es, log_timestamp <$> last es)) names.

(** The same line 1001 times over. *)
Definition manyLines : jsstring :=
  concat (replicate 1001 (js "Sep 04 12:53:01 x" ++ newline)).

(** 1001 lines in the last second of an hour. *)
Definition manyLinesAtHourEnd : jsstring :=
  concat (replicate 1001 (js "Sep 04 12:59:59 x" ++ newline)).

Definition sampleEntry : LogEntry :=
  LogSpec.entryOf (js "unit-a") bootLine (js "2025-09-04T05:53:01.000Z").

(** A world with one swept file waiting in the processing directory. *)
Definition worldWithSweptFile : World :=
  setDisk {[ (Processing, js "2025-09-04-05.log") := Lines [sampleEntry] ]}
          sampleWorld.

(** A world whose incoming directory holds the bucket of the current hour
    and the bucket of the hour before. *)
Definition worldWithBuckets : World :=
  setDisk {[ (Incoming, js "2025-09-04-12.log") := Lines [sampleEntry];
             (Incoming, js "2025-09-04-11.log") := Lines [sampleEntry] ]}
          sampleWorld.

(** A text of three lines: the second empty, the third without a
    timestamp. *)
Definition mixedLines : list jsstring := [bootLine; []; js "link is up"].

(** Four single-line requests: two of one second, with a message without
    a timestamp and a message of the next second in between. *)
Definition mixedMessages : list jsstring :=
  [js "Sep 04 12:53:01 unit-a boot"; js "link is up";
   js "Sep 04 12:53:02 unit-a up"; js "Sep 04 12:53:01 unit-a ready"].

(** A clock that reads [first] once and [next] from then on. *)
Definition clockTurning (first next : Z) : nat -> Z :=
  fun n => match n with O => first | S _ => next end.

(** A sweep that starts at 2025-09-04T23:59:59.999Z and goes on at
    2025-09-05T00:00:00.000Z, with the buckets of the hour before and of
    the hour after midnight in the incoming directory. *)
Definition worldAtMidnight : World :=
  setClock (clockTurning 1757030399999 1757030400000)
    (setDisk {[ ((Incoming, js "2025-09-04-23.log") : Path) := Lines [sampleEntry];
                ((Incoming, js "2025-09-05-00.log") : Path) := Lines [sampleEntry] ]}
             sampleWorld).

(** A sweep that starts at 2025-09-04T12:59:59.999Z and goes on at
    13:00:00.000Z, with the buckets of the hours 12 and 13 in the incoming
    directory. *)
Definition worldAtHourChange : World :=
  setClock (clockTurning 1756990799999 1756990800000)
    (setDisk {[ ((Incoming, js "2025-09-04-12.log") : Path) := Lines [sampleEntry];
                ((Incoming, js "2025-09-04-13.log") : Path) := Lines [sampleEntry] ]}
             sampleWorld).

End Samples.

Module Scenarios.
Import Http Samples.

(** The bucket of 2025-09-04, 05h. *)
Definition sampleBucket : jsstring := js "2025-09-04-05.log".

(** A store that refuses twice, then accepts. *)
Definition worldWithSlowStore : World :=
  setS3Outcomes (fun n => if (n <? 2)%nat then Some (js "SlowDown") else None)
                worldWithSweptFile.

(** An authorised upload of two lines as raw text, with the default key. *)
Definition sampleUpload : Request :=
  {| authorization := Some (js "your-api-key-here");
     param_device_id := js "unit-a";
     file := None;
     body := TextBody twoLines |}.

Definition sampleMessage (msg : jsstring) : Request :=
  {| authorization := Some (js "your-api-key-here");
     param_device_id := js "unit-a";
     file := None;
     body := TextBody msg |}.

Definition sampleMeta : Meta.t :=
  {| Meta.failed_at := js "2025-09-04T12:53:01.045Z";
     Meta.error_message := js "AccessDenied";
     Meta.retry_attempts := 3 |}.

(** A world with one quarantined bucket and its sidecar. *)
Definition worldWithQuarantine : World :=
  setDisk {[ ((Failed, sampleBucket) : Path) := Lines [sampleEntry];
             ((Failed, sampleBucket ++ js ".meta") : Path) := MetaJson sampleMeta ]}
          sampleWorld.

End Scenarios.

(** * Facts *)

Module DateFacts.
Import JSDate JSString JSDateText.

Lemma YearFromDay_spec d :
  DayFromYear (YearFromDay d) <= d < DayFromYear (YearFromDay d + 1).
Proof.
  unfold YearFromDay.
  set (y0 := 1970 + 400 * d / 146097).
  assert (Hy : 146097 * (y0 - 1970) <= 400 * d < 146097 * (y0 - 1970) + 146097).
  { unfold y0. pose proof (Z.div_mod (400 * d) 146097 ltac:(lia)).
    pose proof (Z.mod_pos_bound (400 * d) 146097 ltac:(lia)). lia. }
  clearbody y0.
  destruct (Z.ltb_spec d (DayFromYear y0)).
  - replace (y0 - 1 + 1) with y0 by lia. split; [|lia].
    unfold DayFromYear in *. Z.div_mod_to_equations; lia.
  - destruct (Z.leb_spec (DayFromYear (y0 + 1)) d).
    + split; [lia|]. unfold DayFromYear in *. Z.div_mod_to_equations; lia.
    + lia.
Qed.

Lemma DayFromYear_succ y : DayFromYear (y + 1) = DayFromYear y + DaysInYear y.
Proof.
  unfold DayFromYear, DaysInYear, isLeapYear.
  destruct (Z.eqb_spec (y mod 4) 0), (Z.eqb_spec (y mod 100) 0),
    (Z.eqb_spec (y mod 400) 0); simpl; Z.div_mod_to_equations; lia.
Qed.

Lemma DayWithinYear_bounds t :
  0 <= DayWithinYear t < 365 + InLeapYear t.
Proof.
  unfold DayWithinYear, InLeapYear, YearFromTime.
  pose proof (YearFromDay_spec (Day t)) as H.
  rewrite DayFromYear_succ in H. unfold DaysInYear in H.
  destruct (isLeapYear _); lia.
Qed.

Lemma InLeapYear_01 t : InLeapYear t = 0 \/ InLeapYear t = 1.
Proof. unfold InLeapYear. destruct (isLeapYear _); auto. Qed.

Lemma month_of_day leap d :
  (leap = 0 \/ leap = 1) -> 0 <= d < 365 + leap ->
  let m := monthOfDayInYear leap d in
  0 <= m <= 11 /\ monthStart leap m <= d < monthStart leap (m + 1).
Proof.
  intros Hl Hd. cbv zeta. split.
  - unfold monthOfDayInYear.
    repeat match goal with
           | |- context [ (?a <? ?b) ] => destruct (Z.ltb_spec a b)
           end; lia.
  - unfold monthOfDayInYear.
    repeat match goal with
           | |- context [ if (?a <? ?b) then _ else _ ] => destruct (Z.ltb_spec a b)
           end; unfold monthStart; simpl; lia.
Qed.

Lemma MonthFromTime_range t : 0 <= MonthFromTime t <= 11.
Proof.
  unfold MonthFromTime.
  apply (month_of_day _ _ (InLeapYear_01 t) (DayWithinYear_bounds t)).
Qed.

Lemma DateFromTime_range t :
  1 <= DateFromTime t <= DaysInMonth (YearFromTime t) (MonthFromTime t).
Proof.
  unfold DateFromTime, DaysInMonth.
  pose proof (month_of_day _ _ (InLeapYear_01 t) (DayWithinYear_bounds t)) as [_ H].
  fold (MonthFromTime t) in H. unfold InLeapYear in *. lia.
Qed.

Lemma MakeDay_fields t :
  MakeDay (YearFromTime t) (MonthFromTime t) (DateFromTime t) = Day t.
Proof.
  pose proof (MonthFromTime_range t) as Hm.
  unfold MakeDay.
  replace (MonthFromTime t / 12) with 0 by (Z.div_mod_to_equations; lia).
  replace (MonthFromTime t mod 12) with (MonthFromTime t)
    by (Z.div_mod_to_equations; lia).
  rewrite Z.add_0_r. unfold DateFromTime, DayWithinYear, InLeapYear. lia.
Qed.

Lemma MakeTime_fields t :
  MakeTime (HourFromTime t) (MinFromTime t) (SecFromTime t) (msFromTime t)
  = TimeWithinDay t.
Proof.
  unfold MakeTime, HourFromTime, MinFromTime, SecFromTime, msFromTime,
    TimeWithinDay, msPerDay, msPerHour, msPerMinute, msPerSecond.
  Z.div_mod_to_equations; lia.
Qed.

Lemma MakeDate_fields t :
  MakeDate (MakeDay (YearFromTime t) (MonthFromTime t) (DateFromTime t))
           (MakeTime (HourFromTime t) (MinFromTime t) (SecFromTime t)
                     (msFromTime t)) = t.
Proof.
  rewrite MakeDay_fields, MakeTime_fields.
  unfold MakeDate, Day, TimeWithinDay, msPerDay.
  Z.div_mod_to_equations; lia.
Qed.

Lemma time_field_ranges t :
  0 <= HourFromTime t <= 23 /\ 0 <= MinFromTime t <= 59
  /\ 0 <= SecFromTime t <= 59 /\ 0 <= msFromTime t <= 999.
Proof.
  unfold HourFromTime, MinFromTime, SecFromTime, msFromTime, msPerSecond.
  repeat split; Z.div_mod_to_equations; lia.
Qed.

Lemma validTime_year t :
  validTime t -> -271821 <= YearFromTime t <= 275760.
Proof.
  unfold validTime, YearFromTime. intros Ht.
  pose proof (YearFromDay_spec (Day t)) as H.
  assert (Hd : -100000000 <= Day t <= 100000000).
  { unfold Day, msPerDay. Z.div_mod_to_equations; lia. }
  revert H. generalize (YearFromDay (Day t)). intros y H.
  unfold DayFromYear in H. Z.div_mod_to_equations; lia.
Qed.

Lemma setUTCHours_shift t k :
  setUTCHours t (getUTCHours t + k) = t + k * msPerHour.
Proof.
  unfold setUTCHours, getUTCHours, MakeDate, MakeTime, Day, HourFromTime,
    MinFromTime, SecFromTime, msFromTime, msPerDay, msPerHour, msPerMinute,
    msPerSecond.
  Z.div_mod_to_equations; lia.
Qed.

Lemma setUTCMilliseconds_eq t ms :
  setUTCMilliseconds t ms = t - msFromTime t + ms.
Proof.
  unfold setUTCMilliseconds, MakeDate, MakeTime, Day, HourFromTime,
    MinFromTime, SecFromTime, msFromTime, msPerDay, msPerHour, msPerMinute,
    msPerSecond.
  Z.div_mod_to_equations; lia.
Qed.

Lemma UTC_whole_seconds y m d h mi s : msFromTime (UTC y m d h mi s) = 0.
Proof.
  unfold UTC, MakeDate, MakeTime, msFromTime, msPerDay, msPerHour,
    msPerMinute, msPerSecond.
  generalize (MakeDay (if (0 <=? y) && (y <=? 99) then 1900 + y else y) m d).
  intros D. Z.div_mod_to_equations; lia.
Qed.

(** Within one second the fields down to the second do not change. *)
Lemma isoSeconds_same_second t h :
  msFromTime t = 0 -> 0 <= h <= 999 -> isoSeconds (t + h) = isoSeconds t.
Proof.
  intros Ht Hh.
  assert (HD : Day (t + h) = Day t).
  { unfold Day, msFromTime, msPerDay, msPerSecond in *.
    Z.div_mod_to_equations; lia. }
  assert (HH : HourFromTime (t + h) = HourFromTime t).
  { unfold HourFromTime, msFromTime, msPerHour, msPerSecond in *.
    Z.div_mod_to_equations; lia. }
  assert (HM : MinFromTime (t + h) = MinFromTime t).
  { unfold MinFromTime, msFromTime, msPerMinute, msPerSecond in *.
    Z.div_mod_to_equations; lia. }
  assert (HS : SecFromTime (t + h) = SecFromTime t).
  { unfold SecFromTime, msFromTime, msPerSecond in *.
    Z.div_mod_to_equations; lia. }
  unfold isoSeconds, MonthFromTime, DateFromTime, MonthFromTime, InLeapYear,
    DayWithinYear, YearFromTime.
  rewrite HD, HH, HM, HS. reflexivity.
Qed.

End DateFacts.

Module TextFacts.
Import JSDate JSString JSDateText DateFacts.

Lemma digitChar_N d : 0 <= d <= 9 -> Z.of_N (digitChar d) = 48 + d.
Proof. intros. unfold digitChar. lia. Qed.

Lemma isDigit_digitChar d : 0 <= d <= 9 -> isDigit (digitChar d) = true.
Proof.
  intros H. pose proof (digitChar_N d H). unfold isDigit.
  apply andb_true_intro; split; apply N.leb_le; lia.
Qed.

Lemma digitVal_digitChar d : 0 <= d <= 9 -> digitVal (digitChar d) = d.
Proof. intros H. unfold digitVal. rewrite digitChar_N; lia. Qed.

Lemma digitChar_neq d c :
  0 <= d <= 9 -> (c < 48 \/ 57 < c)%N -> (digitChar d =? c)%N = false.
Proof. intros H Hc. pose proof (digitChar_N d H). apply N.eqb_neq. lia. Qed.

Lemma mod10_digit n : 0 <= n mod 10 <= 9.
Proof. Z.div_mod_to_equations; lia. Qed.

Lemma fixedDigits_length w n : length (fixedDigits w n) = w.
Proof.
  revert n. induction w as [|w IH]; intros n; simpl; [reflexivity|].
  rewrite length_app, IH. simpl. lia.
Qed.

Lemma allDigits_fixedDigits w n : allDigits (fixedDigits w n) = true.
Proof.
  revert n. induction w as [|w IH]; intros n; simpl; [reflexivity|].
  unfold allDigits in *. rewrite forallb_app, IH. simpl.
  rewrite isDigit_digitChar by apply mod10_digit. reflexivity.
Qed.

Lemma Number_snoc s c : Number (s ++ [c]) = 10 * Number s + digitVal c.
Proof. unfold Number. rewrite fold_left_app. reflexivity. Qed.

Lemma Number_fixedDigits w n :
  0 <= n < 10 ^ Z.of_nat w -> Number (fixedDigits w n) = n.
Proof.
  revert n. induction w as [|w IH]; intros n Hn.
  - simpl in *. unfold Number. simpl. lia.
  - simpl fixedDigits. rewrite Number_snoc, digitVal_digitChar by apply mod10_digit.
    rewrite IH.
    + Z.div_mod_to_equations; lia.
    + rewrite Nat2Z.inj_succ, Z.pow_succ_r in Hn by lia.
      Z.div_mod_to_equations; lia.
Qed.

Lemma fixedDigits_2 n :
  fixedDigits 2 n = [digitChar (n / 10 mod 10); digitChar (n mod 10)].
Proof. reflexivity. Qed.

Lemma fixedDigits_3 n :
  fixedDigits 3 n
  = [digitChar (n / 10 / 10 mod 10); digitChar (n / 10 mod 10); digitChar (n mod 10)].
Proof. reflexivity. Qed.

Lemma fixedDigits_head_digit w n c r :
  fixedDigits w n = c :: r -> (48 <= c <= 57)%N.
Proof.
  intros H. pose proof (allDigits_fixedDigits w n) as Hd. rewrite H in Hd.
  simpl in Hd. apply andb_true_iff in Hd as [Hd _]. unfold isDigit in Hd.
  apply andb_true_iff in Hd as [H1 H2]. apply N.leb_le in H1, H2. lia.
Qed.

Lemma parseISOAfterYear_fields y M D h m s f :
  1 <= M <= 12 -> 1 <= D <= DaysInMonth y (M - 1) -> 0 <= h <= 23 ->
  0 <= m <= 59 -> 0 <= s <= 59 -> 0 <= f <= 999 ->
  parseISOAfterYear y
    (js "-" ++ fixedDigits 2 M ++ js "-" ++ fixedDigits 2 D ++ js "T"
     ++ fixedDigits 2 h ++ js ":" ++ fixedDigits 2 m ++ js ":"
     ++ fixedDigits 2 s ++ js "." ++ fixedDigits 3 f ++ js "Z")
  = Some (MakeDate (MakeDay y (M - 1) D) (MakeTime h m s f)).
Proof.
  intros HM HD Hh Hm Hs Hf.
  assert (HD' : D <= 31).
  { revert HD. unfold DaysInMonth, monthStart.
    destruct (isLeapYear y);
    repeat match goal with
           | |- context [ (?a <=? ?b) ] => destruct (Z.leb_spec a b)
           | |- context [ (?a =? ?b) ] => destruct (Z.eqb_spec a b)
           end; lia. }
  pose proof (Number_fixedDigits 2 M ltac:(simpl; lia)) as NM.
  pose proof (Number_fixedDigits 2 D ltac:(simpl; lia)) as ND.
  pose proof (Number_fixedDigits 2 h ltac:(simpl; lia)) as Nh.
  pose proof (Number_fixedDigits 2 m ltac:(simpl; lia)) as Nm.
  pose proof (Number_fixedDigits 2 s ltac:(simpl; lia)) as Ns.
  pose proof (Number_fixedDigits 3 f ltac:(simpl; lia)) as Nf.
  pose proof (allDigits_fixedDigits 2 M) as AM.
  pose proof (allDigits_fixedDigits 2 D) as AD.
  pose proof (allDigits_fixedDigits 2 h) as Ah.
  pose proof (allDigits_fixedDigits 2 m) as Am.
  pose proof (allDigits_fixedDigits 2 s) as As.
  pose proof (allDigits_fixedDigits 3 f) as Af.
  rewrite !fixedDigits_2, fixedDigits_3 in *.
  repeat match goal with
         | H : context [ digitChar ?x ] |- _ =>
             let c := fresh "c" in set (c := digitChar x) in *; clearbody c
         end.
  change (js "-") with [45%N]. change (js "T") with [84%N].
  change (js ":") with [58%N]. change (js ".") with [46%N].
  change (js "Z") with [90%N].
  cbn [app parseISOAfterYear].
  change (45 =? 45)%N with true. change (84 =? 84)%N with true.
  change (58 =? 58)%N with true. change (46 =? 46)%N with true.
  change (90 =? 90)%N with true.
  cbn [andb].
  unfold allDigits in *. cbn [forallb] in *.
  repeat match goal with
         | H : _ && _ = true |- _ => apply andb_true_iff in H as [? ?]
         end.
  repeat match goal with
         | H : isDigit ?c = true |- _ => rewrite H; clear H
         end.
  cbn [andb].
  rewrite NM, ND, Nh, Nm, Ns, Nf.
  replace ((1 <=? M) && (M <=? 12) && (1 <=? D) && (D <=? DaysInMonth y (M - 1))
           && ((h <=? 23) || (h =? 24) && (m =? 0) && (s =? 0) && (f =? 0))
           && (m <=? 59) && (s <=? 59)) with true; [reflexivity|].
  symmetry.
  repeat (apply andb_true_intro; split); try (apply Z.leb_le; lia).
  apply orb_true_iff. left. apply Z.leb_le. lia.
Qed.

Lemma toISOString_unfold t :
  toISOString t
  = isoYear (YearFromTime t)
    ++ (js "-" ++ fixedDigits 2 (MonthFromTime t + 1) ++ js "-"
        ++ fixedDigits 2 (DateFromTime t) ++ js "T"
        ++ fixedDigits 2 (HourFromTime t) ++ js ":"
        ++ fixedDigits 2 (MinFromTime t) ++ js ":"
        ++ fixedDigits 2 (SecFromTime t) ++ js "."
        ++ fixedDigits 3 (msFromTime t) ++ js "Z").
Proof. unfold toISOString, isoSeconds. rewrite <- !app_assoc. reflexivity. Qed.

Lemma parse_after_year t :
  parseISOAfterYear (YearFromTime t)
    (js "-" ++ fixedDigits 2 (MonthFromTime t + 1) ++ js "-"
        ++ fixedDigits 2 (DateFromTime t) ++ js "T"
        ++ fixedDigits 2 (HourFromTime t) ++ js ":"
        ++ fixedDigits 2 (MinFromTime t) ++ js ":"
        ++ fixedDigits 2 (SecFromTime t) ++ js "."
        ++ fixedDigits 3 (msFromTime t) ++ js "Z") = Some t.
Proof.
  pose proof (MonthFromTime_range t). pose proof (DateFromTime_range t) as HD.
  pose proof (time_field_ranges t) as (? & ? & ? & ?).
  rewrite parseISOAfterYear_fields; try lia.
  - replace (MonthFromTime t + 1 - 1) with (MonthFromTime t) by lia.
    rewrite MakeDate_fields. reflexivity.
  - replace (MonthFromTime t + 1 - 1) with (MonthFromTime t) by lia. exact HD.
Qed.

Lemma parseISO_toISOString t : validTime t -> parseISO (toISOString t) = Some t.
Proof.
  intros Hv. pose proof (validTime_year t Hv) as Hy.
  rewrite toISOString_unfold.
  set (rest := js "-" ++ _). pose proof (parse_after_year t) as Hp.
  fold rest in Hp. clearbody rest.
  unfold isoYear.
  destruct (Z.leb_spec 0 (YearFromTime t)) as [H0|H0];
    [destruct (Z.leb_spec (YearFromTime t) 9999) as [H1|H1]|]; cbn [andb].
  - (* four digits *)
    pose proof (fixedDigits_length 4 (YearFromTime t)) as Hl.
    pose proof (allDigits_fixedDigits 4 (YearFromTime t)) as Ha.
    pose proof (Number_fixedDigits 4 (YearFromTime t) ltac:(simpl; lia)) as Hn.
    destruct (fixedDigits 4 (YearFromTime t)) as [|c ys] eqn:E; [discriminate|].
    pose proof (fixedDigits_head_digit _ _ _ _ E) as Hc.
    cbn [app parseISO].
    replace ((c =? 43) || (c =? 45))%N with false
      by (symmetry; apply orb_false_iff; split; apply N.eqb_neq; lia).
    change (c :: ys ++ rest) with ((c :: ys) ++ rest).
    rewrite take_app_length' by (symmetry; exact Hl).
    rewrite drop_app_length' by (symmetry; exact Hl).
    rewrite Hl, Ha, Hn. exact Hp.
  - (* beyond 9999 *)
    destruct (Z.ltb_spec (YearFromTime t) 0); [lia|].
    pose proof (fixedDigits_length 6 (Z.abs (YearFromTime t))) as Hl.
    pose proof (allDigits_fixedDigits 6 (Z.abs (YearFromTime t))) as Ha.
    pose proof (Number_fixedDigits 6 (Z.abs (YearFromTime t)) ltac:(simpl; lia)) as Hn.
    change (js "+") with [43%N]. cbn [app parseISO].
    change (43 =? 43)%N with true. change (43 =? 45)%N with false. cbn [orb andb].
    rewrite take_app_length' by (symmetry; exact Hl).
    rewrite drop_app_length' by (symmetry; exact Hl).
    rewrite Hl, Ha, Hn. cbn [Nat.eqb andb negb].
    rewrite Z.abs_eq by lia. exact Hp.
  - (* before year 0 *)
    destruct (Z.ltb_spec (YearFromTime t) 0); [|lia].
    pose proof (fixedDigits_length 6 (Z.abs (YearFromTime t))) as Hl.
    pose proof (allDigits_fixedDigits 6 (Z.abs (YearFromTime t))) as Ha.
    pose proof (Number_fixedDigits 6 (Z.abs (YearFromTime t)) ltac:(simpl; lia)) as Hn.
    change (js "-") with [45%N]. cbn [app parseISO].
    change (45 =? 43)%N with false. change (45 =? 45)%N with true. cbn [orb andb].
    rewrite take_app_length' by (symmetry; exact Hl).
    rewrite drop_app_length' by (symmetry; exact Hl).
    rewrite Hl, Ha, Hn. cbn [Nat.eqb andb negb].
    replace (Z.abs (YearFromTime t) =? 0) with false by (symmetry; apply Z.eqb_neq; lia).
    cbn [negb]. rewrite Z.abs_neq by lia. rewrite Z.opp_involutive. exact Hp.
Qed.

End TextFacts.

Module MatchFacts.
Import JSDate JSString JSDateText LogProcessor LogSpec.

Lemma digit_not_space c : isDigit c = true -> isSpace c = false.
Proof.
  unfold isDigit, isSpace. intros H.
  apply andb_true_iff in H as [H1 H2]. apply N.leb_le in H1, H2.
  apply not_true_is_false. intros Hs.
  repeat match goal with
         | H : _ || _ = true |- _ => apply orb_true_iff in H as [H|H]
         | H : _ && _ = true |- _ => apply andb_true_iff in H as [H ?]
         | H : (_ <=? _)%N = true |- _ => apply N.leb_le in H
         | H : (_ =? _)%N = true |- _ => apply N.eqb_eq in H
         end; lia.
Qed.

Lemma space_not_digit c : isSpace c = true -> isDigit c = false.
Proof.
  intros H. destruct (isDigit c) eqn:E; [|reflexivity].
  apply digit_not_space in E. congruence.
Qed.

Lemma skipSpaces_app ws r :
  forallb isSpace ws = true -> noLeadingSpace r -> skipSpaces (ws ++ r) = r.
Proof.
  intros Hws Hr. induction ws as [|c ws IH]; simpl in *.
  - destruct r as [|c r]; [reflexivity|]. simpl in *. rewrite Hr. reflexivity.
  - apply andb_true_iff in Hws as [Hc Hws]. rewrite Hc. auto.
Qed.

Lemma skipSpaces_split s :
  exists ws, s = ws ++ skipSpaces s /\ forallb isSpace ws = true
             /\ noLeadingSpace (skipSpaces s).
Proof.
  induction s as [|c s (ws & E & Hws & Hn)]; simpl.
  - exists []. auto.
  - destruct (isSpace c) eqn:Hc.
    + exists (c :: ws). simpl. rewrite Hc, Hws. split; [congruence|auto].
    + exists []. simpl. auto.
Qed.

Lemma spaces1_app ws r :
  (0 <? length ws)%nat = true -> forallb isSpace ws = true ->
  noLeadingSpace r -> spaces1 (ws ++ r) = Some r.
Proof.
  intros Hl Hws Hr. destruct ws as [|c ws]; [discriminate|].
  simpl in *. apply andb_true_iff in Hws as [Hc Hws]. rewrite Hc.
  rewrite skipSpaces_app; auto.
Qed.

Lemma spaces1_split s r :
  spaces1 s = Some r ->
  exists ws, s = ws ++ r /\ (0 <? length ws)%nat = true
             /\ forallb isSpace ws = true.
Proof.
  unfold spaces1. destruct s as [|c s]; [discriminate|].
  destruct (isSpace c) eqn:Hc; [|discriminate]. intros [= <-].
  destruct (skipSpaces_split s) as (ws & E & Hws & _).
  exists (c :: ws). simpl. rewrite Hc, Hws. split; [congruence|auto].
Qed.

Lemma digits12_app d r :
  ((length d =? 1)%nat || (length d =? 2)%nat) = true ->
  forallb isDigit d = true ->
  match r with c :: _ => isDigit c = false | [] => True end ->
  digits12 (d ++ r) = Some (d, r).
Proof.
  intros Hl Hd Hr.
  destruct d as [|a [|b [|? ?]]]; try discriminate; simpl in *.
  - apply andb_true_iff in Hd as [Ha _].
    destruct r as [|c r]; rewrite Ha; [reflexivity|]. rewrite Hr. reflexivity.
  - apply andb_true_iff in Hd as [Ha Hd]. apply andb_true_iff in Hd as [Hb _].
    rewrite Ha, Hb. reflexivity.
Qed.

Lemma digits12_split s d r :
  digits12 s = Some (d, r) ->
  s = d ++ r /\ ((length d =? 1)%nat || (length d =? 2)%nat) = true
  /\ forallb isDigit d = true.
Proof.
  unfold digits12. destruct s as [|a [|b s]]; try discriminate.
  - destruct (isDigit a) eqn:Ha; [|discriminate]. intros [= <- <-].
    simpl. rewrite Ha. auto.
  - destruct (isDigit a) eqn:Ha; [|discriminate].
    destruct (isDigit b) eqn:Hb; intros [= <- <-]; simpl; rewrite Ha, ?Hb; auto.
Qed.

Lemma clockTime_app h m s r :
  (length h =? 2)%nat = true -> forallb isDigit h = true ->
  (length m =? 2)%nat = true -> forallb isDigit m = true ->
  (length s =? 2)%nat = true -> forallb isDigit s = true ->
  clockTime (h ++ js ":" ++ m ++ js ":" ++ s ++ r)
  = Some (h ++ js ":" ++ m ++ js ":" ++ s, r).
Proof.
  intros Hlh Hh Hlm Hm Hls Hs.
  destruct h as [|h1 [|h2 [|? ?]]]; try discriminate.
  destruct m as [|m1 [|m2 [|? ?]]]; try discriminate.
  destruct s as [|s1 [|s2 [|? ?]]]; try discriminate.
  simpl in Hh, Hm, Hs.
  repeat match goal with
         | H : _ && _ = true |- _ => apply andb_true_iff in H as [? ?]
         end.
  change (js ":") with [58%N]. cbn [app clockTime].
  repeat match goal with
         | H : isDigit ?c = true |- _ => rewrite H; clear H
         end.
  reflexivity.
Qed.

Lemma clockTime_split s t r :
  clockTime s = Some (t, r) ->
  exists h m x,
    t = h ++ js ":" ++ m ++ js ":" ++ x /\ s = t ++ r
    /\ (length h =? 2)%nat = true /\ forallb isDigit h = true
    /\ (length m =? 2)%nat = true /\ forallb isDigit m = true
    /\ (length x =? 2)%nat = true /\ forallb isDigit x = true.
Proof.
  unfold clockTime.
  destruct s as [|h1 [|h2 [|c1 [|m1 [|m2 [|c2 [|s1 [|s2 s]]]]]]]]; try discriminate.
  destruct (_ && _) eqn:E; [|discriminate]. intros [= <- <-].
  repeat match goal with
         | H : _ && _ = true |- _ => apply andb_true_iff in H as [H ?]
         end.
  repeat match goal with
         | H : (_ =? _)%N = true |- _ => apply N.eqb_eq in H; subst
         end.
  exists [h1; h2], [m1; m2], [s1; s2]. simpl.
  repeat match goal with
         | H : isDigit _ = true |- _ => rewrite H
         end.
  auto 10.
Qed.

(** The split of a string the tail [\s+(\d{1,2})\s+(\d{2}:\d{2}:\d{2})]
    applies to. *)
Lemma dayAndTime_app g1 d g2 h m s r :
  (0 <? length g1)%nat = true -> forallb isSpace g1 = true ->
  ((length d =? 1)%nat || (length d =? 2)%nat) = true ->
  forallb isDigit d = true ->
  (0 <? length g2)%nat = true -> forallb isSpace g2 = true ->
  (length h =? 2)%nat = true -> forallb isDigit h = true ->
  (length m =? 2)%nat = true -> forallb isDigit m = true ->
  (length s =? 2)%nat = true -> forallb isDigit s = true ->
  dayAndTime (g1 ++ d ++ g2 ++ h ++ js ":" ++ m ++ js ":" ++ s ++ r)
  = Some (g1, d, g2, h ++ js ":" ++ m ++ js ":" ++ s).
Proof.
  intros Hg1 Sg1 Hd Dd Hg2 Sg2 Hh Dh Hm Dm Hs Ds.
  unfold dayAndTime.
  assert (Nh : noLeadingSpace (h ++ js ":" ++ m ++ js ":" ++ s ++ r)).
  { destruct h as [|c h]; [discriminate|]. simpl in *.
    apply andb_true_iff in Dh as [Dc _]. apply digit_not_space, Dc. }
  assert (Nd : noLeadingSpace (d ++ g2 ++ h ++ js ":" ++ m ++ js ":" ++ s ++ r)).
  { destruct d as [|c d]; [discriminate|]. simpl in *.
    apply andb_true_iff in Dd as [Dc _]. apply digit_not_space, Dc. }
  rewrite spaces1_app by assumption.
  rewrite digits12_app; [|assumption|assumption|].
  2:{ destruct g2 as [|c g2]; [discriminate|]. simpl in *.
      apply andb_true_iff in Sg2 as [Sc _]. apply space_not_digit, Sc. }
  rewrite spaces1_app by assumption.
  rewrite clockTime_app by assumption.
  rewrite !length_app.
  replace (length g1 + _ - _)%nat with (length g1) by lia.
  replace (length g2 + _ - _)%nat with (length g2) by lia.
  rewrite !take_app_length. reflexivity.
Qed.

Lemma dayAndTime_split x g1 d g2 t :
  dayAndTime x = Some (g1, d, g2, t) ->
  exists h m s r,
    x = g1 ++ d ++ g2 ++ h ++ js ":" ++ m ++ js ":" ++ s ++ r
    /\ t = h ++ js ":" ++ m ++ js ":" ++ s
    /\ (0 <? length g1)%nat = true /\ forallb isSpace g1 = true
    /\ ((length d =? 1)%nat || (length d =? 2)%nat) = true
    /\ forallb isDigit d = true
    /\ (0 <? length g2)%nat = true /\ forallb isSpace g2 = true
    /\ (length h =? 2)%nat = true /\ forallb isDigit h = true
    /\ (length m =? 2)%nat = true /\ forallb isDigit m = true
    /\ (length s =? 2)%nat = true /\ forallb isDigit s = true.
Proof.
  unfold dayAndTime.
  destruct (spaces1 x) as [r1|] eqn:E1; [|discriminate].
  destruct (digits12 r1) as [[d' r2]|] eqn:E2; [|discriminate].
  destruct (spaces1 r2) as [r3|] eqn:E3; [|discriminate].
  destruct (clockTime r3) as [[t' r]|] eqn:E4; [|discriminate].
  intros [= <- <- <- <-].
  apply spaces1_split in E1 as (w1 & -> & L1 & S1).
  apply digits12_split in E2 as (-> & Ld & Dd).
  apply spaces1_split in E3 as (w2 & -> & L2 & S2).
  apply clockTime_split in E4 as (h & m & s & -> & -> & ?).
  rewrite !length_app.
  replace (length w1 + _ - _)%nat with (length w1) by lia.
  replace (length w2 + _ - _)%nat with (length w2) by lia.
  rewrite !take_app_length.
  exists h, m, s, r. rewrite <- !app_assoc. tauto.
Qed.

Lemma wellFormed_parts p :
  wellFormed p = true ->
  ((length (monthStr p) =? 3)%nat = true /\ forallb isLetter (monthStr p) = true)
  /\ ((0 <? length (gap1 p))%nat = true /\ forallb isSpace (gap1 p) = true)
  /\ (((length (dayStr p) =? 1)%nat || (length (dayStr p) =? 2)%nat) = true
      /\ forallb isDigit (dayStr p) = true)
  /\ ((0 <? length (gap2 p))%nat = true /\ forallb isSpace (gap2 p) = true)
  /\ ((length (hh p) =? 2)%nat = true /\ forallb isDigit (hh p) = true)
  /\ ((length (mm p) =? 2)%nat = true /\ forallb isDigit (mm p) = true)
  /\ ((length (ss p) =? 2)%nat = true /\ forallb isDigit (ss p) = true).
Proof.
  unfold wellFormed. intros H.
  repeat match goal with
         | H : _ && _ = true |- _ => apply andb_true_iff in H as [H ?]
         end.
  tauto.
Qed.

Lemma matchLogPrefix_complete p :
  wellFormed p = true ->
  matchLogPrefix (lineOf p)
  = Some (monthStr p, dayStr p, hh p ++ js ":" ++ mm p ++ js ":" ++ ss p).
Proof.
  intros H. apply wellFormed_parts in H
    as ((Lm & Am) & (L1 & S1) & (Ld & Dd) & (L2 & S2) & (Lh & Dh) & (Lmi & Dmi) & (Ls & Ds)).
  unfold lineOf. destruct p as [mo g1 d g2 h m s r].
  cbn [monthStr gap1 dayStr gap2 hh mm ss tail] in *.
  destruct mo as [|a [|b [|c [|? ?]]]]; try discriminate.
  cbn [forallb] in Am.
  repeat match goal with
         | H : _ && _ = true |- _ => apply andb_true_iff in H as [? ?]
         end.
  cbn [app matchLogPrefix].
  repeat match goal with
         | H : isLetter ?c = true |- _ => rewrite H; clear H
         end.
  cbn [andb]. rewrite dayAndTime_app by assumption. reflexivity.
Qed.

Lemma matchLogPrefix_sound line mo d t :
  matchLogPrefix line = Some (mo, d, t) ->
  exists p, wellFormed p = true /\ line = lineOf p /\ monthStr p = mo
            /\ dayStr p = d /\ t = hh p ++ js ":" ++ mm p ++ js ":" ++ ss p.
Proof.
  unfold matchLogPrefix.
  destruct line as [|a [|b [|c x]]]; try discriminate.
  destruct (isLetter a && isLetter b && isLetter c) eqn:El; [|discriminate].
  destruct (dayAndTime x) as [[[[g1 d'] g2] t']|] eqn:E; [|discriminate].
  intros [= <- <- <-].
  apply dayAndTime_split in E
    as (h & m & s & r & -> & -> & L1 & S1 & Ld & Dd & L2 & S2 & Lh & Dh & Lm & Dm & Ls & Ds).
  exists {| monthStr := [a; b; c]; gap1 := g1; dayStr := d'; gap2 := g2;
            hh := h; mm := m; ss := s; tail := r |}.
  unfold wellFormed, lineOf. simpl.
  apply andb_true_iff in El as [El Hc]. apply andb_true_iff in El as [Ha Hb].
  rewrite Ha, Hb, Hc, L1, S1, Ld, Dd, L2, S2, Lh, Dh, Lm, Dm, Ls, Ds.
  auto.
Qed.

Lemma lookup_months_In mo :
  In mo (map fst months) <-> exists i, lookup mo months = Some i.
Proof.
  unfold months. simpl. split.
  - intros H. repeat (destruct H as [<-|H]; [eexists; reflexivity|]). destruct H.
  - intros [i H].
    repeat match type of H with
           | (if decide (?k = mo) then _ else _) = _ =>
               destruct (decide (k = mo)) as [<-|?]; [tauto|]
           end.
    discriminate.
Qed.

Lemma splitOn_clock h m s :
  (length h =? 2)%nat = true -> forallb isDigit h = true ->
  (length m =? 2)%nat = true -> forallb isDigit m = true ->
  (length s =? 2)%nat = true -> forallb isDigit s = true ->
  splitOn 58%N (h ++ js ":" ++ m ++ js ":" ++ s) = [h; m; s].
Proof.
  intros Hlh Hh Hlm Hm Hls Hs.
  destruct h as [|h1 [|h2 [|? ?]]]; try discriminate.
  destruct m as [|m1 [|m2 [|? ?]]]; try discriminate.
  destruct s as [|s1 [|s2 [|? ?]]]; try discriminate.
  simpl in Hh, Hm, Hs.
  repeat match goal with
         | H : _ && _ = true |- _ => apply andb_true_iff in H as [? ?]
         end.
  assert (Hne : forall c, isDigit c = true -> (c =? 58)%N = false).
  { intros c Hc. unfold isDigit in Hc. apply andb_true_iff in Hc as [_ Hc].
    apply N.leb_le in Hc. apply N.eqb_neq. lia. }
  change (js ":") with [58%N]. cbn [app splitOn].
  change (58 =? 58)%N with true.
  rewrite (Hne h1), (Hne h2), (Hne m1), (Hne m2), (Hne s1), (Hne s2) by assumption.
  reflexivity.
Qed.

(** The fields of a line that is cut as [p]. *)
Lemma logFields_lineOf p i :
  wellFormed p = true -> lookup (monthStr p) months = Some i ->
  logFields (lineOf p)
  = Some {| monthIndex := i; day := Number (dayStr p);
            hours := Number (hh p); minutes := Number (mm p);
            seconds := Number (ss p) |}.
Proof.
  intros H Hi. unfold logFields. rewrite matchLogPrefix_complete by exact H.
  apply wellFormed_parts in H as (_ & _ & _ & _ & (Lh & Dh) & (Lm & Dm) & (Ls & Ds)).
  rewrite Hi, splitOn_clock by assumption. reflexivity.
Qed.

Lemma logFields_recognised line :
  (exists f, logFields line = Some f) <-> recognised line.
Proof.
  unfold recognised. split.
  - intros [f H]. unfold logFields in H.
    destruct (matchLogPrefix line) as [[[mo d] t]|] eqn:E; [|discriminate].
    destruct (lookup mo months) as [i|] eqn:El; [|discriminate].
    apply matchLogPrefix_sound in E as (p & Hw & -> & <- & _).
    exists p. split; [exact Hw|]. split; [reflexivity|].
    apply lookup_months_In. eauto.
  - intros (p & Hw & -> & Hin). apply lookup_months_In in Hin as [i Hi].
    eexists. apply logFields_lineOf; eauto.
Qed.

End MatchFacts.

Module LogFacts.
Import JSDate JSString JSDateText LogProcessor LogSpec DateFacts TextFacts MatchFacts.

Lemma bind_run {A B} (c : IO A) (k : A -> IO B) w :
  (c ≫= k) w
  = match c w with
    | (Return a, w') => k a w'
    | (Throw m, w') => (Throw m, w')
    end.
Proof. reflexivity. Qed.

Lemma now_run w : now w = (Return (clock w 0%nat), tick w).
Proof. reflexivity. Qed.

Lemma eventTime_code year f idx :
  setUTCMilliseconds
    (setUTCHours
       (UTC year (monthIndex f) (day f) (hours f) (minutes f) (seconds f))
       (getUTCHours
          (UTC year (monthIndex f) (day f) (hours f) (minutes f) (seconds f))
        - 7))
    idx
  = eventTime year f + idx.
Proof.
  unfold eventTime.
  set (u := UTC _ _ _ _ _ _).
  replace (getUTCHours u - 7) with (getUTCHours u + (-7)) by lia.
  rewrite setUTCHours_shift, setUTCMilliseconds_eq.
  pose proof (UTC_whole_seconds year (monthIndex f) (day f) (hours f)
                (minutes f) (seconds f)) as H0. fold u in H0.
  assert (msFromTime (u + -7 * msPerHour) = 0).
  { unfold msFromTime, msPerHour, msPerSecond in *.
    Z.div_mod_to_equations; lia. }
  lia.
Qed.

Lemma eventTime_whole_seconds year f : msFromTime (eventTime year f) = 0.
Proof.
  unfold eventTime.
  pose proof (UTC_whole_seconds year (monthIndex f) (day f) (hours f)
                (minutes f) (seconds f)) as H0.
  unfold msFromTime, msPerHour, msPerSecond in *.
  Z.div_mod_to_equations; lia.
Qed.

Lemma clockAdvanced_refl w : clockAdvanced 0 w w.
Proof. unfold clockAdvanced. auto 10. Qed.

Lemma clockAdvanced_tick n w w' :
  clockAdvanced n (tick w) w' -> clockAdvanced (S n) w w'.
Proof.
  unfold clockAdvanced. intros (Hc & ? & ? & ? & ? & ? & ? & ?).
  split; [|auto 10]. intros k. rewrite Hc. simpl. unfold later.
  f_equal; lia.
Qed.

Lemma clock_tick w : clock (tick w) = later 1 (clock w).
Proof. reflexivity. Qed.

Lemma later_later a b clk k : later a (later b clk) k = later (b + a) clk k.
Proof. unfold later. f_equal; lia. Qed.

Section Host.
Variable tza : Z -> Z.

Lemma getTimestampFromLog_none line idx w :
  logFields line = None ->
  getTimestampFromLog tza line idx w = (Return None, w).
Proof.
  unfold logFields, getTimestampFromLog.
  destruct (matchLogPrefix line) as [[[mo d] t]|]; [|reflexivity].
  destruct (lookup mo months); [discriminate|reflexivity].
Qed.

Lemma getTimestampFromLog_some line idx f w :
  logFields line = Some f ->
  getTimestampFromLog tza line idx w
  = (Return (Some (toISOString
                     (eventTime (getFullYear tza (clock w 0%nat)) f + idx))),
     tick w).
Proof.
  unfold logFields, getTimestampFromLog.
  destruct (matchLogPrefix line) as [[[mo d] t]|]; [|discriminate].
  destruct (lookup mo months) as [i|]; [|discriminate].
  intros [= <-]. rewrite bind_run, now_run.
  cbv zeta. rewrite <- eventTime_code. reflexivity.
Qed.

Lemma processLine_none deviceId line sc fe w :
  logFields line = None ->
  let ts := toISOString (clock w 0%nat) in
  processLine tza deviceId line sc fe w
  = (Return (sc, pushEntry (bucketOf tza ts) (entryOf deviceId line ts) fe),
     tick w).
Proof.
  intros H. unfold processLine.
  rewrite bind_run, getTimestampFromLog_none by exact H. reflexivity.
Qed.

Lemma processLine_some deviceId line f sc fe w :
  logFields line = Some f ->
  let k := secondKeyOf
             (toISOString (eventTime (getFullYear tza (clock w 0%nat)) f)) in
  let c := default 0 (sc !! k) in
  let ts := toISOString (eventTime (getFullYear tza (clock w 1%nat)) f + c) in
  processLine tza deviceId line sc fe w
  = (Return (<[k := c + 1]> sc,
             pushEntry (bucketOf tza ts) (entryOf deviceId line ts) fe),
     tick (tick w)).
Proof.
  intros H. unfold processLine.
  rewrite bind_run, (getTimestampFromLog_some _ _ _ _ H).
  rewrite Z.add_0_r.
  rewrite bind_run. cbv zeta.
  rewrite bind_run, (getTimestampFromLog_some _ _ _ _ H).
  unfold mret, IO_ret, ret. cbn [fst snd].
  change (clock (tick w) 0%nat) with (clock w 1%nat).
  unfold secondKeyOf, bucketOf, entryOf.
  reflexivity.
Qed.

Lemma groupEntries_cons deviceId line ts es fe :
  groupEntries tza (entryOf deviceId line ts :: es) fe
  = groupEntries tza es
      (pushEntry (bucketOf tza ts) (entryOf deviceId line ts) fe).
Proof. reflexivity. Qed.

(** The loop pushes one entry per line, in input order, with the
    timestamps [lineStamps] lists. *)
Lemma processLines_run deviceId lines : forall sc fe w,
  exists n w',
    processLines tza deviceId lines sc fe w
    = (Return (groupEntries tza
                 (zip_with (entryOf deviceId) lines
                           (lineStamps tza (clock w) sc lines)) fe), w')
    /\ clockAdvanced n w w'.
Proof.
  induction lines as [|line rest IH]; intros sc fe w.
  - exists 0%nat, w. split; [reflexivity|apply clockAdvanced_refl].
  - cbn [processLines lineStamps]. rewrite bind_run.
    destruct (logFields line) as [f|] eqn:E.
    + rewrite (processLine_some _ _ _ _ _ _ E). cbv zeta. cbn [fst snd].
      edestruct IH as (n & w' & Hrun & Hadv). rewrite Hrun.
      exists (S (S n)), w'. split.
      * cbn [zip_with]. rewrite groupEntries_cons.
        change (clock (tick (tick w))) with (later 2 (clock w)).
        reflexivity.
      * apply clockAdvanced_tick, clockAdvanced_tick, Hadv.
    + rewrite (processLine_none _ _ _ _ _ E). cbv zeta. cbn [fst snd].
      edestruct IH as (n & w' & Hrun & Hadv). rewrite Hrun.
      exists (S n), w'. split.
      * cbn [zip_with]. rewrite groupEntries_cons.
        change (clock (tick w)) with (later 1 (clock w)).
        reflexivity.
      * apply clockAdvanced_tick, Hadv.
Qed.

End Host.

End LogFacts.

Module SeqFacts.
Import JSDate JSString JSDateText LogProcessor LogSpec DateFacts TextFacts LogFacts.

Lemma lookup_cons_0 {A} (x : A) l : (x :: l) !! 0%nat = Some x.
Proof. reflexivity. Qed.

Lemma lookup_cons_S {A} (x : A) l i : (x :: l) !! S i = l !! i.
Proof. reflexivity. Qed.

Lemma seenBefore_0 k keys : seenBefore k 0 keys = 0.
Proof. reflexivity. Qed.

Lemma seenBefore_S k i o keys :
  seenBefore k (S i) (o :: keys)
  = (if bool_decide (o = Some k) then 1 else 0) + seenBefore k i keys.
Proof.
  unfold seenBefore. cbn [take List.filter].
  destruct (bool_decide (o = Some k)); cbn [length]; lia.
Qed.

Lemma seenBefore_replicate k i n :
  (i <= n)%nat -> seenBefore k i (replicate n (Some k)) = Z.of_nat i.
Proof.
  revert n. induction i as [|i IH]; intros n Hn; [reflexivity|].
  destruct n as [|n]; [lia|]. cbn [replicate]. rewrite seenBefore_S.
  rewrite bool_decide_eq_true_2 by reflexivity. rewrite IH by lia. lia.
Qed.

Section Host.
Variable tza : Z -> Z.

Lemma lineStamps_length lines : forall clk sc,
  length (lineStamps tza clk sc lines) = length lines.
Proof.
  induction lines as [|line rest IH]; intros clk sc; [reflexivity|].
  cbn [lineStamps]. destruct (logFields line); cbn [length]; rewrite IH;
    reflexivity.
Qed.

Lemma lineKeys_length lines : forall clk,
  length (lineKeys tza clk lines) = length lines.
Proof.
  induction lines as [|line rest IH]; intros clk; [reflexivity|].
  cbn [lineKeys]. destruct (logFields line); cbn [length]; rewrite IH;
    reflexivity.
Qed.

(** The timestamp of the line at position [i]: the substitute time for a
    line without a timestamp; else the event time plus the counter of its
    second-key, which is the counter the loop started with plus the
    number of earlier lines observed under that key. *)
Lemma lineStamps_lookup lines : forall clk sc i line,
  lines !! i = Some line ->
  match logFields line with
  | None =>
      lineKeys tza clk lines !! i = Some None
      /\ exists m, lineStamps tza clk sc lines !! i
                   = Some (toISOString (clk m))
  | Some f =>
      exists m k,
        k = secondKeyOf (toISOString (eventTime (getFullYear tza (clk m)) f))
        /\ lineKeys tza clk lines !! i = Some (Some k)
        /\ lineStamps tza clk sc lines !! i
           = Some (toISOString
                     (eventTime (getFullYear tza (clk (S m))) f
                      + (default 0 (sc !! k)
                         + seenBefore k i (lineKeys tza clk lines))))
  end.
Proof.
  induction lines as [|l0 rest IH]; intros clk sc i line Hi; [discriminate|].
  destruct i as [|i].
  - injection Hi as ->. cbn [lineKeys lineStamps].
    destruct (logFields line) as [f|] eqn:E.
    + exists 0%nat. eexists. split; [reflexivity|].
      rewrite !lookup_cons_0. split; [reflexivity|].
      rewrite seenBefore_0, Z.add_0_r. reflexivity.
    + rewrite !lookup_cons_0. split; [reflexivity|]. exists 0%nat. reflexivity.
  - rewrite lookup_cons_S in Hi. cbn [lineKeys lineStamps].
    destruct (logFields l0) as [f0|] eqn:E0.
    + set (k0 := secondKeyOf _).
      specialize (IH (later 2 clk) (<[k0 := default 0 (sc !! k0) + 1]> sc) i line Hi).
      destruct (logFields line) as [f|] eqn:E.
      * destruct IH as (m & k & Hk & Hkeys & Hst).
        exists (2 + m)%nat, k. split; [exact Hk|].
        rewrite !lookup_cons_S. split; [exact Hkeys|].
        rewrite Hst. do 3 f_equal.
        rewrite seenBefore_S.
        destruct (decide (k0 = k)) as [->|Hne].
        -- rewrite lookup_insert_eq. rewrite bool_decide_eq_true_2 by reflexivity.
           simpl default. lia.
        -- rewrite lookup_insert_ne by exact Hne.
           rewrite bool_decide_eq_false_2 by congruence. lia.
      * destruct IH as (Hkeys & m & Hst). rewrite !lookup_cons_S.
        split; [exact Hkeys|]. exists (2 + m)%nat. exact Hst.
    + specialize (IH (later 1 clk) sc i line Hi).
      destruct (logFields line) as [f|] eqn:E.
      * destruct IH as (m & k & Hk & Hkeys & Hst).
        exists (1 + m)%nat, k. split; [exact Hk|].
        rewrite !lookup_cons_S. split; [exact Hkeys|].
        rewrite Hst, seenBefore_S.
        rewrite bool_decide_eq_false_2 by congruence.
        rewrite Z.add_0_l. reflexivity.
      * destruct IH as (Hkeys & m & Hst). rewrite !lookup_cons_S.
        split; [exact Hkeys|]. exists (1 + m)%nat. exact Hst.
Qed.

End Host.

(** A time that falls on a whole second prints with the hint [h < 1000] as
    its millisecond field. *)
Lemma iso_whole_second_plus t h :
  msFromTime t = 0 -> 0 <= h <= 999 ->
  toISOString (t + h) = isoSeconds t ++ js "." ++ fixedDigits 3 h ++ js "Z".
Proof.
  intros Ht Hh. unfold toISOString.
  rewrite isoSeconds_same_second by assumption.
  replace (msFromTime (t + h)) with h; [reflexivity|].
  unfold msFromTime, msPerSecond in *. Z.div_mod_to_equations; lia.
Qed.

(** A hint of 1000 or more carries into the seconds. *)
Lemma iso_overflow year f h :
  0 <= h ->
  toISOString (eventTime year f + h)
  = isoSeconds (eventTime year f + 1000 * (h / 1000))
    ++ js "." ++ fixedDigits 3 (h mod 1000) ++ js "Z".
Proof.
  intros Hh. pose proof (eventTime_whole_seconds year f) as H0.
  replace (eventTime year f + h)
    with (eventTime year f + 1000 * (h / 1000) + h mod 1000)
    by (Z.div_mod_to_equations; lia).
  apply iso_whole_second_plus.
  - unfold msFromTime, msPerSecond in *. Z.div_mod_to_equations; lia.
  - Z.div_mod_to_equations; lia.
Qed.


End SeqFacts.

Module CallFacts.
Import JSDate JSString JSDateText FilesystemManager LogProcessor LogSpec LogFacts SeqFacts.

Lemma writeAll_run fe : forall w,
  writeAll fe w = (Return tt, setDisk (written fe (disk w)) w).
Proof.
  induction fe as [|[f es] rest IH]; intros w.
  - destruct w; reflexivity.
  - cbn [writeAll]. rewrite bind_run. unfold appendFile at 1, modify.
    rewrite IH. reflexivity.
Qed.

(** Grouping keeps every entry, once. *)
Lemma pushEntry_concat f e fe :
  concat (pushEntry f e fe).*2 ≡ₚ concat fe.*2 ++ [e].
Proof.
  induction fe as [|[g es] rest IH]; cbn [pushEntry].
  - reflexivity.
  - destruct (decide (g = f)); cbn [fmap list_fmap concat snd].
    + rewrite <- !app_assoc. apply Permutation_app_head, Permutation_app_comm.
    + rewrite IH, app_assoc. reflexivity.
Qed.

Lemma pushEntry_names f e fe :
  NoDup fe.*1 -> NoDup (pushEntry f e fe).*1.
Proof.
  assert (Hin : forall g fe, g ∈ (pushEntry f e fe).*1 -> g = f \/ g ∈ fe.*1).
  { intros g fe'. induction fe' as [|[g' es] rest IH]; cbn [pushEntry].
    - cbn. intros H. apply list_elem_of_singleton in H. auto.
    - destruct (decide (g' = f)); cbn [fmap list_fmap fst]; intros H.
      + auto.
      + apply elem_of_cons in H as [->|H]; [right; left|].
        destruct (IH H) as [?|?]; [auto|right; right; assumption]. }
  induction fe as [|[g es] rest IH]; cbn [pushEntry]; intros Hnd.
  - cbn. apply NoDup_singleton.
  - destruct (decide (g = f)); cbn [fmap list_fmap fst] in *.
    + exact Hnd.
    + apply NoDup_cons in Hnd as [Hg Hnd]. apply NoDup_cons. split; [|auto].
      intros H. destruct (Hin _ _ H); [congruence|contradiction].
Qed.

Section Host.
Variable tza : Z -> Z.

Lemma groupEntries_step e es fe :
  groupEntries tza (e :: es) fe
  = groupEntries tza es (pushEntry (bucketOf tza (log_timestamp e)) e fe).
Proof. reflexivity. Qed.

Lemma groupEntries_concat es : forall fe,
  concat (groupEntries tza es fe).*2 ≡ₚ concat fe.*2 ++ es.
Proof.
  induction es as [|e es IH]; intros fe.
  - cbn [groupEntries fold_left]. rewrite app_nil_r. reflexivity.
  - rewrite groupEntries_step, IH, pushEntry_concat.
    rewrite <- app_assoc. reflexivity.
Qed.

Lemma groupEntries_names es : forall fe,
  NoDup fe.*1 -> NoDup (groupEntries tza es fe).*1.
Proof.
  induction es as [|e es IH]; intros fe H.
  - exact H.
  - rewrite groupEntries_step. apply IH, pushEntry_names, H.
Qed.

(** One call of the ingestion entry point: the request is tracked, the
    loop stamps the non-empty lines, and each group is appended to its
    bucket file. *)
Lemma processLogContentLineByLine_run deviceId logContent w :
  let lines := nonEmptyLines logContent in
  let stamps := lineStamps tza (later 1 (clock w)) ∅ lines in
  let fe := groupEntries tza (zip_with (entryOf deviceId) lines stamps) [] in
  exists w',
    processLogContentLineByLine tza deviceId logContent w
    = (Return (if (length lines =? 0)%nat
               then {| result_success := false; linesProcessed := 0;
                       filesWritten := 0 |}
               else {| result_success := true;
                       linesProcessed := Z.of_nat (length lines);
                       filesWritten := Z.of_nat (length fe) |}), w')
    /\ disk w' = written fe (disk w)
    /\ recentRequests w'
       = List.filter (fun timestamp => clock w 0%nat - 5 * 60 * 1000 <? timestamp)
                     (recentRequests w ++ [clock w 0%nat])
    /\ timestampCounters w' = timestampCounters w
    /\ isProcessing w' = isProcessing w /\ effects w' = effects w.
Proof.
  intros lines stamps fe. unfold processLogContentLineByLine.
  rewrite bind_run. unfold trackRequest at 1. rewrite bind_run, now_run.
  unfold modify at 1. fold lines.
  set (w1 := setRecentRequests _ (tick w)).
  destruct (length lines =? 0)%nat eqn:El.
  - exists w1. apply Nat.eqb_eq in El.
    assert (lines = []) as Hl by (destruct lines; [reflexivity|discriminate]).
    subst fe stamps. rewrite Hl. split; [reflexivity|]. cbn. auto 10.
  - rewrite bind_run.
    destruct (processLines_run tza deviceId lines ∅ [] w1)
      as (n & w2 & Hrun & Hadv).
    rewrite Hrun. rewrite bind_run, writeAll_run.
    change (clock w1) with (later 1 (clock w)) in *.
    fold stamps fe. eexists. split; [reflexivity|].
    destruct Hadv as (_ & Hd & _ & _ & Htc & Hrr & Hip & Hef).
    cbn [disk setDisk recentRequests timestampCounters isProcessing effects].
    rewrite Hd, Hrr, Htc, Hip, Hef. auto 10.
Qed.

End Host.

End CallFacts.

Module LegacyFacts.
Import JSDate JSString JSDateText LogProcessor LogSpec Samples LogFacts SeqFacts.

Section Host.
Variable tza : Z -> Z.
Variable dateParse : jsstring -> option Z.

Lemma parseAndEnhanceTimestamp_run msg s b w :
  matchLegacyPrefix msg = Some s ->
  dateParse (s ++ js " " ++ ofInteger (getFullYear tza (clock w 0%nat))) = Some b ->
  let k := formatTimestampKey b in
  let c := default 0 (timestampCounters w !! k) + 1 in
  exists w',
    parseAndEnhanceTimestamp tza dateParse msg w
    = (Return {| baseTimestamp := b;
                 enhancedTimestamp := toISOString (b + c);
                 hourKey := getHourKey tza b |}, w')
    /\ (forall n, clock w' n = clock w (2 + n)%nat)
    /\ timestampCounters w'
       = filter (fun kv => ltb kv.1 (formatTimestampKey
                                       (clock w 1%nat - 60 * 60 * 1000)) = false)
                (<[k := c]> (timestampCounters w)).
Proof.
  intros Hm Hp k c. unfold parseAndEnhanceTimestamp. rewrite Hm.
  rewrite bind_run, now_run. cbv zeta. rewrite Hp.
  rewrite bind_run. unfold gets at 1.
  rewrite bind_run. unfold modify at 1.
  rewrite bind_run. unfold cleanOldCounters.
  rewrite bind_run, now_run. unfold modify at 1.
  eexists. split; [reflexivity|]. split; [reflexivity|]. reflexivity.
Qed.

Lemma parseAndEnhanceTimestamp_no_prefix msg w :
  matchLegacyPrefix msg = None ->
  parseAndEnhanceTimestamp tza dateParse msg w
  = (Throw (js "Invalid log format: timestamp not found"), w).
Proof. intros H. unfold parseAndEnhanceTimestamp. rewrite H. reflexivity. Qed.

Lemma parseAndEnhanceTimestamp_no_date msg s w :
  matchLegacyPrefix msg = Some s ->
  dateParse (s ++ js " " ++ ofInteger (getFullYear tza (clock w 0%nat))) = None ->
  parseAndEnhanceTimestamp tza dateParse msg w
  = (Throw (js "Invalid timestamp format"), tick w).
Proof.
  intros Hm Hp. unfold parseAndEnhanceTimestamp. rewrite Hm.
  rewrite bind_run, now_run. cbv zeta. rewrite Hp. reflexivity.
Qed.

Lemma requestKeys_ext msgs : forall clk clk',
  (forall n, clk n = clk' n) ->
  requestKeys tza dateParse clk msgs = requestKeys tza dateParse clk' msgs.
Proof.
  induction msgs as [|msg rest IH]; intros clk clk' H; [reflexivity|].
  cbn [requestKeys]. rewrite <- (H 0%nat).
  destruct (matchLegacyPrefix msg) as [s|]; [destruct (dateParse _)|];
    f_equal; apply IH; intros n; unfold later; apply H.
Qed.

(** Successive requests: a refused message is answered with an error and
    leaves the counters as they are; a message of a key whose counter is
    kept is given the counter the map held for the key at the start, plus
    one, plus the number of earlier messages of that key. *)
Lemma parseRequests_counters msgs : forall w,
  let keys := requestKeys tza dateParse (clock w) msgs in
  exists cs w',
    parseRequests tza dateParse msgs w = (Return cs, w')
    /\ length cs = length msgs
    /\ (forall i, keys !! i = Some None -> exists m, cs !! i = Some (Throw m))
    /\ forall i k, keys !! i = Some (Some k) ->
         (forall n, retained k (clock w n)) ->
         exists r,
           cs !! i = Some (Return r)
           /\ formatTimestampKey (baseTimestamp r) = k
           /\ enhancedTimestamp r
              = toISOString (baseTimestamp r
                             + (default 0 (timestampCounters w !! k) + 1
                                + seenBefore k i keys)).
Proof.
  induction msgs as [|msg rest IH]; intros w keys.
  - exists [], w. split; [reflexivity|]. split; [reflexivity|].
    split; intros i; discriminate.
  - subst keys. cbn [parseRequests requestKeys].
    rewrite bind_run. unfold tryCatch at 1. rewrite bind_run.
    destruct (matchLegacyPrefix msg) as [s|] eqn:Hm;
      [destruct (dateParse _) as [b|] eqn:Hp|].
    + (* the message is given a counter *)
      destruct (parseAndEnhanceTimestamp_run msg s b w Hm Hp)
        as (w1 & -> & Hclk & Hcnt).
      set (k0 := formatTimestampKey b) in *.
      destruct (IH w1) as (cs & w' & Hrun & Hlen & Hno & Hyes).
      rewrite (requestKeys_ext rest (clock w1) (later 2 (clock w)) Hclk)
        in Hno, Hyes.
      unfold mret at 1, IO_ret, ret. cbv beta iota.
      rewrite bind_run, Hrun.
      eexists _, w'. split; [reflexivity|]. split; [cbn; lia|]. split.
      * intros [|i] Hi; [discriminate|]. apply (Hno i Hi).
      * intros [|i] k Hi Hret.
        -- injection Hi as <-. eexists. split; [reflexivity|].
           cbn [enhancedTimestamp baseTimestamp]. split; [reflexivity|].
           rewrite seenBefore_0, Z.add_0_r. reflexivity.
        -- rewrite lookup_cons_S in Hi.
           destruct (Hyes i k Hi) as (r & Hr & Hkr & Hst).
           { intros n. rewrite Hclk. apply Hret. }
           exists r. split; [exact Hr|]. split; [exact Hkr|].
           rewrite Hst. do 2 f_equal. rewrite seenBefore_S.
           assert (Hk1 : timestampCounters w1 !! k
                         = <[k0 := default 0 (timestampCounters w !! k0) + 1]>
                             (timestampCounters w) !! k).
           { rewrite Hcnt.
             destruct (<[k0 := default 0 (timestampCounters w !! k0) + 1]>
                         (timestampCounters w) !! k) as [c|] eqn:E.
             - apply map_lookup_filter_Some_2; [exact E|apply (Hret 1%nat)].
             - apply map_lookup_filter_None_2. left. exact E. }
           rewrite Hk1. destruct (decide (k0 = k)) as [->|Hne].
           ++ rewrite lookup_insert_eq, bool_decide_eq_true_2 by reflexivity.
              cbn [default from_option id]. lia.
           ++ rewrite lookup_insert_ne by exact Hne.
              rewrite bool_decide_eq_false_2 by congruence. lia.
    + (* the prefix is not a date *)
      rewrite (parseAndEnhanceTimestamp_no_date msg s w Hm Hp).
      unfold mret at 1, IO_ret, ret. cbv beta iota.
      destruct (IH (tick w)) as (cs & w' & Hrun & Hlen & Hno & Hyes).
      rewrite bind_run, Hrun.
      change (clock (tick w)) with (later 1 (clock w)) in Hno, Hyes.
      eexists _, w'. split; [reflexivity|]. split; [cbn; lia|]. split.
      * intros [|i] Hi; [eexists; reflexivity|]. apply (Hno i Hi).
      * intros [|i] k Hi Hret; [discriminate|]. rewrite lookup_cons_S in Hi.
        destruct (Hyes i k Hi) as (r & Hr & Hkr & Hst).
        { intros n. apply (Hret (1 + n)%nat). }
        exists r. split; [exact Hr|]. split; [exact Hkr|].
        rewrite Hst, seenBefore_S.
        rewrite bool_decide_eq_false_2 by discriminate.
        rewrite Z.add_0_l. reflexivity.
    + (* no prefix *)
      rewrite (parseAndEnhanceTimestamp_no_prefix msg w Hm).
      unfold mret at 1, IO_ret, ret. cbv beta iota.
      destruct (IH w) as (cs & w' & Hrun & Hlen & Hno & Hyes).
      rewrite bind_run, Hrun.
      eexists _, w'. split; [reflexivity|]. split; [cbn; lia|]. split.
      * intros [|i] Hi; [eexists; reflexivity|]. apply (Hno i Hi).
      * intros [|i] k Hi Hret; [discriminate|]. rewrite lookup_cons_S in Hi.
        destruct (Hyes i k Hi Hret) as (r & Hr & Hkr & Hst).
        exists r. split; [exact Hr|]. split; [exact Hkr|].
        rewrite Hst, seenBefore_S.
        rewrite bool_decide_eq_false_2 by discriminate.
        rewrite Z.add_0_l. reflexivity.
Qed.

End Host.

(** The four requests of [mixedMessages]: the second is refused, the
    fourth is given the counter after the first. *)
Lemma mixed_requests_stamps :
  requestKeys utc sampleDateParse (clock sampleWorld) mixedMessages
  = [Some (js "2025-09-04T12:53:01"); None;
     Some (js "2025-09-04T12:53:02"); Some (js "2025-09-04T12:53:01")]
  /\ (parseRequests utc sampleDateParse mixedMessages sampleWorld).1
     = Return
         [ Return {| baseTimestamp := 1756990381000;
                     enhancedTimestamp := js "2025-09-04T12:53:01.001Z";
                     hourKey := js "2025-09-04-12" |};
           Throw (js "Invalid log format: timestamp not found");
           Return {| baseTimestamp := 1756990382000;
                     enhancedTimestamp := js "2025-09-04T12:53:02.001Z";
                     hourKey := js "2025-09-04-12" |};
           Return {| baseTimestamp := 1756990381000;
                     enhancedTimestamp := js "2025-09-04T12:53:01.002Z";
                     hourKey := js "2025-09-04-12" |} ].
Proof. split; vm_compute; reflexivity. Qed.

End LegacyFacts.

Module BatchFacts.
Import JSDate JSString JSDateText FilesystemManager LogProcessor BatchProcessor.
Import BatchSpec LogSpec LogFacts.

Lemma sameButDisk_refl w : sameButDisk w w.
Proof. unfold sameButDisk. auto 10. Qed.

Lemma sameButDisk_trans w1 w2 w3 :
  sameButDisk w1 w2 -> sameButDisk w2 w3 -> sameButDisk w1 w3.
Proof.
  unfold sameButDisk. intros (-> & -> & -> & -> & -> & -> & ->) H. exact H.
Qed.

Lemma sameButDisk_setDisk d w : sameButDisk w (setDisk d w).
Proof. unfold sameButDisk. cbn. auto 10. Qed.

Lemma moveFile_present source destination d w :
  disk w !! source = Some d ->
  moveFile source destination w
  = (Return tt, setDisk (<[destination := d]> (delete source (disk w))) w).
Proof.
  intros H. unfold moveFile, tryCatch, rename. rewrite H. reflexivity.
Qed.

Lemma moveFile_absent source destination w :
  disk w !! source = None ->
  moveFile source destination w = (Throw (js "ENOENT"), w).
Proof.
  intros H. unfold moveFile, tryCatch, rename. rewrite H.
  rewrite bind_run. unfold copyFile. rewrite H. reflexivity.
Qed.

(** The sweep moves only files it was given, and touches no other name. *)
Lemma sweepLoop_run files : forall acc w,
  exists swept w',
    sweepLoop files acc w = (Return swept, w')
    /\ (forall f, f ∈ swept -> f ∈ acc \/ f ∈ files)
    /\ (forall p, p.2 ∉ files -> disk w' !! p = disk w !! p)
    /\ sameButDisk w w'.
Proof.
  induction files as [|f rest IH]; intros acc w.
  - exists acc, w. split; [reflexivity|]. split; [auto|]. split; [auto|].
    apply sameButDisk_refl.
  - cbn [sweepLoop]. rewrite bind_run. unfold tryCatch at 1. rewrite bind_run.
    destruct (disk w !! (Incoming, f)) as [d|] eqn:E.
    + rewrite (moveFile_present _ _ _ _ E).
      unfold mret, IO_ret, ret. cbv beta iota.
      set (w1 := setDisk _ w).
      destruct (IH (acc ++ [f]) w1) as (swept & w' & -> & Hin & Hd & Hs).
      exists swept, w'. split; [reflexivity|]. split; [|split].
      * intros g Hg. destruct (Hin g Hg) as [H|H].
        -- apply elem_of_app in H as [H|H]; [auto|].
           apply list_elem_of_singleton in H as ->. right. left.
        -- right. right. exact H.
      * intros p Hp. rewrite Hd by (intros H; apply Hp; right; exact H).
        subst w1. cbn [disk setDisk].
        assert (Hne : p.2 <> f) by (intros Heq; apply Hp; rewrite Heq; left).
        rewrite lookup_insert_ne by (intros <-; apply Hne; reflexivity).
        rewrite lookup_delete_ne by (intros <-; apply Hne; reflexivity).
        reflexivity.
      * eapply sameButDisk_trans; [apply sameButDisk_setDisk|exact Hs].
    + rewrite (moveFile_absent _ _ _ E).
      unfold mret, IO_ret, ret. cbv beta iota.
      destruct (IH acc w) as (swept & w' & -> & Hin & Hd & Hs).
      exists swept, w'. split; [reflexivity|]. split; [|split].
      * intros g Hg. destruct (Hin g Hg) as [H|H]; [auto|]. right. right. exact H.
      * intros p Hp. apply Hd. intros H. apply Hp. right. exact H.
      * exact Hs.
Qed.

Lemma listFiles_run dir filt w :
  exists l, listFiles dir filt w = (Return l, w)
            /\ forall f, f ∈ l -> filt f = true.
Proof.
  eexists. split; [reflexivity|]. intros f H.
  apply list_elem_of_In, filter_In in H as [_ H]. exact H.
Qed.

Section Host.
Variable tza : Z -> Z.

Lemma currentHourKey_getHourKey t1 t2 :
  getHours tza t1 = getHours tza t2 ->
  currentHourKey tza t1 t2 = getHourKey tza t2.
Proof. intros H. unfold currentHourKey, getHourKey. rewrite H. reflexivity. Qed.

(** The sweep as a whole: what it moves passed the filter built from the
    two readings, and a name that did not pass keeps its files. *)
Lemma sweepCompletedFiles_run w :
  let key := currentHourKey tza (clock w 0%nat) (clock w 1%nat) in
  exists swept w',
    sweepCompletedFiles tza w = (Return swept, w')
    /\ (forall f, f ∈ swept -> completed key f = true)
    /\ (forall p, completed key p.2 = false -> disk w' !! p = disk w !! p).
Proof.
  intros key. unfold sweepCompletedFiles.
  rewrite bind_run, now_run, bind_run, now_run.
  change (clock (tick w) 0%nat) with (clock w 1%nat). cbv zeta. fold key.
  rewrite bind_run.
  destruct (listFiles_run Incoming (completed key) (tick (tick w)))
    as (l & -> & Hl).
  destruct (sweepLoop_run l [] (tick (tick w))) as (swept & w' & -> & Hin & Hd & _).
  exists swept, w'. split; [reflexivity|]. split.
  - intros f Hf. destruct (Hin f Hf) as [H|H]; [inversion H|auto].
  - intros p Hp. rewrite Hd; [reflexivity|].
    intros H. apply Hl in H. congruence.
Qed.

End Host.

End BatchFacts.

Module UploadFacts.
Import JSDate JSString JSDateText FilesystemManager LogProcessor BatchProcessor.
Import BatchSpec LogSpec LogFacts BatchFacts.

(** One attempt under a store that refuses every request. *)
Lemma attempt_fails name w :
  (forall n, s3Outcomes w n <> None) ->
  exists m w',
    (generateS3Key name ≫= fun _ => s3Send) w = (Throw m, w')
    /\ uploadFrame w w' /\ effects w' = effects w
    /\ (forall n, s3Outcomes w' n <> None).
Proof.
  intros Hs. rewrite bind_run. unfold generateS3Key.
  destruct (matchBucketFilename name) as [[[[y mo] d] h]|].
  - rewrite bind_run. unfold randomSuffix at 1. unfold mret, IO_ret, ret.
    cbv beta iota. unfold s3Send. cbn [s3Outcomes setRandomSuffixes].
    destruct (s3Outcomes w 0%nat) as [m|] eqn:E; [|destruct (Hs _ E)].
    eexists _, _. split; [reflexivity|]. unfold uploadFrame. cbn.
    repeat split. intros n. apply Hs.
  - eexists _, w. split; [reflexivity|]. unfold uploadFrame. auto 10.
Qed.

Lemma uploadToS3From_all_fail filePath name : forall fuel retryCount w,
  (forall n, s3Outcomes w n <> None) ->
  retryCount + Z.of_nat fuel = config.maxRetries ->
  exists m w',
    uploadToS3From fuel filePath name retryCount w = (Throw m, w')
    /\ uploadFrame w w'
    /\ effects w' = effects w ++ failedAttempts name retryCount fuel.
Proof.
  induction fuel as [|fuel IH]; intros rc w Hs Hrc.
  - cbn [uploadToS3From]. rewrite bind_run. unfold modify at 1.
    unfold tryCatch.
    destruct (attempt_fails name (emit (UploadAttempt name rc) w))
      as (m & w1 & -> & Hf & He & _); [exact Hs|].
    replace (rc <? config.maxRetries) with false
      by (symmetry; apply Z.ltb_ge; lia).
    exists m, w1. split; [reflexivity|]. split; [exact Hf|].
    rewrite He. reflexivity.
  - cbn [uploadToS3From]. rewrite bind_run. unfold modify at 1.
    unfold tryCatch.
    destruct (attempt_fails name (emit (UploadAttempt name rc) w))
      as (m & w1 & -> & Hf & He & Hs1); [exact Hs|].
    replace (rc <? config.maxRetries) with true
      by (symmetry; apply Z.ltb_lt; lia).
    rewrite bind_run. unfold modify at 1.
    destruct (IH (rc + 1) (emit (Sleep (1000 * (rc + 1))) w1))
      as (m' & w2 & -> & Hf2 & He2); [exact Hs1|lia|].
    exists m', w2. split; [reflexivity|]. split.
    + unfold uploadFrame in *. cbn in *. intuition congruence.
    + rewrite He2. cbn [effects emit failedAttempts]. rewrite He. cbn.
      rewrite <- !app_assoc. reflexivity.
Qed.

Lemma app_ne_self (a b : jsstring) : b <> [] -> a ++ b <> a.
Proof.
  intros Hb H. apply (f_equal length) in H. rewrite length_app in H.
  destruct b; [congruence|]. cbn in H. lia.
Qed.

Lemma compressFile_present inputPath outputPath d w :
  disk w !! inputPath = Some d ->
  compressFile inputPath outputPath w
  = (Return tt, setDisk (<[outputPath := Gzip d]> (disk w)) w).
Proof. intros H. unfold compressFile. rewrite H. reflexivity. Qed.

Lemma unlink_present p d w :
  disk w !! p = Some d ->
  unlink p w = (Return tt, setDisk (delete p (disk w)) w).
Proof. intros H. unfold unlink. rewrite H. reflexivity. Qed.

Lemma writeJsonFile_run filePath data w :
  writeJsonFile filePath data w
  = (Return tt,
     setDisk (<[filePath := data]>
                (delete (filePath.1, filePath.2 ++ js ".tmp")
                   (<[(filePath.1, filePath.2 ++ js ".tmp") := data]> (disk w))))
             w).
Proof.
  unfold writeJsonFile, tryCatch. rewrite bind_run.
  unfold writeFile, modify, rename. cbn [disk setDisk].
  rewrite lookup_insert_eq. reflexivity.
Qed.

(** The recursion of [uploadToS3] is bounded by [maxRetries]: any fuel
    that covers the retries left gives the same run, so the bound the
    model recurses on is never the reason an upload stops. *)
Lemma uploadToS3From_fuel filePath name : forall fuel fuel' retryCount w,
  config.maxRetries <= retryCount + Z.of_nat fuel ->
  config.maxRetries <= retryCount + Z.of_nat fuel' ->
  uploadToS3From fuel filePath name retryCount w
  = uploadToS3From fuel' filePath name retryCount w.
Proof.
  induction fuel as [|fuel IH]; intros fuel' rc w Hf Hf'.
  - destruct fuel' as [|fuel']; [reflexivity|].
    cbn [uploadToS3From]. rewrite !bind_run. unfold modify at 1 3.
    unfold tryCatch.
    destruct ((generateS3Key name ≫= λ _, s3Send) (emit (UploadAttempt name rc) w))
      as [[a|m] w1]; [reflexivity|].
    replace (rc <? config.maxRetries) with false
      by (symmetry; apply Z.ltb_ge; lia).
    reflexivity.
  - destruct fuel' as [|fuel'].
    + cbn [uploadToS3From]. rewrite !bind_run. unfold modify at 1 3.
      unfold tryCatch.
      destruct ((generateS3Key name ≫= λ _, s3Send) (emit (UploadAttempt name rc) w))
        as [[a|m] w1]; [reflexivity|].
      replace (rc <? config.maxRetries) with false
        by (symmetry; apply Z.ltb_ge; lia).
      reflexivity.
    + cbn [uploadToS3From]. rewrite !bind_run. unfold modify at 1 3.
      unfold tryCatch.
      destruct ((generateS3Key name ≫= λ _, s3Send) (emit (UploadAttempt name rc) w))
        as [[a|m] w1]; [reflexivity|].
      destruct (rc <? config.maxRetries) eqn:E; [|reflexivity].
      rewrite !bind_run. unfold modify.
      apply IH; lia.
Qed.

(** Whatever the cycle did, [run] leaves the guard released. *)
Lemma run_releases_guard tza w :
  isProcessing w = false -> isProcessing (run tza w).2 = false.
Proof.
  intros Hb. unfold run. rewrite bind_run. unfold gets. rewrite Hb.
  rewrite bind_run. unfold modify. rewrite bind_run, now_run.
  unfold finally.
  destruct (tryCatch _ _ _) as [r w']. reflexivity.
Qed.

End UploadFacts.

Module SubmissionFacts.
Import JSDate JSString JSDateText LogProcessor LogSpec.
Import DateFacts TextFacts MatchFacts LogFacts SeqFacts.

Section Host.
Variable tza : Z -> Z.

(** Lines observed under one second-key are stamped with the hints
    0, 1, 2, ... in input order. *)
Lemma same_second_stamps clk lines k i line :
  lineKeys tza clk lines = replicate (length lines) (Some k) ->
  lines !! i = Some line ->
  exists m f,
    logFields line = Some f
    /\ lineStamps tza clk ∅ lines !! i
       = Some (toISOString (eventTime (getFullYear tza (clk m)) f + Z.of_nat i)).
Proof.
  intros Hkeys Hi.
  pose proof (lineStamps_lookup tza lines clk ∅ i line Hi) as H.
  assert (Hlt : (i < length lines)%nat) by (eapply lookup_lt_Some; eauto).
  destruct (logFields line) as [f|].
  - destruct H as (m & k' & _ & Hk' & Hst).
    rewrite Hkeys in Hk'. apply lookup_replicate in Hk' as [Hk' _].
    injection Hk' as <-.
    exists (S m), f. split; [reflexivity|]. rewrite Hst, Hkeys.
    rewrite seenBefore_replicate by lia. rewrite lookup_empty.
    cbn [default from_option id]. rewrite Z.add_0_l. reflexivity.
  - destruct H as (Hk' & _). rewrite Hkeys in Hk'.
    apply lookup_replicate in Hk' as [Hk' _]. discriminate.
Qed.

Lemma bucketOf_toISOString t :
  validTime t -> bucketOf tza (toISOString t) = getHourKey tza t ++ js ".log".
Proof.
  intros H. unfold bucketOf, getHourKeyOfString.
  rewrite parseISO_toISOString by exact H. reflexivity.
Qed.

End Host.

Lemma eventTime_fields year i d h m s :
  eventTime year {| monthIndex := i; day := d; hours := h; minutes := m;
                    seconds := s |}
  = UTC year i d h m s - 7 * msPerHour.
Proof. reflexivity. Qed.

(** At the end of an hour the 1001st line of a second lands in the bucket
    of the next hour. *)
Lemma overflow_crosses_hour :
  Samples.bucketSummary
    (disk (processLogContentLineByLine Samples.utc (js "unit-a") Samples.manyLinesAtHourEnd
             Samples.sampleWorld).2)
    [js "2025-09-04-05.log"; js "2025-09-04-06.log"]
  = [(1000%nat, Some (js "2025-09-04T05:59:59.999Z"));
     (1%nat, Some (js "2025-09-04T06:00:00.000Z"))].
Proof. vm_compute. reflexivity. Qed.

Lemma zip_entries_messages deviceId lines : forall stamps,
  length stamps = length lines ->
  map message (zip_with (entryOf deviceId) lines stamps) = lines.
Proof.
  induction lines as [|l lines IH]; intros [|s stamps] H; try discriminate;
    [reflexivity|].
  cbn [zip_with map]. rewrite IH by (cbn in H; lia). reflexivity.
Qed.

Lemma zip_entries_devices deviceId lines stamps :
  Forall (fun e => device_id e = deviceId)
         (zip_with (entryOf deviceId) lines stamps).
Proof.
  revert stamps. induction lines as [|l lines IH]; intros [|s stamps];
    cbn [zip_with]; constructor; [reflexivity|apply IH].
Qed.

Lemma logFields_not_recognised line :
  logFields line = None <-> ~ recognised line.
Proof.
  rewrite <- logFields_recognised. split.
  - intros H [f Hf]. congruence.
  - intros H. destruct (logFields line) as [f|]; [|reflexivity].
    destruct H. eauto.
Qed.

End SubmissionFacts.

Module LineFacts.
Import JSString LogProcessor LogSpec.

Lemma timestamped_recognised line : timestamped line <-> recognised line.
Proof. reflexivity. Qed.

Lemma splitOn_line l : oneLine l -> splitOn 10%N l = [l].
Proof.
  unfold oneLine. induction l as [|c l IH]; intros H; [reflexivity|].
  cbn [splitOn]. apply not_elem_of_cons in H as [Hc Hl].
  replace (c =? 10)%N with false by (symmetry; apply N.eqb_neq; congruence).
  rewrite (IH Hl). reflexivity.
Qed.

Lemma splitOn_app_break l s :
  oneLine l -> splitOn 10%N (l ++ 10%N :: s) = l :: splitOn 10%N s.
Proof.
  unfold oneLine. induction l as [|c l IH]; intros H; [reflexivity|].
  cbn [app splitOn]. apply not_elem_of_cons in H as [Hc Hl].
  replace (c =? 10)%N with false by (symmetry; apply N.eqb_neq; congruence).
  rewrite (IH Hl). reflexivity.
Qed.

(** Splitting at the line breaks gives the lines back. *)
Lemma splitOn_joinLines l ls :
  Forall oneLine (l :: ls) -> splitOn 10%N (joinLines (l :: ls)) = l :: ls.
Proof.
  revert l. induction ls as [|l' ls IH]; intros l H.
  - apply splitOn_line. apply Forall_inv in H. exact H.
  - change (joinLines (l :: l' :: ls)) with (l ++ 10%N :: joinLines (l' :: ls)).
    apply Forall_cons in H as [Hl H].
    rewrite (splitOn_app_break _ _ Hl), (IH _ H). reflexivity.
Qed.

Lemma splitOn_cons c s :
  splitOn 10%N (c :: s)
  = if (c =? 10)%N then [] :: splitOn 10%N s
    else match splitOn 10%N s with
         | [] => [[c]]
         | p :: ps => (c :: p) :: ps
         end.
Proof. reflexivity. Qed.

Lemma splitOn_some s : splitOn 10%N s <> [].
Proof.
  destruct s as [|c s]; [discriminate|]. rewrite splitOn_cons.
  destruct (c =? 10)%N; [discriminate|]. destruct (splitOn 10%N s); discriminate.
Qed.

(** Every text is made of lines. *)
Lemma lines_of_text s :
  exists ls, Forall oneLine ls /\ joinLines ls = s.
Proof.
  exists (splitOn 10%N s). induction s as [|c s [IH1 IH2]].
  - split; [repeat constructor; apply not_elem_of_nil|reflexivity].
  - rewrite splitOn_cons. pose proof (splitOn_some s) as Hne.
    destruct (c =? 10)%N eqn:E.
    + apply N.eqb_eq in E as ->. split.
      * constructor; [apply not_elem_of_nil|exact IH1].
      * destruct (splitOn 10%N s) as [|p ps]; [contradiction|].
        change (joinLines ([] :: p :: ps)) with (10%N :: joinLines (p :: ps)).
        rewrite IH2. reflexivity.
    + apply N.eqb_neq in E.
      destruct (splitOn 10%N s) as [|p ps]; [contradiction|].
      apply Forall_cons in IH1 as [Hp Hps]. split.
      * constructor; [|exact Hps]. unfold oneLine in *.
        apply not_elem_of_cons. split; [congruence|exact Hp].
      * rewrite <- IH2. destruct ps; reflexivity.
Qed.

Lemma filter_nonEmpty (ls : list jsstring) :
  List.filter (fun line => (0 <? length line)%nat) ls
  = filter (fun l => l <> []) ls.
Proof.
  induction ls as [|l ls IH]; [reflexivity|].
  cbn [List.filter]. rewrite filter_cons, IH.
  destruct l; [|reflexivity].
  cbn. destruct (decide _) as [H|H]; [congruence|reflexivity].
Qed.

(** The lines the entry point processes are the non-empty lines of the
    text, in order. *)
Lemma nonEmptyLines_joinLines ls :
  Forall oneLine ls ->
  nonEmptyLines (joinLines ls) = filter (fun l => l <> []) ls.
Proof.
  intros H. unfold nonEmptyLines. destruct ls as [|l ls]; [reflexivity|].
  rewrite (splitOn_joinLines _ _ H). apply filter_nonEmpty.
Qed.

Lemma zip_entries_lookup deviceId lines : forall stamps e,
  e ∈ zip_with (entryOf deviceId) lines stamps ->
  exists i, lines !! i = Some (message e) /\ stamps !! i = Some (log_timestamp e).
Proof.
  induction lines as [|l lines IH]; intros [|s stamps] e H;
    try (inversion H; fail).
  cbn [zip_with] in H. apply elem_of_cons in H as [->|H].
  - exists 0%nat. split; reflexivity.
  - destruct (IH _ _ H) as (i & H1 & H2). exists (S i). auto.
Qed.

End LineFacts.

Module RateFacts.
Import LogProcessor LogSpec LogFacts.

Lemma trackRequest_run w :
  trackRequest w
  = (Return tt,
     setRecentRequests
       (List.filter (fun timestamp => clock w 0%nat - 5 * 60 * 1000 <? timestamp)
                    (recentRequests w ++ [clock w 0%nat]))
       (tick w)).
Proof. reflexivity. Qed.

Lemma filter_filter_weaken {A} (P Q : A -> bool) l :
  (forall x, P x = true -> Q x = true) ->
  List.filter P (List.filter Q l) = List.filter P l.
Proof.
  intros H. induction l as [|x l IH]; [reflexivity|]. cbn [List.filter].
  destruct (Q x) eqn:EQ; cbn [List.filter].
  - rewrite IH. reflexivity.
  - destruct (P x) eqn:EP; [|exact IH]. rewrite (H x EP) in EQ. discriminate.
Qed.

Lemma filter_ext_in_bool {A} (P Q : A -> bool) l :
  (forall x, In x l -> P x = Q x) -> List.filter P l = List.filter Q l.
Proof.
  induction l as [|x l IH]; intros H; [reflexivity|]. cbn [List.filter].
  rewrite (H x (or_introl eq_refl)), IH; [reflexivity|].
  intros y Hy. apply H. right. exact Hy.
Qed.

(** The request log after [n] more calls: the calls of the last five
    minutes before the latest, when the log held those before the latest
    earlier call and the clock never runs backwards. *)
Lemma recentRequests_after n : forall hist t0 w,
  recentRequests w = List.filter (fun c => t0 - 5 * 60 * 1000 <? c) hist ->
  t0 <= clock w 0%nat ->
  (forall i j, (i <= j)%nat -> clock w i <= clock w j) ->
  recentRequests (trackEach (S n) w).2
  = List.filter (fun c => clock w n - 5 * 60 * 1000 <? c)
                (hist ++ map (clock w) (seq 0 (S n))).
Proof.
  induction n as [|n IH]; intros hist t0 w Hrr Ht Hmono.
  - cbn [trackEach]. rewrite bind_run, trackRequest_run.
    cbn [mret IO_ret ret snd recentRequests setRecentRequests seq map].
    unfold mret, IO_ret, ret. cbn [snd recentRequests setRecentRequests].
    rewrite Hrr, !List.filter_app, filter_filter_weaken; [reflexivity|].
    intros x Hx. apply Z.ltb_lt in Hx. apply Z.ltb_lt. lia.
  - change (trackEach (S (S n))) with (trackRequest ;; trackEach (S n)).
    rewrite bind_run, trackRequest_run.
    set (w1 := setRecentRequests _ (tick w)).
    rewrite (IH (hist ++ [clock w 0%nat]) (clock w 0%nat) w1).
    + change (clock w1) with (later 1 (clock w)).
      change (later 1 (clock w) n) with (clock w (S n)).
      rewrite <- app_assoc. do 2 f_equal.
      change (seq 0 (S (S n))) with (0%nat :: seq 1 (S n)).
      rewrite <- (seq_shift (S n) 0). cbn [map app].
      rewrite List.map_map. reflexivity.
    + subst w1. cbn [recentRequests setRecentRequests].
      rewrite Hrr, !List.filter_app, filter_filter_weaken; [reflexivity|].
      intros x Hx. apply Z.ltb_lt in Hx. apply Z.ltb_lt. lia.
    + change (clock w1 0%nat) with (clock w 1%nat). apply Hmono. lia.
    + intros i j Hij. change (clock w1) with (later 1 (clock w)).
      unfold later. apply Hmono. lia.
Qed.

(** X15.  Read right after an ingestion call, under a clock that never
    runs backwards, the rate is the number of calls of the last five
    minutes, over five, rounded to one decimal. *)
Lemma ingestion_rate_right_after_a_request n w :
  recentRequests w = [] ->
  (forall i j, (i <= j)%nat -> clock w i <= clock w j) ->
  (getIngestionRate (trackEach (S n) w).2).1
  = Return (ingestionRateAt (map (clock w) (seq 0 (S n))) (clock w n)).
Proof.
  intros Hrr Hmono.
  unfold getIngestionRate, gets, ingestionRateAt. cbn [fst].
  rewrite (recentRequests_after n [] (clock w 0%nat) w);
    [|rewrite Hrr; reflexivity|lia|exact Hmono].
  cbn [app]. do 6 f_equal.
  apply filter_ext_in_bool. intros x Hx.
  apply in_map_iff in Hx as (i & <- & Hi). apply in_seq in Hi.
  replace (clock w i <=? clock w n) with true; [rewrite andb_true_r; reflexivity|].
  symmetry. apply Z.leb_le, Hmono. lia.
Qed.

End RateFacts.

Module KeyFacts.
Import JSString JSDateText BatchProcessor BucketSpec.

Lemma matchBucketFilename_fields y m d h :
  bucketFields y m d h ->
  matchBucketFilename (bucketStem y m d h ++ js ".log") = Some (y, m, d, h).
Proof.
  intros (Hy & Hm & Hd & Hh & Hdig).
  destruct y as [|y1 [|y2 [|y3 [|y4 [|]]]]]; try discriminate.
  destruct m as [|m1 [|m2 [|]]]; try discriminate.
  destruct d as [|d1 [|d2 [|]]]; try discriminate.
  destruct h as [|h1 [|h2 [|]]]; try discriminate.
  unfold bucketStem. cbn [app].
  change (js "-") with [45%N]. change (js ".log") with [46%N; 108%N; 111%N; 103%N].
  cbn [app]. unfold matchBucketFilename.
  cbn [app] in Hdig. rewrite Hdig. reflexivity.
Qed.

Lemma matchBucketFilename_inv filename y m d h :
  matchBucketFilename filename = Some (y, m, d, h) ->
  bucketFields y m d h /\ filename = bucketStem y m d h ++ js ".log".
Proof.
  unfold matchBucketFilename.
  destruct filename as [|y1 [|y2 [|y3 [|y4 [|a [|m1 [|m2 [|b [|d1 [|d2 [|c
    [|h1 [|h2 [|p [|l [|o [|g [|]]]]]]]]]]]]]]]]]]; try discriminate.
  destruct (allDigits _) eqn:Hdig; [|discriminate].
  destruct (bool_decide _) eqn:E1; [|discriminate].
  destruct (bool_decide ([p; l; o; g] = _)) eqn:E2; [|discriminate].
  cbn [andb]. intros H. injection H as <- <- <- <-.
  apply bool_decide_eq_true in E1, E2.
  injection E1 as -> -> ->. injection E2 as -> -> -> ->.
  split; [|reflexivity].
  repeat split. exact Hdig.
Qed.

Lemma isBucketName_match filename :
  isBucketName filename <-> matchBucketFilename filename <> None.
Proof.
  split.
  - intros (y & m & d & h & Hf & ->). rewrite (matchBucketFilename_fields _ _ _ _ Hf).
    discriminate.
  - intros H. destruct (matchBucketFilename filename) as [[[[y m] d] h]|] eqn:E;
      [|congruence].
    apply matchBucketFilename_inv in E as [Hf ->]. exists y, m, d, h. auto.
Qed.

Lemma startsWith_cons_ne c r p ps :
  c <> p -> startsWith (c :: r) (p :: ps) = false.
Proof.
  intros H. unfold startsWith. apply bool_decide_eq_false.
  intros [k Hk]. injection Hk as ? _. congruence.
Qed.

Lemma removeFirst_skip pat0 pat c r :
  c <> pat0 -> removeFirst (pat0 :: pat) (c :: r) = c :: removeFirst (pat0 :: pat) r.
Proof.
  intros H. cbn [removeFirst]. rewrite (startsWith_cons_ne _ _ _ _ H). reflexivity.
Qed.

Lemma digit_not_dot c : isDigit c = true -> c <> 46%N.
Proof. intros H ->. discriminate. Qed.

(** Removing the first [".log"] of a bucket name takes the extension off: the
    stem holds no dot. *)
Lemma removeFirst_extension y m d h :
  bucketFields y m d h ->
  removeFirst (js ".log") (bucketStem y m d h ++ js ".log") = bucketStem y m d h.
Proof.
  intros (Hy & Hm & Hd & Hh & Hdig).
  destruct y as [|y1 [|y2 [|y3 [|y4 [|]]]]]; try discriminate.
  destruct m as [|m1 [|m2 [|]]]; try discriminate.
  destruct d as [|d1 [|d2 [|]]]; try discriminate.
  destruct h as [|h1 [|h2 [|]]]; try discriminate.
  unfold bucketStem. cbn [app] in *.
  change (js "-") with [45%N]. change (js ".log") with [46%N; 108%N; 111%N; 103%N].
  cbn [app]. unfold allDigits in Hdig. cbn [forallb] in Hdig.
  repeat (apply andb_prop in Hdig as [?%digit_not_dot Hdig]).
  rewrite !removeFirst_skip by (assumption || discriminate).
  reflexivity.
Qed.

End KeyFacts.

Module RetryFacts.
Import JSDate JSString JSDateText FilesystemManager LogProcessor BatchProcessor.
Import LogSpec BatchSpec LogFacts BatchFacts UploadFacts.
Import BucketSpec RetrySpec KeyFacts.

Lemma generateS3Key_invalid name w :
  matchBucketFilename name = None ->
  generateS3Key name w = (Throw (js "Invalid filename format: " ++ name), w).
Proof. intros H. unfold generateS3Key. rewrite H. reflexivity. Qed.

Lemma generateS3Key_valid name w :
  matchBucketFilename name <> None ->
  exists key,
    generateS3Key name w
    = (Return key, setRandomSuffixes (fun n => randomSuffixes w (S n)) w).
Proof.
  intros H. unfold generateS3Key.
  destruct (matchBucketFilename name) as [[[[y m] d] h]|]; [|congruence].
  rewrite bind_run. unfold randomSuffix. eexists. reflexivity.
Qed.

Lemma afterAttempts_emit n r e es w :
  afterAttempts n r es (emit e w) = afterAttempts n r (e :: es) w.
Proof.
  unfold afterAttempts, emit. cbn. f_equal. rewrite <- app_assoc. reflexivity.
Qed.

Lemma uploadToS3From_invalid filePath name : forall fuel retryCount w,
  matchBucketFilename name = None ->
  retryCount + Z.of_nat fuel = config.maxRetries ->
  uploadToS3From fuel filePath name retryCount w
  = (Throw (js "Invalid filename format: " ++ name),
     afterAttempts 0 0 (failedAttempts name retryCount fuel) w).
Proof.
  induction fuel as [|fuel IH]; intros rc w Hn Hrc.
  - cbn [uploadToS3From]. rewrite bind_run. unfold modify at 1.
    unfold tryCatch. rewrite bind_run, (generateS3Key_invalid _ _ Hn).
    replace (rc <? config.maxRetries) with false
      by (symmetry; apply Z.ltb_ge; lia).
    reflexivity.
  - cbn [uploadToS3From]. rewrite bind_run. unfold modify at 1.
    unfold tryCatch. rewrite bind_run, (generateS3Key_invalid _ _ Hn).
    replace (rc <? config.maxRetries) with true
      by (symmetry; apply Z.ltb_lt; lia).
    rewrite bind_run. unfold modify at 1.
    rewrite (IH (rc + 1)) by (assumption || lia).
    rewrite !afterAttempts_emit. reflexivity.
Qed.

Lemma uploadToS3From_succeeds filePath name : forall k fuel retryCount w,
  matchBucketFilename name <> None ->
  (k <= fuel)%nat ->
  retryCount + Z.of_nat k <= config.maxRetries ->
  (forall i, (i < k)%nat -> s3Outcomes w i <> None) ->
  s3Outcomes w k = None ->
  uploadToS3From fuel filePath name retryCount w
  = (Return tt, afterAttempts (S k) (S k) (failedAttempts name retryCount k) w).
Proof.
  induction k as [|k IH]; intros fuel rc w Hn Hk Hrc Hfail Hok.
  - assert (Hstep : uploadToS3From fuel filePath name rc w
                    = (Return tt, afterAttempts 1 1 [UploadAttempt name rc] w)).
    { destruct fuel; cbn [uploadToS3From]; rewrite bind_run; unfold modify at 1;
        unfold tryCatch; rewrite bind_run;
        destruct (generateS3Key_valid name (emit (UploadAttempt name rc) w) Hn)
          as (key & ->);
        unfold s3Send; cbn [s3Outcomes setRandomSuffixes emit]; rewrite Hok;
        reflexivity. }
    exact Hstep.
  - destruct fuel as [|fuel]; [lia|].
    cbn [uploadToS3From]. rewrite bind_run. unfold modify at 1.
    unfold tryCatch. rewrite bind_run.
    destruct (generateS3Key_valid name (emit (UploadAttempt name rc) w) Hn)
      as (key & ->).
    unfold s3Send at 1. cbn [s3Outcomes setRandomSuffixes emit].
    destruct (s3Outcomes w 0%nat) as [m|] eqn:E0;
      [|exfalso; apply (Hfail 0%nat); [lia|exact E0]].
    replace (rc <? config.maxRetries) with true
      by (symmetry; apply Z.ltb_lt; lia).
    rewrite bind_run. unfold modify at 1.
    rewrite (IH fuel (rc + 1)); [|exact Hn|lia|lia| |].
    + unfold afterAttempts, emit. cbn. f_equal. rewrite <- !app_assoc. reflexivity.
    + intros i Hi. cbn. apply Hfail. lia.
    + cbn. exact Hok.
Qed.

End RetryFacts.

Module SweepFacts.
Import JSDate JSString JSDateText FilesystemManager LogProcessor BatchProcessor.
Import LogSpec BatchSpec LogFacts BatchFacts UploadFacts.

Lemma NoDup_omap_inj {A B} (g : A -> option B) l :
  (forall x x' y, g x = Some y -> g x' = Some y -> x = x') ->
  NoDup l -> NoDup (omap g l).
Proof.
  intros Hinj. induction 1 as [|x l Hx Hnd IH]; cbn [omap list_omap].
  - apply NoDup_nil_2.
  - destruct (g x) as [y|] eqn:E; [|exact IH].
    apply NoDup_cons. split; [|exact IH].
    intros Hy. apply list_elem_of_omap in Hy as (x' & Hx' & E').
    rewrite (Hinj _ _ _ E E') in Hx. contradiction.
Qed.

Lemma NoDup_List_filter {A} (g : A -> bool) l :
  NoDup l -> NoDup (List.filter g l).
Proof.
  induction 1 as [|x l Hx Hnd IH]; cbn [List.filter].
  - apply NoDup_nil_2.
  - destruct (g x); [|exact IH]. apply NoDup_cons. split; [|exact IH].
    intros H. apply list_elem_of_In, filter_In in H as [H _].
    apply list_elem_of_In in H. contradiction.
Qed.

(** [listFiles] answers with the names of the directory that pass the
    filter, each once. *)
Lemma listFiles_spec dir filt w :
  exists l, listFiles dir filt w = (Return l, w)
    /\ NoDup l
    /\ forall f, f ∈ l <-> is_Some (disk w !! (dir, f)) /\ filt f = true.
Proof.
  eexists. split; [reflexivity|]. split.
  - apply NoDup_List_filter, NoDup_omap_inj; [|apply NoDup_elements].
    intros [d f] [d' f'] y. cbn. repeat case_decide; try discriminate.
    intros [= <-] [= <-]. congruence.
  - intros f. rewrite list_elem_of_In, filter_In, <- list_elem_of_In.
    rewrite list_elem_of_omap. split.
    + intros [([d g] & Hin & Hg) Hf]. cbn in Hg. case_decide; [|discriminate].
      injection Hg as ->. subst d. split; [|exact Hf].
      apply elem_of_elements, elem_of_dom in Hin. exact Hin.
    + intros [Hs Hf]. split; [|exact Hf]. exists (dir, f). split.
      * apply elem_of_elements, elem_of_dom. exact Hs.
      * cbn. case_decide; [reflexivity|contradiction].
Qed.

(** On distinct names that are all there, the loop moves every file, with
    its content, and touches nothing else. *)
Lemma sweepLoop_moves files : forall acc w,
  NoDup files ->
  (forall f, f ∈ files -> is_Some (disk w !! (Incoming, f))) ->
  exists w',
    sweepLoop files acc w = (Return (acc ++ files), w')
    /\ sameButDisk w w'
    /\ (forall f, f ∈ files ->
          disk w' !! (Processing, f) = disk w !! (Incoming, f)
          /\ disk w' !! (Incoming, f) = None)
    /\ (forall p, p.2 ∉ files \/ (p.1 <> Incoming /\ p.1 <> Processing) ->
          disk w' !! p = disk w !! p).
Proof.
  induction files as [|f rest IH]; intros acc w Hnd Hall.
  - exists w. rewrite app_nil_r. split; [reflexivity|].
    split; [apply sameButDisk_refl|]. split; [|auto].
    intros f Hf. inversion Hf.
  - apply NoDup_cons in Hnd as [Hf Hnd].
    destruct (Hall f ltac:(left)) as [d Hd].
    cbn [sweepLoop]. rewrite bind_run. unfold tryCatch at 1. rewrite bind_run.
    rewrite (moveFile_present _ _ _ _ Hd).
    unfold mret, IO_ret, ret. cbv beta iota.
    set (w1 := setDisk _ w).
    assert (Hother : forall p, p <> (Incoming, f) -> p <> (Processing, f) ->
                               disk w1 !! p = disk w !! p).
    { intros p H1 H2. subst w1. cbn [disk setDisk].
      rewrite lookup_insert_ne by congruence.
      rewrite lookup_delete_ne by congruence. reflexivity. }
    destruct (IH (acc ++ [f]) w1 Hnd) as (w' & Hrun & Hs & Hmoved & Hkept).
    { intros g Hg. rewrite Hother; [apply Hall; right; exact Hg| |];
        intros [= ->]; contradiction. }
    exists w'. split; [rewrite Hrun, <- app_assoc; reflexivity|].
    split; [eapply sameButDisk_trans; [apply sameButDisk_setDisk|exact Hs]|].
    split.
    + intros g Hg. apply elem_of_cons in Hg as [->|Hg].
      * rewrite !Hkept by (left; exact Hf). subst w1. cbn [disk setDisk].
        rewrite lookup_insert_eq.
        rewrite lookup_insert_ne by discriminate.
        rewrite lookup_delete_eq. auto.
      * destruct (Hmoved g Hg) as [H1 H2]. rewrite H1, H2. split; [|reflexivity].
        apply Hother; intros [= ->]; contradiction.
    + intros p Hp. rewrite Hkept.
      * apply Hother; intros ->; destruct Hp as [Hp|[? ?]]; cbn in *;
          try congruence; apply Hp; left.
      * destruct Hp as [Hp|Hp]; [left|right; exact Hp].
        intros H. apply Hp. right. exact H.
Qed.

End SweepFacts.

Module CycleFacts.
Import JSDate JSString JSDateText FilesystemManager LogProcessor BatchProcessor.
Import LogSpec BatchSpec LogFacts BatchFacts UploadFacts.

Lemma handleFailedFile_returns filename errorMessage w :
  exists w', handleFailedFile filename errorMessage w = (Return tt, w').
Proof.
  unfold handleFailedFile, tryCatch.
  destruct ((moveFile _ _ ≫= _) w) as [[[]|m] w']; eexists; reflexivity.
Qed.

(** The loop over the swept files always completes; it counts the files
    that went through and turns the status to [failed] at the first that
    did not. *)
Lemma processLoop_returns files : forall n0 st0 w,
  exists n st w',
    processLoop files n0 st0 w = (Return (n, st), w')
    /\ n0 <= n <= n0 + Z.of_nat (length files)
    /\ (st0 = failed -> st = failed)
    /\ (st0 = success -> (st = success /\ n = n0 + Z.of_nat (length files))
                         \/ (st = failed /\ n < n0 + Z.of_nat (length files))).
Proof.
  induction files as [|f rest IH]; intros n0 st0 w.
  - exists n0, st0, w. split; [reflexivity|]. cbn [length]. split; [lia|].
    split; [auto|]. intros ->. left. split; [reflexivity|lia].
  - cbn [processLoop]. rewrite bind_run. unfold tryCatch at 1. rewrite bind_run.
    destruct (processFile f w) as [[[]|m] w1].
    + unfold mret, IO_ret, ret. cbv beta iota. cbn [fst snd].
      destruct (IH (n0 + 1) st0 w1) as (n & st & w' & -> & Hn & Hfl & Hst).
      exists n, st, w'. split; [reflexivity|]. cbn [length]. split; [lia|].
      split; [exact Hfl|].
      intros H0. destruct (Hst H0) as [[-> ->]|[-> Hlt]]; [left|right];
        (split; [reflexivity|lia]).
    + rewrite bind_run.
      destruct (handleFailedFile_returns f m w1) as (w2 & ->).
      unfold mret, IO_ret, ret. cbv beta iota. cbn [fst snd].
      destruct (IH n0 failed w2) as (n & st & w' & -> & Hn & Hfl & _).
      exists n, st, w'. split; [reflexivity|]. cbn [length]. split; [lia|].
      split; [auto|]. intros _. right. split; [auto|lia].
Qed.

Lemma updateStatus_run s w :
  updateStatus s w
  = (Return tt,
     emit (StatusWritten s)
       (setDisk (<[(Status, js "last_run.json") := StatusJson s]>
                   (delete (Status, js "last_run.json" ++ js ".tmp")
                      (<[(Status, js "last_run.json" ++ js ".tmp") := StatusJson s]>
                         (disk w)))) w)).
Proof.
  unfold updateStatus. rewrite bind_run, writeJsonFile_run. reflexivity.
Qed.

Lemma compressFile_absent inputPath outputPath w :
  disk w !! inputPath = None ->
  compressFile inputPath outputPath w
  = (Throw (js "ENOENT"), setDisk (<[outputPath := Lines []]> (disk w)) w).
Proof. intros H. unfold compressFile. rewrite H. reflexivity. Qed.
End CycleFacts.

Module NumeralFacts.
Import JSDate JSString JSDateText LogProcessor DateFacts TextFacts BucketSpec.

Lemma decimalDigits_S fuel n acc :
  decimalDigits (S fuel) n acc
  = if n <? 10 then digitChar (n mod 10) :: acc
    else decimalDigits fuel (n / 10) (digitChar (n mod 10) :: acc).
Proof. reflexivity. Qed.

Lemma decimalDigits_fixed k : forall fuel n acc,
  (k <= fuel)%nat ->
  0 <= n < 10 ^ Z.of_nat (S k) ->
  (k = 0%nat \/ 10 ^ Z.of_nat k <= n) ->
  decimalDigits (S fuel) n acc = fixedDigits (S k) n ++ acc.
Proof.
  induction k as [|k IH]; intros fuel n acc Hf Hn Hlow.
  - rewrite decimalDigits_S. cbn [fixedDigits app].
    replace (n <? 10) with true by (symmetry; apply Z.ltb_lt; cbn in Hn; lia).
    reflexivity.
  - destruct Hlow as [?|Hlow]; [discriminate|].
    destruct fuel as [|fuel]; [lia|].
    rewrite Nat2Z.inj_succ, Z.pow_succ_r in Hn, Hlow by lia.
    assert (0 < 10 ^ Z.of_nat k) by (apply Z.pow_pos_nonneg; lia).
    rewrite decimalDigits_S.
    replace (n <? 10) with false by (symmetry; apply Z.ltb_ge; lia).
    rewrite (IH fuel (n / 10)); [| lia | |].
    + change (fixedDigits (S (S k)) n)
        with (fixedDigits (S k) (n / 10) ++ [digitChar (n mod 10)]).
      rewrite <- app_assoc. reflexivity.
    + Z.div_mod_to_equations; lia.
    + destruct k as [|k]; [left; reflexivity|right].
      Z.div_mod_to_equations; lia.
Qed.

Lemma log2_pow10 k n : 10 ^ Z.of_nat k <= n -> (k <= Z.to_nat (Z.log2 n))%nat.
Proof.
  intros H.
  assert (H2 : 2 ^ Z.of_nat k <= 10 ^ Z.of_nat k)
    by (apply Z.pow_le_mono_l; lia).
  assert (Z.of_nat k <= Z.log2 n); [|lia].
  apply Z.log2_le_pow2; [|lia].
  assert (0 < 2 ^ Z.of_nat k) by (apply Z.pow_pos_nonneg; lia). lia.
Qed.

(** [String(n)] is the [k + 1] digits of a number that has as many. *)
Lemma ofInteger_fixed k n :
  0 <= n < 10 ^ Z.of_nat (S k) ->
  (k = 0%nat \/ 10 ^ Z.of_nat k <= n) ->
  ofInteger n = fixedDigits (S k) n.
Proof.
  intros Hn Hlow. unfold ofInteger.
  replace (n <? 0) with false by (symmetry; apply Z.ltb_ge; lia).
  rewrite Z.abs_eq by lia.
  rewrite (decimalDigits_fixed k); [apply app_nil_r| |exact Hn|exact Hlow].
  destruct Hlow as [->|Hlow]; [lia|]. apply log2_pow10, Hlow.
Qed.

(** [String(n).padStart(2, "0")] is the two digits of [n]. *)
Lemma padStart_two n :
  0 <= n <= 99 -> padStart 2 48%N (ofInteger n) = fixedDigits 2 n.
Proof.
  intros Hn. destruct (Z.lt_ge_cases n 10) as [Hlt|Hge].
  - rewrite (ofInteger_fixed 0 n) by (cbn; auto; lia).
    unfold padStart. cbn [fixedDigits length app Nat.sub replicate].
    rewrite Z.div_small by lia. reflexivity.
  - rewrite (ofInteger_fixed 1 n) by (cbn; auto; lia).
    unfold padStart. rewrite fixedDigits_length. reflexivity.
Qed.

Lemma DaysInMonth_le_31 y m : 0 <= m <= 11 -> DaysInMonth y m <= 31.
Proof.
  intros Hm. unfold DaysInMonth. destruct (isLeapYear y);
    assert (m = 0 \/ m = 1 \/ m = 2 \/ m = 3 \/ m = 4 \/ m = 5 \/ m = 6 \/ m = 7
            \/ m = 8 \/ m = 9 \/ m = 10 \/ m = 11) as Hc by lia;
    repeat (destruct Hc as [->|Hc]; [unfold monthStart; simpl; lia|]); subst;
    unfold monthStart; simpl; lia.
Qed.

Section Host.
Variable tza : Z -> Z.

(** The hour key of a time in a four-digit year: [YYYY-MM-DD-HH]. *)
Lemma getHourKey_fields t :
  1000 <= getFullYear tza t <= 9999 ->
  getHourKey tza t
  = bucketStem (fixedDigits 4 (getFullYear tza t))
               (fixedDigits 2 (getMonth tza t + 1))
               (fixedDigits 2 (getDate tza t))
               (fixedDigits 2 (getHours tza t)).
Proof.
  intros Hy. unfold getHourKey, bucketStem. cbv zeta.
  pose proof (MonthFromTime_range (LocalTime tza t)) as Hm.
  pose proof (DateFromTime_range (LocalTime tza t)) as Hd.
  pose proof (time_field_ranges (LocalTime tza t)) as (Hh & _).
  pose proof (DaysInMonth_le_31 (YearFromTime (LocalTime tza t)) _ Hm) as Hdim.
  fold (getMonth tza t) in Hm. fold (getDate tza t) in Hd.
  fold (getHours tza t) in Hh.
  rewrite (ofInteger_fixed 3) by (cbn; auto; lia).
  rewrite !padStart_two by lia. reflexivity.
Qed.

End Host.

End NumeralFacts.

Module GroupFacts.
Import JSString FilesystemManager LogProcessor LogSpec CallFacts GroupSpec.

Lemma entriesFor_cons name f es fe :
  entriesFor name ((f, es) :: fe)
  = if decide (f = name) then es else entriesFor name fe.
Proof.
  unfold entriesFor. cbn [List.find fst].
  destruct (decide (f = name)) as [E|E].
  - rewrite bool_decide_eq_true_2 by exact E. reflexivity.
  - rewrite bool_decide_eq_false_2 by exact E. reflexivity.
Qed.

Lemma pushEntry_entriesFor name f e fe :
  entriesFor name (pushEntry f e fe)
  = entriesFor name fe ++ (if decide (f = name) then [e] else []).
Proof.
  induction fe as [|[g es] rest IH]; cbn [pushEntry].
  - rewrite entriesFor_cons. destruct (decide (f = name)); reflexivity.
  - destruct (decide (g = f)) as [->|Hgf].
    + rewrite !entriesFor_cons. destruct (decide (f = name)).
      * reflexivity.
      * rewrite app_nil_r. reflexivity.
    + rewrite !entriesFor_cons. destruct (decide (g = name)) as [->|Hgn].
      * destruct (decide (f = name)); [congruence|]. rewrite app_nil_r. reflexivity.
      * exact IH.
Qed.

Lemma entriesFor_absent name fe : name ∉ fe.*1 -> entriesFor name fe = [].
Proof.
  induction fe as [|[g es] rest IH]; [reflexivity|].
  cbn [fmap list_fmap fst]. intros H. rewrite entriesFor_cons.
  destruct (decide (g = name)) as [->|?].
  - exfalso. apply H. left.
  - apply IH. intros H'. apply H. right. exact H'.
Qed.

Section Host.
Variable tza : Z -> Z.

(** Grouping files each entry under its bucket, in input order. *)
Lemma groupEntries_entriesFor name es : forall fe,
  entriesFor name (groupEntries tza es fe)
  = entriesFor name fe
    ++ List.filter (fun e => bool_decide (bucketOf tza (log_timestamp e) = name)) es.
Proof.
  induction es as [|e es IH]; intros fe.
  - cbn [groupEntries fold_left List.filter]. rewrite app_nil_r. reflexivity.
  - rewrite groupEntries_step, IH, pushEntry_entriesFor. cbn [List.filter].
    rewrite <- app_assoc. f_equal.
    destruct (decide (bucketOf tza (log_timestamp e) = name)) as [E|E].
    + rewrite bool_decide_eq_true_2 by exact E. reflexivity.
    + rewrite bool_decide_eq_false_2 by exact E. reflexivity.
Qed.

End Host.

Lemma recordsOf_append d (p : Path) es :
  (forall data, d !! p = Some data -> exists os, data = Lines os) ->
  recordsOf (<[p := match d !! p with
                    | Some old => appendData old (Lines es)
                    | None => Lines es
                    end]> d) p
  = recordsOf d p ++ es.
Proof.
  intros Hb. unfold recordsOf. rewrite lookup_insert_eq.
  destruct (d !! p) as [old|]; [|reflexivity].
  destruct (Hb _ eq_refl) as [os ->]. reflexivity.
Qed.

Lemma bucketFiles_append d name es :
  bucketFiles d ->
  bucketFiles (<[((Incoming, name) : Path)
                 := match d !! ((Incoming, name) : Path) with
                    | Some old => appendData old (Lines es)
                    | None => Lines es
                    end]> d).
Proof.
  intros Hb n data. destruct (decide (n = name)) as [->|Hne].
  - rewrite lookup_insert_eq. intros [= <-].
    destruct (d !! ((Incoming, name) : Path)) as [old|] eqn:E; [|eauto].
    destruct (Hb _ _ E) as [os ->]. cbn. eauto.
  - rewrite lookup_insert_ne by congruence. apply Hb.
Qed.

(** Appending the groups: every bucket file grows by its group, and the
    files of the other directories stay. *)
Lemma written_records fe : forall d,
  NoDup fe.*1 -> bucketFiles d ->
  bucketFiles (written fe d)
  /\ (forall name, recordsOf (written fe d) (Incoming, name)
                   = recordsOf d (Incoming, name) ++ entriesFor name fe)
  /\ (forall dir name, dir <> Incoming -> written fe d !! (dir, name) = d !! (dir, name)).
Proof.
  induction fe as [|[f es] rest IH]; intros d Hnd Hb.
  - cbn [written fold_left]. split; [exact Hb|]. split; [|reflexivity].
    intros name. unfold entriesFor. cbn. rewrite app_nil_r. reflexivity.
  - cbn [fmap list_fmap fst] in Hnd. apply NoDup_cons in Hnd as [Hf Hnd].
    change (written ((f, es) :: rest) d)
      with (written rest (<[(Incoming, f) := match d !! (Incoming, f) with
                                              | Some old => appendData old (Lines es)
                                              | None => Lines es
                                              end]> d)).
    destruct (IH _ Hnd (bucketFiles_append d f es Hb)) as (Hb' & Hrec & Hoth).
    split; [exact Hb'|]. split.
    + intros name. rewrite Hrec, entriesFor_cons.
      destruct (decide (f = name)) as [<-|Hne].
      * rewrite (recordsOf_append d (Incoming, f) es (Hb f)),
          (entriesFor_absent f rest Hf).
        apply app_nil_r.
      * f_equal. unfold recordsOf. rewrite lookup_insert_ne by congruence.
        reflexivity.
    + intros dir name Hdir. rewrite Hoth by exact Hdir.
      apply lookup_insert_ne. congruence.
Qed.

Lemma nonEmptyLines_cons c s :
  nonEmptyLines (c :: s)
  = if (c =? 10)%N then nonEmptyLines s
    else match splitOn 10%N s with
         | [] => [[c]]
         | p :: ps => (c :: p) :: List.filter (fun line => (0 <? length line)%nat) ps
         end.
Proof.
  unfold nonEmptyLines. cbn [splitOn]. destruct (c =? 10)%N; [reflexivity|].
  destruct (splitOn 10%N s); reflexivity.
Qed.

(** Content made of line breaks only has no line to process. *)
Lemma nonEmptyLines_blank s :
  Forall (fun c => c = 10%N) s -> nonEmptyLines s = [].
Proof.
  induction 1 as [|c s -> _ IH]; [reflexivity|].
  rewrite nonEmptyLines_cons. exact IH.
Qed.

(** Any other content has one. *)
Lemma nonEmptyLines_some s c :
  c ∈ s -> c <> 10%N -> nonEmptyLines s <> [].
Proof.
  induction s as [|x s IH]; intros Hin Hc; [inversion Hin|].
  rewrite nonEmptyLines_cons. destruct (x =? 10)%N eqn:E.
  - apply N.eqb_eq in E as ->. apply elem_of_cons in Hin as [->|Hin]; [congruence|].
    apply IH; assumption.
  - destruct (splitOn 10%N s); discriminate.
Qed.

End GroupFacts.

Module RouteFacts.
Import JSString LogProcessor LogSpec CallFacts GroupFacts Http UploadRoute.

Lemma skipSpaces_all s : forallb isSpace s = true -> skipSpaces s = [].
Proof.
  induction s as [|c s IH]; [reflexivity|]. cbn [forallb skipSpaces].
  intros H. apply andb_prop in H as [-> H]. exact (IH H).
Qed.

(** Text that is not blank holds a character other than white space. *)
Lemma trim_not_blank s :
  trim s <> [] -> exists c, c ∈ s /\ isSpace c = false.
Proof.
  intros H. destruct (forallb isSpace s) eqn:E.
  - exfalso. apply H. unfold trim. rewrite (skipSpaces_all s E). reflexivity.
  - clear H. induction s as [|c s IH]; [discriminate|].
    cbn [forallb] in E. destruct (isSpace c) eqn:Ec.
    + destruct (IH E) as (x & Hx & Hs). exists x. split; [right; exact Hx|exact Hs].
    + exists c. split; [left|exact Ec].
Qed.

Lemma trim_lines s : trim s <> [] -> nonEmptyLines s <> [].
Proof.
  intros H. destruct (trim_not_blank s H) as (c & Hc & Hs).
  apply (nonEmptyLines_some s c Hc). intros ->. discriminate.
Qed.

Section Host.
Variable tza : Z -> Z.

(** The ingestion entry point never throws, and reports the non-empty
    lines it was given. *)
Lemma processLogContentLineByLine_returns deviceId logContent w :
  nonEmptyLines logContent <> [] ->
  exists r w',
    processLogContentLineByLine tza deviceId logContent w = (Return r, w')
    /\ result_success r = true
    /\ linesProcessed r = Z.of_nat (length (nonEmptyLines logContent)).
Proof.
  intros Hne.
  destruct (processLogContentLineByLine_run tza deviceId logContent w)
    as (w' & Hrun & _).
  destruct (nonEmptyLines logContent) as [|l ls] eqn:El; [congruence|].
  cbn [length Nat.eqb] in Hrun. eexists _, w'. split; [exact Hrun|].
  split; reflexivity.
Qed.

End Host.

(** The key check lets the configured key through. *)
Lemma authenticateApiKey_pass API_KEY req next :
  authorization req = Some (apiKey API_KEY) ->
  authenticateApiKey API_KEY req next = next.
Proof.
  intros H. unfold authenticateApiKey. rewrite H.
  assert (Hk : apiKey API_KEY <> []).
  { unfold apiKey. destruct API_KEY as [[|c s]|]; discriminate. }
  destruct (apiKey API_KEY) as [|c s]; [congruence|].
  apply decide_True. reflexivity.
Qed.

End RouteFacts.

Module MonitoringFacts.
Import JSString FilesystemManager LogFacts MonitoringRoute.

Lemma readJsonFile_absent (p : Path) w :
  disk w !! p = None -> readJsonFile p w = (Return None, w).
Proof. intros H. unfold readJsonFile. rewrite H. reflexivity. Qed.

Lemma readJsonFile_present (p : Path) d j w :
  disk w !! p = Some d -> parseJson d = Some j ->
  readJsonFile p w = (Return (Some j), w).
Proof. intros H Hj. unfold readJsonFile. rewrite H, Hj. reflexivity. Qed.

(** With sidecars that parse, the loop pushes one entry per file, in
    order, and changes nothing. *)
Lemma failuresLoop_run files : forall acc w,
  (forall f d, f ∈ files ->
     disk w !! ((Failed, f ++ js ".meta") : Path) = Some d -> parseJson d <> None) ->
  failuresLoop files acc w
  = (Return (acc ++ map (fun f => failureOf f
                                    (disk w !! ((Failed, f ++ js ".meta") : Path)
                                     ≫= parseJson)) files), w).
Proof.
  induction files as [|f rest IH]; intros acc w Hok.
  - cbn [failuresLoop map]. rewrite app_nil_r. reflexivity.
  - cbn [failuresLoop map]. rewrite bind_run.
    destruct (disk w !! ((Failed, f ++ js ".meta") : Path)) as [d|] eqn:E.
    + destruct (parseJson d) as [j|] eqn:Ej;
        [|exfalso; apply (Hok f d); [left|exact E|exact Ej]].
      rewrite (readJsonFile_present _ d j w E Ej).
      rewrite IH by (intros g d' Hg; apply Hok; right; exact Hg).
      cbn [mbind option_bind]. rewrite Ej, <- app_assoc. reflexivity.
    + rewrite (readJsonFile_absent _ w E).
      rewrite IH by (intros g d' Hg; apply Hok; right; exact Hg).
      cbn [mbind option_bind]. rewrite <- app_assoc. reflexivity.
Qed.

End MonitoringFacts.

Module OrderFacts.
Import JSDate JSString JSDateText LogProcessor DateFacts TextFacts NumeralFacts.

(** *** The order [<] on strings *)

Lemma ltb_irrefl a : ltb a a = false.
Proof.
  induction a as [|x a IH]; [reflexivity|]. cbn [ltb].
  rewrite N.ltb_irrefl, N.eqb_refl, IH. reflexivity.
Qed.

Lemma ltb_asym a : forall b, ltb a b = true -> ltb b a = false.
Proof.
  induction a as [|x a IH]; intros [|y b]; cbn [ltb]; try discriminate;
    try reflexivity.
  intros H. apply orb_true_iff in H as [H|H].
  - apply N.ltb_lt in H.
    replace (y <? x)%N with false by (symmetry; apply N.ltb_ge; lia).
    replace (y =? x)%N with false by (symmetry; apply N.eqb_neq; lia).
    reflexivity.
  - apply andb_true_iff in H as [E H]. apply N.eqb_eq in E as ->.
    rewrite N.ltb_irrefl, N.eqb_refl. cbn. apply IH, H.
Qed.

Lemma ltb_app_same x a b : ltb (x ++ a) (x ++ b) = ltb a b.
Proof.
  induction x as [|c x IH]; [reflexivity|]. cbn [app ltb].
  rewrite N.ltb_irrefl, N.eqb_refl. exact IH.
Qed.

Lemma ltb_app_lt x : forall y a b,
  length x = length y -> ltb x y = true -> ltb (x ++ a) (y ++ b) = true.
Proof.
  induction x as [|c x IH]; intros [|d y] a b Hl H; try discriminate.
  cbn [app ltb] in *. apply orb_true_iff in H as [H|H].
  - rewrite H. reflexivity.
  - apply andb_true_iff in H as [E H]. rewrite E, (IH y a b); [|cbn in Hl; lia|exact H].
    apply orb_true_r.
Qed.

(** *** Numerals of one width compare as their numbers *)

Lemma digitChar_lt a b :
  0 <= a < b -> b <= 9 -> (digitChar a <? digitChar b)%N = true.
Proof. intros Ha Hb. apply N.ltb_lt. unfold digitChar. lia. Qed.

Lemma ltb_fixedDigits w : forall a b,
  0 <= a < b -> b < 10 ^ Z.of_nat w ->
  ltb (fixedDigits w a) (fixedDigits w b) = true.
Proof.
  induction w as [|w IH]; intros a b Ha Hb.
  - cbn in Hb. lia.
  - rewrite Nat2Z.inj_succ, Z.pow_succ_r in Hb by lia.
    cbn [fixedDigits].
    destruct (Z.eq_dec (a / 10) (b / 10)) as [E|E].
    + rewrite E, ltb_app_same. cbn [ltb].
      rewrite digitChar_lt; [reflexivity| |].
      * Z.div_mod_to_equations; lia.
      * Z.div_mod_to_equations; lia.
    + apply ltb_app_lt.
      * rewrite !fixedDigits_length. reflexivity.
      * apply IH; Z.div_mod_to_equations; lia.
Qed.

(** One field of a timestamp: the smaller number, or the same number and
    the smaller rest. *)
Lemma ltb_field w a b r1 r2 :
  0 <= a -> 0 <= b -> a < 10 ^ Z.of_nat w -> b < 10 ^ Z.of_nat w ->
  a < b \/ (a = b /\ ltb r1 r2 = true) ->
  ltb (fixedDigits w a ++ r1) (fixedDigits w b ++ r2) = true.
Proof.
  intros Ha Hb Ha' Hb' [H|[-> H]].
  - apply ltb_app_lt; [rewrite !fixedDigits_length; reflexivity|].
    apply ltb_fixedDigits; lia.
  - rewrite ltb_app_same. exact H.
Qed.

(** *** Calendar fields in the order of time *)

Lemma DayFromYear_mono y1 y2 : y1 <= y2 -> DayFromYear y1 <= DayFromYear y2.
Proof. unfold DayFromYear. intros H. Z.div_mod_to_equations; lia. Qed.

Lemma YearFromDay_mono d1 d2 : d1 <= d2 -> YearFromDay d1 <= YearFromDay d2.
Proof.
  intros H. pose proof (YearFromDay_spec d1) as H1.
  pose proof (YearFromDay_spec d2) as H2.
  destruct (Z.le_gt_cases (YearFromDay d1) (YearFromDay d2)) as [?|Hgt];
    [assumption|].
  pose proof (DayFromYear_mono (YearFromDay d2 + 1) (YearFromDay d1) ltac:(lia)).
  lia.
Qed.

Lemma monthOfDayInYear_mono leap d1 d2 :
  d1 <= d2 -> monthOfDayInYear leap d1 <= monthOfDayInYear leap d2.
Proof.
  intros H. unfold monthOfDayInYear.
  repeat match goal with
         | |- context [?a <? ?b] => destruct (Z.ltb_spec a b)
         end; lia.
Qed.

(** The date fields of a later day are later, in the order year, month,
    day. *)
Lemma date_fields_lex t1 t2 :
  Day t1 < Day t2 ->
  YearFromTime t1 < YearFromTime t2
  \/ (YearFromTime t1 = YearFromTime t2
      /\ (MonthFromTime t1 < MonthFromTime t2
          \/ (MonthFromTime t1 = MonthFromTime t2
              /\ DateFromTime t1 < DateFromTime t2))).
Proof.
  intros Hd.
  pose proof (YearFromDay_mono (Day t1) (Day t2) ltac:(lia)) as Hy.
  fold (YearFromTime t1) in Hy. fold (YearFromTime t2) in Hy.
  destruct (Z.eq_dec (YearFromTime t1) (YearFromTime t2)) as [Ey|?]; [|lia].
  right. split; [exact Ey|].
  assert (Hl : InLeapYear t1 = InLeapYear t2) by (unfold InLeapYear; rewrite Ey; reflexivity).
  assert (Hw : DayWithinYear t1 < DayWithinYear t2)
    by (unfold DayWithinYear; rewrite Ey; lia).
  assert (Hle : DayWithinYear t1 <= DayWithinYear t2) by lia.
  pose proof (monthOfDayInYear_mono (InLeapYear t1) _ _ Hle) as Hm.
  unfold MonthFromTime, DateFromTime, MonthFromTime. rewrite <- Hl.
  destruct (Z.eq_dec (monthOfDayInYear (InLeapYear t1) (DayWithinYear t1))
                     (monthOfDayInYear (InLeapYear t1) (DayWithinYear t2)))
    as [Em|?]; [|lia].
  right. split; [exact Em|]. rewrite Em. lia.
Qed.

(** The time fields within one day. *)
Lemma time_fields_lex t1 t2 :
  Day t1 = Day t2 -> t1 / 1000 < t2 / 1000 ->
  HourFromTime t1 < HourFromTime t2
  \/ (HourFromTime t1 = HourFromTime t2
      /\ (MinFromTime t1 < MinFromTime t2
          \/ (MinFromTime t1 = MinFromTime t2
              /\ SecFromTime t1 < SecFromTime t2))).
Proof.
  unfold Day, HourFromTime, MinFromTime, SecFromTime, msPerDay, msPerHour,
    msPerMinute, msPerSecond.
  intros Hd Hs. Z.div_mod_to_equations. lia.
Qed.

Lemma same_day_fields t1 t2 :
  Day t1 = Day t2 ->
  YearFromTime t1 = YearFromTime t2 /\ MonthFromTime t1 = MonthFromTime t2
  /\ DateFromTime t1 = DateFromTime t2.
Proof.
  intros H. unfold DateFromTime, MonthFromTime, InLeapYear, DayWithinYear,
    YearFromTime. rewrite H. auto.
Qed.

Lemma ltb_field2 a b r1 r2 :
  0 <= a <= 99 -> 0 <= b <= 99 ->
  a < b \/ (a = b /\ ltb r1 r2 = true) ->
  ltb (fixedDigits 2 a ++ r1) (fixedDigits 2 b ++ r2) = true.
Proof.
  intros Ha Hb. apply ltb_field; change (10 ^ Z.of_nat 2) with 100; lia.
Qed.

Lemma isoYear_four y : 0 <= y <= 9999 -> isoYear y = fixedDigits 4 y.
Proof.
  intros Hy. unfold isoYear.
  replace (0 <=? y) with true by (symmetry; apply Z.leb_le; lia).
  replace (y <=? 9999) with true by (symmetry; apply Z.leb_le; lia).
  reflexivity.
Qed.

(** The text down to the second is in the order of the seconds, whatever
    follows it. *)
Lemma isoSeconds_lt t1 t2 r1 r2 :
  0 <= YearFromTime t1 <= 9999 -> 0 <= YearFromTime t2 <= 9999 ->
  t1 / 1000 < t2 / 1000 ->
  ltb (isoSeconds t1 ++ r1) (isoSeconds t2 ++ r2) = true.
Proof.
  intros Hy1 Hy2 Hs. unfold isoSeconds.
  rewrite !isoYear_four by assumption. rewrite <- !app_assoc.
  pose proof (MonthFromTime_range t1) as Hm1.
  pose proof (MonthFromTime_range t2) as Hm2.
  pose proof (DateFromTime_range t1) as Hd1.
  pose proof (DateFromTime_range t2) as Hd2.
  pose proof (DaysInMonth_le_31 (YearFromTime t1) _ Hm1) as Hl1.
  pose proof (DaysInMonth_le_31 (YearFromTime t2) _ Hm2) as Hl2.
  pose proof (time_field_ranges t1) as (Hh1 & Hmi1 & Hs1 & _).
  pose proof (time_field_ranges t2) as (Hh2 & Hmi2 & Hs2 & _).
  assert (Hday : Day t1 < Day t2 \/ Day t1 = Day t2).
  { unfold Day, msPerDay. Z.div_mod_to_equations. lia. }
  destruct Hday as [Hday|Hday].
  - destruct (date_fields_lex t1 t2 Hday) as [Hy|[Ey [Hm|[Em Hd]]]].
    + apply ltb_field; [lia|lia|change (10 ^ Z.of_nat 4) with 10000; lia
                       |change (10 ^ Z.of_nat 4) with 10000; lia|left; exact Hy].
    + rewrite Ey, ltb_app_same, ltb_app_same.
      apply ltb_field2; [lia|lia|left; lia].
    + rewrite Ey, Em, !ltb_app_same.
      apply ltb_field2; [lia|lia|left; exact Hd].
  - destruct (same_day_fields t1 t2 Hday) as (Ey & Em & Ed).
    rewrite Ey, Em, Ed, !ltb_app_same.
    destruct (time_fields_lex t1 t2 Hday Hs) as [Hh|[Eh [Hm|[Emi Hsec]]]].
    + apply ltb_field2; [lia|lia|left; exact Hh].
    + rewrite Eh, !ltb_app_same. apply ltb_field2; [lia|lia|left; exact Hm].
    + rewrite Eh, Emi, !ltb_app_same. apply ltb_field2; [lia|lia|left; exact Hsec].
Qed.

Lemma isoSeconds_of_second t : isoSeconds t = isoSeconds (1000 * (t / 1000)).
Proof.
  replace t with (1000 * (t / 1000) + t mod 1000) at 1
    by (Z.div_mod_to_equations; lia).
  apply isoSeconds_same_second.
  - unfold msFromTime, msPerSecond. Z.div_mod_to_equations; lia.
  - Z.div_mod_to_equations; lia.
Qed.

(** Timestamps of four-digit years sort as text the way they sort as
    times. *)
Lemma toISOString_lt t1 t2 :
  0 <= YearFromTime t1 <= 9999 -> 0 <= YearFromTime t2 <= 9999 ->
  t1 < t2 -> ltb (toISOString t1) (toISOString t2) = true.
Proof.
  intros Hy1 Hy2 Hlt. unfold toISOString.
  assert (Hs : t1 / 1000 < t2 / 1000 \/ t1 / 1000 = t2 / 1000)
    by (Z.div_mod_to_equations; lia).
  destruct Hs as [Hs|Hs].
  - apply isoSeconds_lt; assumption.
  - rewrite (isoSeconds_of_second t1), (isoSeconds_of_second t2), Hs.
    rewrite !ltb_app_same.
    apply ltb_field; unfold msFromTime, msPerSecond;
      try change (10 ^ Z.of_nat 3) with 1000;
      Z.div_mod_to_equations; lia.
Qed.

Lemma isoSeconds_length t :
  0 <= YearFromTime t <= 9999 -> length (isoSeconds t) = 19%nat.
Proof.
  intros Hy. unfold isoSeconds. rewrite isoYear_four by exact Hy.
  rewrite !length_app, !fixedDigits_length. reflexivity.
Qed.

(** The sequencing key of a time in a four-digit year is its text down to
    the second. *)
Lemma formatTimestampKey_isoSeconds t :
  0 <= YearFromTime t <= 9999 -> formatTimestampKey t = isoSeconds t.
Proof.
  intros Hy. unfold formatTimestampKey, substring0, toISOString.
  rewrite take_app_length'; [reflexivity|].
  symmetry. apply isoSeconds_length, Hy.
Qed.

(** Sequencing keys are in the order of the seconds they stand for. *)
Lemma formatTimestampKey_order t1 t2 :
  0 <= YearFromTime t1 <= 9999 -> 0 <= YearFromTime t2 <= 9999 ->
  ltb (formatTimestampKey t1) (formatTimestampKey t2) = true
  <-> t1 / 1000 < t2 / 1000.
Proof.
  intros Hy1 Hy2. rewrite !formatTimestampKey_isoSeconds by assumption.
  assert (Hfw : forall a b, 0 <= YearFromTime a <= 9999 ->
                  0 <= YearFromTime b <= 9999 -> a / 1000 < b / 1000 ->
                  ltb (isoSeconds a) (isoSeconds b) = true).
  { intros a b Ha Hb H. pose proof (isoSeconds_lt a b [] [] Ha Hb H) as Hl.
    rewrite !app_nil_r in Hl. exact Hl. }
  split; [|apply Hfw; assumption].
  intros H. destruct (Z.lt_trichotomy (t1 / 1000) (t2 / 1000)) as [?|[E|Hgt]];
    [assumption| |].
  - rewrite (isoSeconds_of_second t1), (isoSeconds_of_second t2), E, ltb_irrefl in H.
    discriminate.
  - apply ltb_asym in H. rewrite (Hfw t2 t1 Hy2 Hy1 Hgt) in H. discriminate.
Qed.

End OrderFacts.

Module SortFacts.
Import JSDate JSString JSDateText LogProcessor LogSpec DateFacts OrderFacts.

Lemma YearFromTime_mono t1 t2 : t1 <= t2 -> YearFromTime t1 <= YearFromTime t2.
Proof.
  intros H. apply YearFromDay_mono. unfold Day, msPerDay.
  Z.div_mod_to_equations; lia.
Qed.

(** Whole seconds with one second-key are one time. *)
Lemma secondKeyOf_inj t1 t2 :
  0 <= YearFromTime t1 <= 9999 -> 0 <= YearFromTime t2 <= 9999 ->
  msFromTime t1 = 0 -> msFromTime t2 = 0 ->
  secondKeyOf (toISOString t1) = secondKeyOf (toISOString t2) -> t1 = t2.
Proof.
  intros Hy1 Hy2 H1 H2 Hk. unfold secondKeyOf in Hk.
  apply app_inv_tail in Hk.
  change (substring0 19 (toISOString t1)) with (formatTimestampKey t1) in Hk.
  change (substring0 19 (toISOString t2)) with (formatTimestampKey t2) in Hk.
  assert (Hs : t1 / 1000 = t2 / 1000).
  { destruct (Z.lt_trichotomy (t1 / 1000) (t2 / 1000)) as [Hlt|[E|Hgt]];
      [|exact E|].
    - apply (formatTimestampKey_order t1 t2 Hy1 Hy2) in Hlt.
      rewrite Hk, ltb_irrefl in Hlt. discriminate.
    - apply (formatTimestampKey_order t2 t1 Hy2 Hy1) in Hgt.
      rewrite Hk, ltb_irrefl in Hgt. discriminate. }
  unfold msFromTime, msPerSecond in *. Z.div_mod_to_equations; lia.
Qed.

End SortFacts.

Module QuietFacts.
Import JSDate JSString JSDateText FilesystemManager LogProcessor BatchProcessor.
Import LogSpec BatchSpec LogFacts BatchFacts UploadFacts.
Import StatusSpec.

Lemma quiet_ret {A} (a : A) : quiet (mret a).
Proof. intros w. reflexivity. Qed.

Lemma quiet_throw {A} m : quiet (throw m : IO A).
Proof. intros w. reflexivity. Qed.

Lemma quiet_bind {A B} (c : IO A) (k : A -> IO B) :
  quiet c -> (forall a, quiet (k a)) -> quiet (c ≫= k).
Proof.
  intros Hc Hk w. rewrite bind_run. specialize (Hc w).
  destruct (c w) as [[a|m] w1]; cbn [snd] in *; [|exact Hc].
  rewrite (Hk a w1). exact Hc.
Qed.

Lemma quiet_tryCatch {A} (c : IO A) h :
  quiet c -> (forall m, quiet (h m)) -> quiet (tryCatch c h).
Proof.
  intros Hc Hh w. unfold tryCatch. specialize (Hc w).
  destruct (c w) as [[a|m] w1]; cbn [snd] in *; [exact Hc|].
  rewrite (Hh m w1). exact Hc.
Qed.

Lemma quiet_both a b : quiet a -> quiet b -> quiet (both a b).
Proof.
  intros Ha Hb w. unfold both. specialize (Ha w).
  destruct (a w) as [ra w1]. specialize (Hb w1).
  destruct (b w1) as [rb w2]. cbn [snd] in *.
  destruct ra as [[]|?], rb as [[]|?]; cbn [snd]; congruence.
Qed.

Lemma quiet_modify f :
  (forall w, statusWrites (effects (f w)) = statusWrites (effects w)) ->
  quiet (modify f).
Proof. intros H w. apply H. Qed.

Lemma quiet_now : quiet now.
Proof. intros w. reflexivity. Qed.

Lemma quiet_rename a b : quiet (rename a b).
Proof. intros w. unfold rename. destruct (disk w !! a); reflexivity. Qed.

Lemma quiet_copyFile a b : quiet (copyFile a b).
Proof. intros w. unfold copyFile. destruct (disk w !! a); reflexivity. Qed.

Lemma quiet_unlink a : quiet (unlink a).
Proof. intros w. unfold unlink. destruct (disk w !! a); reflexivity. Qed.

Lemma quiet_compressFile a b : quiet (compressFile a b).
Proof. intros w. unfold compressFile. destruct (disk w !! a); reflexivity. Qed.

Lemma quiet_moveFile a b : quiet (moveFile a b).
Proof.
  apply quiet_tryCatch; [apply quiet_rename|]. intros _.
  apply quiet_bind; [apply quiet_copyFile|]. intros _. apply quiet_unlink.
Qed.

Lemma quiet_writeJsonFile p d : quiet (writeJsonFile p d).
Proof. intros w. rewrite writeJsonFile_run. reflexivity. Qed.

Lemma quiet_generateS3Key name : quiet (generateS3Key name).
Proof.
  intros w. unfold generateS3Key.
  destruct (matchBucketFilename name) as [[[[y m] d] h]|]; reflexivity.
Qed.

Lemma quiet_s3Send : quiet s3Send.
Proof. intros w. unfold s3Send. destruct (s3Outcomes w 0%nat); reflexivity. Qed.

Lemma statusWrites_snoc es e :
  statusWrites (es ++ [e])
  = statusWrites es ++ match e with StatusWritten s => [s] | _ => [] end.
Proof.
  unfold statusWrites. rewrite omap_app. destruct e; reflexivity.
Qed.

Lemma quiet_uploadToS3From filePath name : forall fuel retryCount,
  quiet (uploadToS3From fuel filePath name retryCount).
Proof.
  induction fuel as [|fuel IH]; intros rc; cbn [uploadToS3From].
  - apply quiet_bind.
    + apply quiet_modify. intros w. cbn [effects emit].
      rewrite statusWrites_snoc. apply app_nil_r.
    + intros _. apply quiet_tryCatch.
      * apply quiet_bind; [apply quiet_generateS3Key|]. intros _. apply quiet_s3Send.
      * intros m. destruct (rc <? config.maxRetries); [|apply quiet_throw].
        apply quiet_bind; [|intros _; apply quiet_throw].
        apply quiet_modify. intros w. cbn [effects emit].
        rewrite statusWrites_snoc. apply app_nil_r.
  - apply quiet_bind.
    + apply quiet_modify. intros w. cbn [effects emit].
      rewrite statusWrites_snoc. apply app_nil_r.
    + intros _. apply quiet_tryCatch.
      * apply quiet_bind; [apply quiet_generateS3Key|]. intros _. apply quiet_s3Send.
      * intros m. destruct (rc <? config.maxRetries); [|apply quiet_throw].
        apply quiet_bind; [|intros _; apply IH].
        apply quiet_modify. intros w. cbn [effects emit].
        rewrite statusWrites_snoc. apply app_nil_r.
Qed.

Lemma quiet_processFile filename : quiet (processFile filename).
Proof.
  unfold processFile. cbv zeta. apply quiet_tryCatch.
  - apply quiet_bind; [apply quiet_compressFile|]. intros _.
    apply quiet_bind; [apply quiet_uploadToS3From|]. intros _.
    apply quiet_both; apply quiet_unlink.
  - intros m. apply quiet_bind; [|intros _; apply quiet_throw].
    apply quiet_tryCatch; [apply quiet_unlink|]. intros _. apply quiet_ret.
Qed.

Lemma quiet_handleFailedFile filename m : quiet (handleFailedFile filename m).
Proof.
  unfold handleFailedFile. apply quiet_tryCatch; [|intros _; apply quiet_ret].
  apply quiet_bind; [apply quiet_moveFile|]. intros _.
  apply quiet_bind; [apply quiet_now|]. intros t. apply quiet_writeJsonFile.
Qed.

Lemma quiet_processLoop files : forall n st, quiet (processLoop files n st).
Proof.
  induction files as [|f rest IH]; intros n st; cbn [processLoop].
  - apply quiet_ret.
  - apply quiet_bind; [|intros r; apply IH].
    apply quiet_tryCatch.
    + apply quiet_bind; [apply quiet_processFile|]. intros _. apply quiet_ret.
    + intros m. apply quiet_bind; [apply quiet_handleFailedFile|].
      intros _. apply quiet_ret.
Qed.

Lemma quiet_sweepLoop files : forall acc, quiet (sweepLoop files acc).
Proof.
  induction files as [|f rest IH]; intros acc; cbn [sweepLoop].
  - apply quiet_ret.
  - apply quiet_bind; [|intros r; apply IH].
    apply quiet_tryCatch; [|intros _; apply quiet_ret].
    apply quiet_bind; [apply quiet_moveFile|]. intros _. apply quiet_ret.
Qed.

Lemma quiet_sweepCompletedFiles tza : quiet (sweepCompletedFiles tza).
Proof.
  unfold sweepCompletedFiles.
  apply quiet_bind; [apply quiet_now|]. intros t1.
  apply quiet_bind; [apply quiet_now|]. intros t2. cbv zeta.
  apply quiet_bind; [|intros l; apply quiet_sweepLoop].
  intros w. reflexivity.
Qed.

End QuietFacts.

Module PrefixFacts.
Import JSString JSDateText LogProcessor BucketSpec.

Lemma endsWith_app a b : endsWith (a ++ b) b = true.
Proof. unfold endsWith. apply bool_decide_eq_true. exists a. reflexivity. Qed.

(** A name built on a key of the length of [k] begins with [k] only when
    the key is [k]. *)
Lemma startsWith_same_length k1 k2 r :
  length k1 = length k2 ->
  startsWith (k1 ++ r) k2 = bool_decide (k1 = k2).
Proof.
  intros Hl. unfold startsWith. apply bool_decide_ext. split.
  - intros [x Hx]. apply app_inj_1 in Hx as [? _]; [assumption|exact Hl].
  - intros ->. exists r. reflexivity.
Qed.

Lemma bucketStem_length y m d h :
  length y = 4%nat -> length m = 2%nat -> length d = 2%nat -> length h = 2%nat ->
  length (bucketStem y m d h) = 13%nat.
Proof.
  intros Hy Hm Hd Hh. unfold bucketStem. rewrite !length_app, Hy, Hm, Hd, Hh.
  reflexivity.
Qed.

Lemma isLetter_isWordChar c : isLetter c = true -> isWordChar c = true.
Proof. intros H. unfold isWordChar. rewrite H. reflexivity. Qed.

End PrefixFacts.

Module HourChangeFacts.
Import JSDate JSString JSDateText LogProcessor BatchProcessor BucketSpec.
Import DateFacts TextFacts NumeralFacts OrderFacts PrefixFacts.

Lemma fixedDigits_inj w a b :
  0 <= a < 10 ^ Z.of_nat w -> 0 <= b < 10 ^ Z.of_nat w ->
  fixedDigits w a = fixedDigits w b -> a = b.
Proof.
  intros Ha Hb E. destruct (Z.lt_trichotomy a b) as [H|[H|H]]; [|exact H|].
  - pose proof (ltb_fixedDigits w a b ltac:(lia) ltac:(lia)) as Hlt.
    rewrite E, ltb_irrefl in Hlt. discriminate.
  - pose proof (ltb_fixedDigits w b a ltac:(lia) ltac:(lia)) as Hlt.
    rewrite E, ltb_irrefl in Hlt. discriminate.
Qed.

Section Host.
Variable tza : Z -> Z.

(** The key the sweep builds, for a date reading in a four-digit year. *)
Lemma currentHourKey_fields hourReading dateReading :
  1000 <= getFullYear tza dateReading <= 9999 ->
  currentHourKey tza hourReading dateReading
  = bucketStem (fixedDigits 4 (getFullYear tza dateReading))
               (fixedDigits 2 (getMonth tza dateReading + 1))
               (fixedDigits 2 (getDate tza dateReading))
               (fixedDigits 2 (getHours tza hourReading)).
Proof.
  intros Hy. unfold currentHourKey, bucketStem.
  pose proof (MonthFromTime_range (LocalTime tza dateReading)) as Hm.
  pose proof (DateFromTime_range (LocalTime tza dateReading)) as Hd.
  pose proof (time_field_ranges (LocalTime tza hourReading)) as (Hh & _).
  pose proof (DaysInMonth_le_31 (YearFromTime (LocalTime tza dateReading)) _ Hm)
    as Hdim.
  fold (getMonth tza dateReading) in Hm. fold (getDate tza dateReading) in Hd.
  fold (getHours tza hourReading) in Hh.
  rewrite (ofInteger_fixed 3) by (cbn; auto; lia).
  rewrite !padStart_two by lia. reflexivity.
Qed.

(** When the two readings disagree on the hour, the bucket of the hour of
    the second reading passes the filter. *)
Lemma completed_at_hour_change hourReading dateReading :
  1000 <= getFullYear tza dateReading <= 9999 ->
  getHours tza hourReading <> getHours tza dateReading ->
  completed (currentHourKey tza hourReading dateReading)
            (getHourKey tza dateReading ++ js ".log") = true.
Proof.
  intros Hy Hh. unfold completed. rewrite endsWith_app. cbn [andb].
  apply negb_true_iff.
  rewrite (currentHourKey_fields _ _ Hy), (getHourKey_fields tza _ Hy).
  rewrite startsWith_same_length
    by (rewrite !bucketStem_length by apply fixedDigits_length; reflexivity).
  apply bool_decide_eq_false. unfold bucketStem. intros E.
  repeat (apply app_inv_head in E).
  pose proof (time_field_ranges (LocalTime tza hourReading)) as (H0 & _).
  pose proof (time_field_ranges (LocalTime tza dateReading)) as (H1 & _).
  fold (getHours tza hourReading) in H0. fold (getHours tza dateReading) in H1.
  apply fixedDigits_inj in E; [congruence| |]; cbn; lia.
Qed.

End Host.
End HourChangeFacts.

(** * The claims *)

Import JSDate JSString JSDateText FilesystemManager LogProcessor BatchProcessor.
Import LogSpec BatchSpec Samples.
Import DateFacts TextFacts MatchFacts LogFacts SeqFacts CallFacts LegacyFacts.
Import BatchFacts UploadFacts SubmissionFacts RateFacts LineFacts.

(** C1 (as amended).  In one call of [processLogContentLineByLine] on N
    non-empty lines whose base timestamps share one second, the hints the
    lines are stamped with are 0, 1, ..., N-1 in input order, and every hint
    below 1000 is the millisecond field of the line's [log_timestamp]; the
    entries so stamped are what the call appends to the bucket files. *)
Theorem same_second_hints_in_input_order tza deviceId logContent k w :
  let lines := nonEmptyLines logContent in
  lineKeys tza (later 1 (clock w)) lines = replicate (length lines) (Some k) ->
  exists stamps w',
    (processLogContentLineByLine tza deviceId logContent w).2 = w'
    /\ disk w'
       = written (groupEntries tza (zip_with (entryOf deviceId) lines stamps) [])
                 (disk w)
    /\ length stamps = length lines
    /\ forall i line, lines !! i = Some line ->
         exists year f,
           logFields line = Some f
           /\ stamps !! i
              = Some (toISOString (eventTime year f + Z.of_nat i))
           /\ ((i < 1000)%nat ->
               stamps !! i
               = Some (isoSeconds (eventTime year f) ++ js "."
                       ++ fixedDigits 3 (Z.of_nat i) ++ js "Z")).
Proof.
  intros lines Hkeys.
  destruct (processLogContentLineByLine_run tza deviceId logContent w)
    as (w' & Hrun & Hdisk & _).
  fold lines in Hrun, Hdisk.
  exists (lineStamps tza (later 1 (clock w)) ∅ lines), w'.
  split; [rewrite Hrun; reflexivity|]. split; [exact Hdisk|].
  split; [apply lineStamps_length|].
  intros i line Hi.
  destruct (same_second_stamps tza _ _ _ _ _ Hkeys Hi) as (m & f & Hf & Hst).
  exists (getFullYear tza (later 1 (clock w) m)), f.
  split; [exact Hf|]. split; [exact Hst|].
  intros Hlt. etrans; [exact Hst|]. f_equal.
  apply iso_whole_second_plus; [apply eventTime_whole_seconds|lia].
Qed.

(** The two lines of the specification's example, read in a UTC host. *)
Lemma same_second_hints_witness :
  exists stamps w',
    (processLogContentLineByLine utc (js "unit-a") twoLines sampleWorld).2 = w'
    /\ disk w'
       = written (groupEntries utc
                    (zip_with (entryOf (js "unit-a")) (nonEmptyLines twoLines)
                              stamps) [])
                 (disk sampleWorld)
    /\ length stamps = length (nonEmptyLines twoLines)
    /\ forall i line, nonEmptyLines twoLines !! i = Some line ->
         exists year f,
           logFields line = Some f
           /\ stamps !! i
              = Some (toISOString (eventTime year f + Z.of_nat i))
           /\ ((i < 1000)%nat ->
               stamps !! i
               = Some (isoSeconds (eventTime year f) ++ js "."
                       ++ fixedDigits 3 (Z.of_nat i) ++ js "Z")).
Proof.
  apply (same_second_hints_in_input_order utc (js "unit-a") twoLines
           (js "2025-09-04T05:53:01Z") sampleWorld).
  vm_compute. reflexivity.
Defined.

(** C1 as stated fails: of 1001 lines sharing one second, the last is
    given the hint 1000, and its [log_timestamp] carries the millisecond
    field 000 in the next second. *)
Lemma same_second_hints_counterexample :
  lineKeys utc (later 1 (clock sampleWorld)) (nonEmptyLines manyLines)
  = replicate 1001 (Some (js "2025-09-04T05:53:01Z"))
  /\ stampsAt [0; 999; 1000]%nat
       (recordsOf
          (disk (processLogContentLineByLine utc (js "unit-a") manyLines
                   sampleWorld).2)
          (Incoming, js "2025-09-04-05.log"))
     = [Some (js "2025-09-04T05:53:01.000Z");
        Some (js "2025-09-04T05:53:01.999Z");
        Some (js "2025-09-04T05:53:02.000Z")].
Proof. split; vm_compute; reflexivity. Qed.

(** C2 (as amended).  For a line with a recognised [MMM DD HH:MM:SS] prefix
    and a hint from 0 to 999, [getTimestampFromLog] reads the fields as a
    time of the current calendar year in the zone UTC+7, takes seven hours
    off to reach UTC, and writes the hint as the millisecond field of the
    ISO-8601 instant. *)
Theorem hint_is_millisecond_field tza p i h w :
  wellFormed p = true ->
  lookup (monthStr p) months = Some i ->
  0 <= h <= 999 ->
  let year := getFullYear tza (clock w 0%nat) in
  let local := UTC year i (Number (dayStr p)) (Number (hh p))
                   (Number (mm p)) (Number (ss p)) in
  getTimestampFromLog tza (lineOf p) h w
  = (Return (Some (isoSeconds (local - 7 * msPerHour) ++ js "."
                   ++ fixedDigits 3 h ++ js "Z")),
     tick w).
Proof.
  intros Hp Hi Hh year local.
  rewrite (getTimestampFromLog_some tza _ _ _ _ (logFields_lineOf p i Hp Hi)).
  fold year.
  pose proof (eventTime_whole_seconds year
                {| monthIndex := i; day := Number (dayStr p);
                   hours := Number (hh p); minutes := Number (mm p);
                   seconds := Number (ss p) |}) as H0.
  rewrite eventTime_fields in *. fold local in H0 |- *.
  rewrite (iso_whole_second_plus _ h H0 Hh). reflexivity.
Qed.

Lemma hint_is_millisecond_field_witness :
  getTimestampFromLog utc (lineOf bootPrefix) 1 sampleWorld
  = (Return (Some (isoSeconds
                     (UTC (getFullYear utc (clock sampleWorld 0%nat)) 8
                          (Number (js "04")) (Number (js "12"))
                          (Number (js "53")) (Number (js "01"))
                      - 7 * msPerHour)
                   ++ js "." ++ fixedDigits 3 1 ++ js "Z")),
     tick sampleWorld).
Proof.
  apply (hint_is_millisecond_field utc bootPrefix 8 1 sampleWorld);
    [reflexivity|reflexivity|lia].
Defined.

(** C2 as stated fails at the hint 1000: the instant is a whole second
    later, and its millisecond field is 0. *)
Lemma hint_is_millisecond_field_counterexample :
  (getTimestampFromLog utc bootLine 0 sampleWorld).1
  = Return (Some (js "2025-09-04T05:53:01.000Z"))
  /\ (getTimestampFromLog utc bootLine 1000 sampleWorld).1
     = Return (Some (js "2025-09-04T05:53:02.000Z"))
  /\ msFromTime <$> parseISO (js "2025-09-04T05:53:02.000Z") = Some 0.
Proof. repeat split; vm_compute; reflexivity. Qed.

(** C10.  A hint [h >= 1000] does not stay in the base second: the instant
    is the base second plus [h] milliseconds, so its seconds advance by
    [h / 1000] and its millisecond field is [h mod 1000].  Hence of the lines
    of one submission that share a second, those from the 1001st on are
    stamped in later seconds, and at the end of an hour they land in the
    bucket of the next hour. *)
Theorem overflowing_hint_advances_seconds tza p i h deviceId lines k w w0 :
  wellFormed p = true ->
  lookup (monthStr p) months = Some i ->
  1000 <= h ->
  lineKeys tza (clock w0) lines = replicate (length lines) (Some k) ->
  let year := getFullYear tza (clock w 0%nat) in
  let base := UTC year i (Number (dayStr p)) (Number (hh p))
                  (Number (mm p)) (Number (ss p)) - 7 * msPerHour in
  (getTimestampFromLog tza (lineOf p) h w).1
  = Return (Some (isoSeconds (base + 1000 * (h / 1000)) ++ js "."
                  ++ fixedDigits 3 (h mod 1000) ++ js "Z"))
  /\ (getTimestampFromLog tza (lineOf p) h w).1
     = Return (Some (toISOString (base + h)))
  /\ msFromTime base = 0
  /\ (validTime (base + h) -> parseISO (toISOString (base + h)) = Some (base + h))
  /\ (exists stamps,
        (processLines tza deviceId lines ∅ [] w0).1
        = Return (groupEntries tza (zip_with (entryOf deviceId) lines stamps) [])
        /\ forall j line, lines !! j = Some line -> (1000 <= j)%nat ->
             exists year' f,
               logFields line = Some f
               /\ stamps !! j
                  = Some (isoSeconds (eventTime year' f
                                      + 1000 * (Z.of_nat j / 1000))
                          ++ js "." ++ fixedDigits 3 (Z.of_nat j mod 1000)
                          ++ js "Z"))
  /\ bucketSummary
       (disk (processLogContentLineByLine utc (js "unit-a") manyLinesAtHourEnd
                sampleWorld).2)
       [js "2025-09-04-05.log"; js "2025-09-04-06.log"]
     = [(1000%nat, Some (js "2025-09-04T05:59:59.999Z"));
        (1%nat, Some (js "2025-09-04T06:00:00.000Z"))].
Proof.
  intros Hp Hi Hh Hkeys year base.
  pose proof (getTimestampFromLog_some tza _ h _ w (logFields_lineOf p i Hp Hi))
    as Hrun.
  fold year in Hrun.
  pose proof (eventTime_whole_seconds year
                {| monthIndex := i; day := Number (dayStr p);
                   hours := Number (hh p); minutes := Number (mm p);
                   seconds := Number (ss p) |}) as H0.
  pose proof (iso_overflow year
                {| monthIndex := i; day := Number (dayStr p);
                   hours := Number (hh p); minutes := Number (mm p);
                   seconds := Number (ss p) |} h ltac:(lia)) as Hov.
  rewrite eventTime_fields in *. fold base in Hrun, H0, Hov.
  split; [rewrite Hrun, Hov; reflexivity|].
  split; [rewrite Hrun; reflexivity|].
  split; [exact H0|].
  split; [apply parseISO_toISOString|].
  split.
  { destruct (processLines_run tza deviceId lines ∅ [] w0) as (n & w' & Hr & _).
    exists (lineStamps tza (clock w0) ∅ lines).
    split; [rewrite Hr; reflexivity|].
    intros j line Hj Hge.
    destruct (same_second_stamps tza _ _ _ _ _ Hkeys Hj) as (m & f & Hf & Hst).
    exists (getFullYear tza (clock w0 m)), f. split; [exact Hf|].
    etrans; [exact Hst|]. f_equal. apply iso_overflow. lia. }
  exact overflow_crosses_hour.
Qed.

Lemma overflowing_hint_witness :
  (getTimestampFromLog utc (lineOf bootPrefix) 1000 sampleWorld).1
  = Return (Some (toISOString
                    (UTC (getFullYear utc (clock sampleWorld 0%nat)) 8
                         (Number (js "04")) (Number (js "12"))
                         (Number (js "53")) (Number (js "01"))
                     - 7 * msPerHour + 1000))).
Proof.
  refine (proj1 (proj2
    (overflowing_hint_advances_seconds utc bootPrefix 8 1000 (js "unit-a")
       (nonEmptyLines twoLines) (js "2025-09-04T05:53:01Z") sampleWorld
       sampleWorld _ _ _ _)));
    [reflexivity|reflexivity|lia|vm_compute; reflexivity].
Defined.

(** C6 (as amended).  A line with a recognised timestamp prefix is filed
    under the hour key of its resolved event time: the time parsed out of
    the line, seven hours off, plus its sequence hint; the clock gives only
    the calendar year.  A line without one is filed under the hour key of
    the wall-clock time at which it is processed. *)
Theorem bucket_follows_resolved_time tza deviceId line sc fe w :
  (forall f, logFields line = Some f ->
     let k := secondKeyOf
                (toISOString (eventTime (getFullYear tza (clock w 0%nat)) f)) in
     let c := default 0 (sc !! k) in
     let T := eventTime (getFullYear tza (clock w 1%nat)) f + c in
     validTime T ->
     (processLine tza deviceId line sc fe w).1
     = Return (<[k := c + 1]> sc,
               pushEntry (getHourKey tza T ++ js ".log")
                         (entryOf deviceId line (toISOString T)) fe))
  /\ (~ recognised line ->
      validTime (clock w 0%nat) ->
      (processLine tza deviceId line sc fe w).1
      = Return (sc,
                pushEntry (getHourKey tza (clock w 0%nat) ++ js ".log")
                          (entryOf deviceId line (toISOString (clock w 0%nat)))
                          fe)).
Proof.
  split.
  - intros f Hf k c T HT.
    rewrite (processLine_some tza deviceId line f sc fe w Hf).
    cbv zeta. fold k. fold c. fold T. cbn [fst].
    rewrite (bucketOf_toISOString tza T HT). reflexivity.
  - intros Hn Hv. apply logFields_not_recognised in Hn.
    rewrite (processLine_none tza deviceId line sc fe w Hn).
    cbv zeta. cbn [fst].
    rewrite (bucketOf_toISOString tza _ Hv). reflexivity.
Qed.

Lemma bucket_follows_resolved_time_witness :
  (processLine utc (js "unit-a") bootLine ∅ [] sampleWorld).1
  = Return (<[js "2025-09-04T05:53:01Z" := 1]> ∅,
            [(js "2025-09-04-05.log",
              [entryOf (js "unit-a") bootLine (js "2025-09-04T05:53:01.000Z")])]).
Proof.
  refine (eq_trans
    (proj1 (bucket_follows_resolved_time utc (js "unit-a") bootLine ∅ []
              sampleWorld)
       {| monthIndex := 8; day := 4; hours := 12; minutes := 53; seconds := 1 |}
       _ _) _).
  - vm_compute. reflexivity.
  - unfold validTime. vm_compute. split; discriminate.
  - vm_compute. reflexivity.
Defined.

(** C6 as stated fails: a line without a timestamp is filed by the wall
    clock, so the same line lands in the bucket of whatever hour it is
    received in. *)
Lemma bucket_follows_resolved_time_counterexample :
  ~ recognised (js "link is up")
  /\ (processLine utc (js "unit-a") (js "link is up") ∅ []
        (worldAt 1756990381045)).1
     = Return (∅, [(js "2025-09-04-12.log",
                    [entryOf (js "unit-a") (js "link is up")
                             (js "2025-09-04T12:53:01.045Z")])])
  /\ (processLine utc (js "unit-a") (js "link is up") ∅ []
        (worldAt 1756994000000)).1
     = Return (∅, [(js "2025-09-04-13.log",
                    [entryOf (js "unit-a") (js "link is up")
                             (js "2025-09-04T13:53:20.000Z")])]).
Proof.
  split; [apply logFields_not_recognised; reflexivity|].
  split; vm_compute; reflexivity.
Qed.

(** C8.  [getTimestampFromLog] answers [null] exactly for the lines that do
    not start with a well-formed [MMM DD HH:MM:SS] prefix under one of the
    twelve month abbreviations [Jan] ... [Dec]; for such a line the loop
    takes the current wall-clock time as the timestamp; and a call on a text
    made of the lines [ls] (every text is made of lines in this way)
    produces exactly one entry for each line of [ls] that is not empty, in
    order, with the line as its message and, for a line without such a
    prefix, a reading of the wall clock as its timestamp, all of them
    appended to the bucket files. *)
Theorem parse_error_falls_back_to_wall_clock
    tza deviceId ls line idx sc fe w :
  Forall oneLine ls ->
  ((getTimestampFromLog tza line idx w).1 = Return None <-> ~ timestamped line)
  /\ (~ timestamped line ->
      processLine tza deviceId line sc fe w
      = (Return (sc,
                 pushEntry (bucketOf tza (toISOString (clock w 0%nat)))
                   (entryOf deviceId line (toISOString (clock w 0%nat))) fe),
         tick w))
  /\ (exists es r w',
        processLogContentLineByLine tza deviceId (joinLines ls) w = (Return r, w')
        /\ map message es = filter (fun l => l <> []) ls
        /\ linesProcessed r = Z.of_nat (length es)
        /\ Forall (fun e => device_id e = deviceId) es
        /\ (forall e, e ∈ es -> ~ timestamped (message e) ->
              exists n, log_timestamp e = toISOString (clock w n))
        /\ disk w' = written (groupEntries tza es []) (disk w)
        /\ concat (groupEntries tza es []).*2 ≡ₚ es
        /\ NoDup (groupEntries tza es []).*1)
  /\ (forall logContent : jsstring,
        exists ls', Forall oneLine ls' /\ joinLines ls' = logContent).
Proof.
  intros Hls. split; [|split; [|split; [|exact lines_of_text]]].
  - rewrite timestamped_recognised, <- logFields_not_recognised.
    destruct (logFields line) as [f|] eqn:E.
    + rewrite (getTimestampFromLog_some tza line idx f w E). cbn [fst].
      split; discriminate.
    + rewrite (getTimestampFromLog_none tza line idx w E). cbn [fst].
      split; reflexivity.
  - intros Hn. rewrite timestamped_recognised in Hn.
    apply logFields_not_recognised in Hn.
    apply (processLine_none tza deviceId line sc fe w Hn).
  - destruct (processLogContentLineByLine_run tza deviceId (joinLines ls) w)
      as (w' & Hrun & Hdisk & _).
    rewrite (nonEmptyLines_joinLines ls Hls) in Hrun, Hdisk.
    set (lines := filter (fun l => l <> []) ls) in *.
    set (stamps := lineStamps tza (later 1 (clock w)) ∅ lines) in *.
    assert (Hlen : length stamps = length lines) by apply lineStamps_length.
    exists (zip_with (entryOf deviceId) lines stamps). eexists. exists w'.
    split; [exact Hrun|].
    split; [apply zip_entries_messages, Hlen|].
    split.
    { rewrite length_zip_with, Hlen, Nat.min_id.
      destruct lines; reflexivity. }
    split; [apply zip_entries_devices|].
    split.
    { intros e He Hn. rewrite timestamped_recognised in Hn.
      apply logFields_not_recognised in Hn.
      destruct (zip_entries_lookup _ _ _ _ He) as (i & Hi & Hs).
      pose proof (lineStamps_lookup tza lines (later 1 (clock w)) ∅ i _ Hi) as H.
      rewrite Hn in H. destruct H as (_ & m & Hm).
      exists (1 + m)%nat. fold stamps in Hm. unfold later in Hm. congruence. }
    split; [exact Hdisk|].
    split; [apply (groupEntries_concat tza _ [])|].
    apply groupEntries_names. constructor.
Qed.

(** The three lines of [mixedLines], read in a UTC host. *)
Lemma parse_error_witness :
  exists es r w',
    processLogContentLineByLine utc (js "unit-a") (joinLines mixedLines)
      sampleWorld = (Return r, w')
    /\ map message es = filter (fun l => l <> []) mixedLines
    /\ linesProcessed r = Z.of_nat (length es)
    /\ Forall (fun e => device_id e = js "unit-a") es
    /\ (forall e, e ∈ es -> ~ timestamped (message e) ->
          exists n, log_timestamp e = toISOString (clock sampleWorld n))
    /\ disk w' = written (groupEntries utc es []) (disk sampleWorld)
    /\ concat (groupEntries utc es []).*2 ≡ₚ es
    /\ NoDup (groupEntries utc es []).*1.
Proof.
  refine (proj1 (proj2 (proj2
    (parse_error_falls_back_to_wall_clock utc (js "unit-a") mixedLines
       (js "link is up") 0 ∅ [] sampleWorld _)))).
  apply (bool_decide_unpack _). vm_compute. exact I.
Defined.

(** C7 (as amended).  Per batch: in one run of the loop the line at
    position [i] is stamped with the number of earlier lines observed under
    its second-key, so within one key the counters are 0, 1, 2, ... in input
    order.  Process-lifetime: over any successive single-line requests, a
    message that is refused gets no counter, and a message of a second-key
    that [cleanOldCounters] keeps is given the counter stored for that key
    plus one plus the number of earlier messages of that key (1, 2, 3, ...
    for a key with no counter yet); requests of other seconds and refused
    requests in between do not disturb the count. *)
Theorem counters_increase_per_second_key
    tza dateParse deviceId lines w messages wl :
  (let keys := lineKeys tza (clock w) lines in
   exists stamps,
     (processLines tza deviceId lines ∅ [] w).1
     = Return (groupEntries tza (zip_with (entryOf deviceId) lines stamps) [])
     /\ length stamps = length lines
     /\ forall i line key,
          lines !! i = Some line -> keys !! i = Some (Some key) ->
          exists year f,
            logFields line = Some f
            /\ stamps !! i
               = Some (toISOString (eventTime year f + seenBefore key i keys)))
  /\ (let keys := requestKeys tza dateParse (clock wl) messages in
      exists answers,
        (parseRequests tza dateParse messages wl).1 = Return answers
        /\ length answers = length messages
        /\ (forall i, keys !! i = Some None ->
              exists error, answers !! i = Some (Throw error))
        /\ forall i key,
             keys !! i = Some (Some key) ->
             (forall n, retained key (clock wl n)) ->
             exists r,
               answers !! i = Some (Return r)
               /\ formatTimestampKey (baseTimestamp r) = key
               /\ enhancedTimestamp r
                  = toISOString
                      (baseTimestamp r
                       + (default 0 (timestampCounters wl !! key) + 1
                          + seenBefore key i keys))).
Proof.
  split.
  - intros keys.
    destruct (processLines_run tza deviceId lines ∅ [] w) as (n & w' & Hr & _).
    exists (lineStamps tza (clock w) ∅ lines).
    split; [rewrite Hr; reflexivity|].
    split; [apply lineStamps_length|].
    intros i line key Hi Hk.
    pose proof (lineStamps_lookup tza lines (clock w) ∅ i line Hi) as H.
    destruct (logFields line) as [f|].
    + destruct H as (m & k' & _ & Hk' & Hst). fold keys in Hk', Hst.
      assert (k' = key) as -> by congruence.
      exists (getFullYear tza (clock w (S m))), f.
      split; [reflexivity|]. etrans; [exact Hst|].
      rewrite lookup_empty. cbn [default from_option id].
      rewrite Z.add_0_l. reflexivity.
    + destruct H as (Hk' & _). fold keys in Hk'. congruence.
  - intros keys.
    destruct (parseRequests_counters tza dateParse messages wl)
      as (cs & w' & Hr & Hlen & Hno & Hyes).
    exists cs. split; [rewrite Hr; reflexivity|]. split; [exact Hlen|].
    split; [exact Hno|exact Hyes].
Qed.

(** The four requests of [mixedMessages], read in a UTC host. *)
Lemma counters_increase_witness :
  exists answers,
    (parseRequests utc sampleDateParse mixedMessages sampleWorld).1
    = Return answers
    /\ length answers = length mixedMessages
    /\ (forall i,
          requestKeys utc sampleDateParse (clock sampleWorld) mixedMessages !! i
          = Some None ->
          exists error, answers !! i = Some (Throw error))
    /\ forall i key,
         requestKeys utc sampleDateParse (clock sampleWorld) mixedMessages !! i
         = Some (Some key) ->
         (forall n, retained key (clock sampleWorld n)) ->
         exists r,
           answers !! i = Some (Return r)
           /\ formatTimestampKey (baseTimestamp r) = key
           /\ enhancedTimestamp r
              = toISOString
                  (baseTimestamp r
                   + (default 0 (timestampCounters sampleWorld !! key) + 1
                      + seenBefore key i
                          (requestKeys utc sampleDateParse (clock sampleWorld)
                             mixedMessages))).
Proof.
  exact (proj2 (counters_increase_per_second_key utc sampleDateParse
                  (js "unit-a") [] sampleWorld mixedMessages sampleWorld)).
Defined.

(** C7 as stated fails in the process-lifetime variant: the first message
    of a second is given the counter 1, not 0; and when the second lies
    more than an hour before the wall clock its counter is dropped at once,
    so the next message of that second is given the counter 1 again. *)
Lemma counters_increase_counterexample :
  enhancedTimestamp <$>
    match (parseEach utc sampleDateParse
             [js "Sep 04 12:53:01 unit-a boot"] sampleWorld).1 with
    | Return rs => rs
    | Throw _ => []
    end
  = [js "2025-09-04T12:53:01.001Z"]
  /\ enhancedTimestamp <$>
       match (parseEach utc sampleDateParse
                [js "Sep 04 10:00:00 unit-a boot";
                 js "Sep 04 10:00:00 unit-a ready"] sampleWorld).1 with
       | Return rs => rs
       | Throw _ => []
       end
     = [js "2025-09-04T10:00:00.001Z"; js "2025-09-04T10:00:00.001Z"].
Proof. split; vm_compute; reflexivity. Qed.

(** C3.  A file in the processing directory whose every upload attempt
    fails is tried once and retried exactly three times, with growing
    pauses; then it is in the failed directory beside a sidecar whose
    [retry_attempts] is 3, and neither it nor its compressed copy is left
    in the processing directory. *)
Theorem failed_upload_is_quarantined_after_three_retries
    filename d filesProcessed st w :
  disk w !! (Processing, filename) = Some d ->
  (forall n, s3Outcomes w n <> None) ->
  exists m w',
    processLoop [filename] filesProcessed st w
    = (Return (filesProcessed, failed), w')
    /\ effects w'
       = effects w ++ [UploadAttempt filename 0; Sleep 1000;
                       UploadAttempt filename 1; Sleep 2000;
                       UploadAttempt filename 2; Sleep 3000;
                       UploadAttempt filename 3]
    /\ disk w' !! (Failed, filename) = Some d
    /\ disk w' !! (Failed, filename ++ js ".meta")
       = Some (MetaJson {| Meta.failed_at := toISOString (clock w 0%nat);
                           Meta.error_message := m;
                           Meta.retry_attempts := 3 |})
    /\ disk w' !! (Processing, filename) = None
    /\ disk w' !! (Processing, filename ++ js ".gz") = None.
Proof.
  intros Hd Hs.
  assert (Hgz : filename ++ js ".gz" <> filename) by (apply app_ne_self; discriminate).
  assert (Hmeta : filename ++ js ".meta" <> filename) by (apply app_ne_self; discriminate).
  assert (Htmp : (filename ++ js ".meta") ++ js ".tmp" <> filename).
  { rewrite <- app_assoc. apply app_ne_self. discriminate. }
  assert (Htm : (filename ++ js ".meta") ++ js ".tmp" <> filename ++ js ".meta")
    by (apply app_ne_self; discriminate).
  cbn [processLoop]. rewrite bind_run. unfold tryCatch at 1. rewrite bind_run.
  (* processFile *)
  unfold processFile. cbv zeta. unfold tryCatch at 1. rewrite bind_run.
  rewrite (compressFile_present _ _ _ _ Hd). rewrite bind_run.
  unfold uploadToS3.
  set (w1 := setDisk _ w).
  destruct (uploadToS3From_all_fail (Processing, filename ++ js ".gz") filename
              (Z.to_nat config.maxRetries) 0 w1) as (m & w2 & -> & Hf & He);
    [exact Hs|reflexivity|].
  destruct Hf as (Hc2 & Hd2 & _).
  rewrite bind_run. unfold tryCatch at 1.
  assert (Hgz2 : disk w2 !! (Processing, filename ++ js ".gz") = Some (Gzip d)).
  { rewrite Hd2. apply lookup_insert_eq. }
  rewrite (unlink_present _ _ _ Hgz2).
  unfold throw. cbv beta iota.
  (* handleFailedFile *)
  rewrite bind_run. unfold handleFailedFile, tryCatch at 1. rewrite bind_run.
  set (w3 := setDisk _ w2).
  assert (Hd3 : disk w3 !! (Processing, filename) = Some d).
  { subst w3. cbn [disk setDisk]. rewrite lookup_delete_ne by congruence.
    rewrite Hd2. subst w1. cbn [disk setDisk].
    rewrite lookup_insert_ne by congruence. exact Hd. }
  rewrite (moveFile_present _ _ _ _ Hd3).
  rewrite bind_run, now_run, writeJsonFile_run.
  unfold mret, IO_ret, ret. cbv beta iota.
  exists m. eexists. split; [reflexivity|].
  cbn [disk setDisk effects setClock tick clock fst snd]. subst w3.
  cbn [disk setDisk effects setClock tick clock]. rewrite Hc2, Hd2.
  subst w1. cbn [clock disk setDisk].
  split; [rewrite He; reflexivity|].
  split.
  { rewrite lookup_insert_ne by congruence.
    rewrite lookup_delete_ne by congruence.
    rewrite lookup_insert_ne by congruence.
    apply lookup_insert_eq. }
  split; [apply lookup_insert_eq|].
  split.
  { rewrite lookup_insert_ne by congruence.
    rewrite lookup_delete_ne by congruence.
    rewrite lookup_insert_ne by congruence.
    rewrite lookup_insert_ne by congruence.
    apply lookup_delete_eq. }
  rewrite lookup_insert_ne by congruence.
  rewrite lookup_delete_ne by congruence.
  rewrite lookup_insert_ne by congruence.
  rewrite lookup_insert_ne by congruence.
  rewrite lookup_delete_ne by congruence.
  apply lookup_delete_eq.
Qed.

Lemma failed_upload_witness :
  exists m w',
    processLoop [js "2025-09-04-05.log"] 0 success worldWithSweptFile
    = (Return (0, failed), w')
    /\ effects w'
       = effects worldWithSweptFile
         ++ [UploadAttempt (js "2025-09-04-05.log") 0; Sleep 1000;
             UploadAttempt (js "2025-09-04-05.log") 1; Sleep 2000;
             UploadAttempt (js "2025-09-04-05.log") 2; Sleep 3000;
             UploadAttempt (js "2025-09-04-05.log") 3]
    /\ disk w' !! (Failed, js "2025-09-04-05.log") = Some (Lines [sampleEntry])
    /\ disk w' !! (Failed, js "2025-09-04-05.log" ++ js ".meta")
       = Some (MetaJson
                 {| Meta.failed_at := toISOString (clock worldWithSweptFile 0%nat);
                    Meta.error_message := m;
                    Meta.retry_attempts := 3 |})
    /\ disk w' !! (Processing, js "2025-09-04-05.log") = None
    /\ disk w' !! (Processing, js "2025-09-04-05.log" ++ js ".gz") = None.
Proof.
  apply (failed_upload_is_quarantined_after_three_retries
           (js "2025-09-04-05.log") (Lines [sampleEntry]) 0 success
           worldWithSweptFile).
  - vm_compute. reflexivity.
  - intros n. discriminate.
Defined.

(** C4: the code at its failing input.  The sweep takes the hour from one
    reading of the clock and the date from the next.  Started in the last
    millisecond of 2025-09-04, it compares the names with the key
    [2025-09-05-23], which is the hour key of neither reading, and relocates
    both the bucket of 23h and the bucket of 0h: the bucket of the current
    hour is relocated, whichever reading is taken for the current time.
    Started in the last millisecond of the hour 12, it keeps the bucket of
    12h and relocates the bucket of 13h, the hour that has begun. *)
Theorem sweep_relocates_current_hour_at_hour_change :
  (getHourKey utc (clock worldAtMidnight 0%nat) = js "2025-09-04-23"
   /\ getHourKey utc (clock worldAtMidnight 1%nat) = js "2025-09-05-00"
   /\ currentHourKey utc (clock worldAtMidnight 0%nat) (clock worldAtMidnight 1%nat)
      = js "2025-09-05-23"
   /\ exists swept w',
        sweepCompletedFiles utc worldAtMidnight = (Return swept, w')
        /\ js "2025-09-04-23.log" ∈ swept /\ js "2025-09-05-00.log" ∈ swept
        /\ disk w' !! ((Processing, js "2025-09-04-23.log") : Path)
           = Some (Lines [sampleEntry])
        /\ disk w' !! ((Processing, js "2025-09-05-00.log") : Path)
           = Some (Lines [sampleEntry])
        /\ disk w' !! ((Incoming, js "2025-09-04-23.log") : Path) = None
        /\ disk w' !! ((Incoming, js "2025-09-05-00.log") : Path) = None)
  /\ (getHourKey utc (clock worldAtHourChange 0%nat) = js "2025-09-04-12"
      /\ getHourKey utc (clock worldAtHourChange 1%nat) = js "2025-09-04-13"
      /\ currentHourKey utc (clock worldAtHourChange 0%nat)
           (clock worldAtHourChange 1%nat) = js "2025-09-04-12"
      /\ exists w',
           sweepCompletedFiles utc worldAtHourChange
           = (Return [js "2025-09-04-13.log"], w')
           /\ disk w' !! ((Processing, js "2025-09-04-13.log") : Path)
              = Some (Lines [sampleEntry])
           /\ disk w' !! ((Incoming, js "2025-09-04-13.log") : Path) = None
           /\ disk w' !! ((Incoming, js "2025-09-04-12.log") : Path)
              = Some (Lines [sampleEntry])).
Proof.
  split.
  - split; [vm_compute; reflexivity|]. split; [vm_compute; reflexivity|].
    split; [vm_compute; reflexivity|].
    exists [js "2025-09-04-23.log"; js "2025-09-05-00.log"],
           (sweepCompletedFiles utc worldAtMidnight).2.
    split; [vm_compute; reflexivity|].
    split; [apply list_elem_of_here|].
    split; [apply list_elem_of_further, list_elem_of_here|].
    split; [vm_compute; reflexivity|]. split; [vm_compute; reflexivity|].
    split; vm_compute; reflexivity.
  - split; [vm_compute; reflexivity|]. split; [vm_compute; reflexivity|].
    split; [vm_compute; reflexivity|].
    exists (sweepCompletedFiles utc worldAtHourChange).2.
    split; [vm_compute; reflexivity|]. split; [vm_compute; reflexivity|].
    split; vm_compute; reflexivity.
Qed.

(** C5.  A cycle started while [isProcessing] is set returns at once and
    leaves the world as it found it: no file is swept or processed, no
    status is written, no effect is recorded. *)
Theorem run_while_processing_is_noop tza w :
  isProcessing w = true -> run tza w = (Return tt, w).
Proof.
  intros H. unfold run. rewrite bind_run. unfold gets at 1. rewrite H.
  reflexivity.
Qed.

Lemma run_while_processing_witness :
  run utc (setIsProcessing true worldWithBuckets)
  = (Return tt, setIsProcessing true worldWithBuckets).
Proof.
  apply (run_while_processing_is_noop utc (setIsProcessing true worldWithBuckets)).
  reflexivity.
Defined.

(** C9: the code at its failing input.  One ingestion call is made at
    [sampleTime]; ten minutes later no call lies within the last five
    minutes, so the rate by the specification is 0.0, yet
    [getIngestionRate] still answers 0.2: the list of recent requests is
    pruned only when a request arrives, never when the rate is read. *)
Theorem ingestion_rate_counts_stale_calls :
  let w1 := (processLogContentLineByLine utc (js "unit-a") twoLines
               (worldAt sampleTime)).2 in
  let w2 := setClock (fun _ => sampleTime + 10 * 60 * 1000) w1 in
  (getIngestionRate w2).1 = Return (2 # 10)%Q
  /\ ingestionRateAt [sampleTime] (clock w2 0%nat) = (0 # 10)%Q.
Proof. split; vm_compute; reflexivity. Qed.

(** * Further properties of the code *)

Import Http UploadRoute MonitoringRoute.
Import BucketSpec RetrySpec GroupSpec RouteSpec StatusSpec Scenarios.
Import KeyFacts RetryFacts SweepFacts CycleFacts NumeralFacts GroupFacts.
Import RouteFacts MonitoringFacts OrderFacts SortFacts QuietFacts PrefixFacts.
Import HourChangeFacts.

(** The sample bucket has the name of a bucket file. *)
Lemma isBucketName_sampleBucket : isBucketName sampleBucket.
Proof.
  exists (js "2025"), (js "09"), (js "04"), (js "05").
  split; [repeat split|reflexivity].
Qed.

(** X1.  The S3 key of a bucket file [YYYY-MM-DD-HH.log] is
    [logs/year=YYYY/month=MM/day=DD/hour=HH/YYYY-MM-DD-HH_<suffix>.log.gz]:
    the partitions are the fields of the name, and replacing the first
    [".log"] by nothing takes off the extension, since the name holds no
    other dot. *)
Theorem s3_key_of_bucket_file y m d h w :
  bucketFields y m d h ->
  (generateS3Key (bucketStem y m d h ++ js ".log") w).1
  = Return (js "logs/year=" ++ y ++ js "/month=" ++ m ++ js "/day=" ++ d
            ++ js "/hour=" ++ h ++ js "/" ++ bucketStem y m d h ++ js "_"
            ++ randomSuffixes w 0%nat ++ js ".log.gz").
Proof.
  intros Hf. unfold generateS3Key.
  rewrite (matchBucketFilename_fields _ _ _ _ Hf).
  rewrite bind_run. unfold randomSuffix. cbv beta iota.
  rewrite (removeFirst_extension _ _ _ _ Hf).
  unfold mret, IO_ret, ret. cbn [fst]. f_equal.
  change config.s3KeyPrefix with (js "logs").
  change (js "logs/year=") with (js "logs" ++ js "/year=").
  change (js ".log.gz") with (js ".log" ++ js ".gz").
  rewrite <- !app_assoc. reflexivity.
Qed.

Lemma s3_key_of_bucket_file_witness :
  (generateS3Key (bucketStem (js "2025") (js "09") (js "04") (js "05") ++ js ".log")
                 sampleWorld).1
  = Return (js "logs/year=" ++ js "2025" ++ js "/month=" ++ js "09" ++ js "/day="
            ++ js "04" ++ js "/hour=" ++ js "05" ++ js "/"
            ++ bucketStem (js "2025") (js "09") (js "04") (js "05") ++ js "_"
            ++ randomSuffixes sampleWorld 0%nat ++ js ".log.gz").
Proof.
  apply (s3_key_of_bucket_file (js "2025") (js "09") (js "04") (js "05") sampleWorld).
  repeat split.
Defined.

(** X2.  The bucket files the ingestion path names are accepted by the
    uploader: for a time in a four-digit local year, the S3 key of
    [getHourKey(t) + ".log"] is partitioned by the local year, month, day and
    hour of [t], and the object is named by the hour key and the random
    suffix. *)
Theorem bucket_of_a_time_gets_its_partition tza t w :
  1000 <= getFullYear tza t <= 9999 ->
  (generateS3Key (getHourKey tza t ++ js ".log") w).1
  = Return (js "logs/year=" ++ fixedDigits 4 (getFullYear tza t)
            ++ js "/month=" ++ fixedDigits 2 (getMonth tza t + 1)
            ++ js "/day=" ++ fixedDigits 2 (getDate tza t)
            ++ js "/hour=" ++ fixedDigits 2 (getHours tza t)
            ++ js "/" ++ getHourKey tza t ++ js "_" ++ randomSuffixes w 0%nat
            ++ js ".log.gz").
Proof.
  intros Hy. rewrite (getHourKey_fields tza t Hy).
  set (y := fixedDigits 4 _). set (m := fixedDigits 2 _).
  set (d := fixedDigits 2 _). set (h := fixedDigits 2 _).
  assert (Hf : bucketFields y m d h).
  { unfold bucketFields. subst y m d h. rewrite !fixedDigits_length.
    repeat split. unfold allDigits. rewrite !forallb_app.
    fold (allDigits (fixedDigits 4 (getFullYear tza t))).
    fold (allDigits (fixedDigits 2 (getMonth tza t + 1))).
    fold (allDigits (fixedDigits 2 (getDate tza t))).
    fold (allDigits (fixedDigits 2 (getHours tza t))).
    rewrite !allDigits_fixedDigits. reflexivity. }
  unfold generateS3Key.
  rewrite (matchBucketFilename_fields _ _ _ _ Hf).
  rewrite bind_run. unfold randomSuffix. cbv beta iota.
  rewrite (removeFirst_extension _ _ _ _ Hf).
  unfold mret, IO_ret, ret. cbn [fst]. f_equal.
  change config.s3KeyPrefix with (js "logs").
  change (js "logs/year=") with (js "logs" ++ js "/year=").
  change (js ".log.gz") with (js ".log" ++ js ".gz").
  rewrite <- !app_assoc. reflexivity.
Qed.

Lemma bucket_of_a_time_witness :
  (generateS3Key (getHourKey utc sampleTime ++ js ".log") sampleWorld).1
  = Return (js "logs/year=" ++ fixedDigits 4 (getFullYear utc sampleTime)
            ++ js "/month=" ++ fixedDigits 2 (getMonth utc sampleTime + 1)
            ++ js "/day=" ++ fixedDigits 2 (getDate utc sampleTime)
            ++ js "/hour=" ++ fixedDigits 2 (getHours utc sampleTime)
            ++ js "/" ++ getHourKey utc sampleTime ++ js "_"
            ++ randomSuffixes sampleWorld 0%nat ++ js ".log.gz").
Proof.
  apply (bucket_of_a_time_gets_its_partition utc sampleTime sampleWorld).
  vm_compute. split; discriminate.
Defined.

(** X3.  A file whose name is not a bucket name is never sent to S3: each of
    the four attempts fails on the name, before a suffix is drawn or the
    store is called; the pauses of 1, 2 and 3 seconds are still taken. *)
Theorem upload_of_misnamed_file_never_reaches_store filePath name w :
  ~ isBucketName name ->
  uploadToS3 filePath name w
  = (Throw (js "Invalid filename format: " ++ name),
     afterAttempts 0 0
       [UploadAttempt name 0; Sleep 1000; UploadAttempt name 1; Sleep 2000;
        UploadAttempt name 2; Sleep 3000; UploadAttempt name 3] w).
Proof.
  intros Hn. rewrite isBucketName_match in Hn.
  assert (Hm : matchBucketFilename name = None).
  { destruct (matchBucketFilename name); [exfalso; apply Hn; discriminate|reflexivity]. }
  unfold uploadToS3.
  rewrite (uploadToS3From_invalid filePath name _ 0 w Hm); reflexivity.
Qed.

Lemma upload_of_misnamed_file_witness :
  uploadToS3 (Processing, js "NaN-NaN-NaN-NaN.log.gz") (js "NaN-NaN-NaN-NaN.log")
             sampleWorld
  = (Throw (js "Invalid filename format: " ++ js "NaN-NaN-NaN-NaN.log"),
     afterAttempts 0 0
       [UploadAttempt (js "NaN-NaN-NaN-NaN.log") 0; Sleep 1000;
        UploadAttempt (js "NaN-NaN-NaN-NaN.log") 1; Sleep 2000;
        UploadAttempt (js "NaN-NaN-NaN-NaN.log") 2; Sleep 3000;
        UploadAttempt (js "NaN-NaN-NaN-NaN.log") 3] sampleWorld).
Proof.
  apply (upload_of_misnamed_file_never_reaches_store
           (Processing, js "NaN-NaN-NaN-NaN.log.gz") (js "NaN-NaN-NaN-NaN.log")
           sampleWorld).
  intros H. apply isBucketName_match in H. apply H. reflexivity.
Defined.

(** X4.  An upload that the store refuses [k <= 3] times and then accepts
    returns after [k + 1] attempts, with a pause of [1000 * i] ms after the
    i-th refusal; it draws one suffix and one answer of the store per attempt
    and changes nothing else. *)
Theorem upload_stops_at_first_success filePath name k w :
  isBucketName name ->
  (k <= 3)%nat ->
  (forall i, (i < k)%nat -> s3Outcomes w i <> None) ->
  s3Outcomes w k = None ->
  uploadToS3 filePath name w
  = (Return tt, afterAttempts (S k) (S k) (failedAttempts name 0 k) w).
Proof.
  intros Hn Hk Hfail Hok. rewrite isBucketName_match in Hn.
  unfold uploadToS3.
  apply uploadToS3From_succeeds; try assumption.
  change config.maxRetries with 3. lia.
Qed.

Lemma upload_stops_at_first_success_witness :
  uploadToS3 (Processing, sampleBucket ++ js ".gz") sampleBucket worldWithSlowStore
  = (Return tt,
     afterAttempts 3 3 (failedAttempts sampleBucket 0 2) worldWithSlowStore).
Proof.
  apply (upload_stops_at_first_success (Processing, sampleBucket ++ js ".gz")
           sampleBucket 2 worldWithSlowStore).
  - exact isBucketName_sampleBucket.
  - lia.
  - intros [|[|i]] Hi; [discriminate|discriminate|lia].
  - reflexivity.
Defined.

(** X5.  A file that reaches the store within the retries is gone from the
    processing directory afterwards, together with the compressed copy made
    for the upload; no other file changes. *)
Theorem uploaded_file_leaves_no_copy name data k w :
  disk w !! (Processing, name) = Some data ->
  isBucketName name ->
  (k <= 3)%nat ->
  (forall i, (i < k)%nat -> s3Outcomes w i <> None) ->
  s3Outcomes w k = None ->
  processFile name w
  = (Return tt,
     setDisk (delete (Processing, name ++ js ".gz")
                (delete (Processing, name) (disk w)))
       (afterAttempts (S k) (S k) (failedAttempts name 0 k) w)).
Proof.
  intros Hd Hn Hk Hfail Hok. rewrite isBucketName_match in Hn.
  assert (Hne : (Processing, name) <> (Processing, name ++ js ".gz")).
  { intros [= H]. symmetry in H. revert H. apply app_ne_self. discriminate. }
  unfold processFile. cbv zeta. unfold tryCatch at 1.
  rewrite bind_run, (compressFile_present _ _ _ _ Hd), bind_run.
  unfold uploadToS3.
  rewrite (uploadToS3From_succeeds _ name k); try assumption;
    [|change config.maxRetries with 3; lia].
  unfold both.
  rewrite (unlink_present _ data)
    by (cbn [disk afterAttempts setDisk];
        rewrite lookup_insert_ne by congruence; exact Hd).
  rewrite (unlink_present _ (Gzip data))
    by (cbn [disk afterAttempts setDisk];
        rewrite lookup_delete_ne by congruence; apply lookup_insert_eq).
  f_equal. unfold afterAttempts, setDisk. cbn. f_equal.
  rewrite (delete_delete _ (Processing, name ++ js ".gz")), delete_insert_eq.
  apply delete_delete.
Qed.

Lemma uploaded_file_leaves_no_copy_witness :
  processFile sampleBucket (setS3Outcomes (fun _ => None) worldWithSweptFile)
  = (Return tt,
     setDisk (delete (Processing, sampleBucket ++ js ".gz")
                (delete (Processing, sampleBucket)
                   (disk (setS3Outcomes (fun _ => None) worldWithSweptFile))))
       (afterAttempts 1 1 (failedAttempts sampleBucket 0 0)
          (setS3Outcomes (fun _ => None) worldWithSweptFile))).
Proof.
  apply (uploaded_file_leaves_no_copy sampleBucket (Lines [sampleEntry]) 0
           (setS3Outcomes (fun _ => None) worldWithSweptFile)).
  - vm_compute. reflexivity.
  - exact isBucketName_sampleBucket.
  - lia.
  - intros i Hi. lia.
  - reflexivity.
Defined.

(** X6.  A swept file that has vanished from the processing directory fails
    with ENOENT before any upload is tried, and the empty compressed file
    opened for it is removed again. *)
Theorem vanished_file_fails_without_upload name w :
  disk w !! (Processing, name) = None ->
  processFile name w
  = (Throw (js "ENOENT"),
     setDisk (delete (Processing, name ++ js ".gz") (disk w)) w).
Proof.
  intros Hd. unfold processFile. cbv zeta. unfold tryCatch at 1.
  rewrite bind_run, (compressFile_absent _ _ _ Hd).
  rewrite bind_run. unfold tryCatch.
  rewrite (unlink_present _ (Lines [])) by (cbn [disk setDisk]; apply lookup_insert_eq).
  unfold throw. f_equal. unfold setDisk. cbn. f_equal. apply delete_insert_eq.
Qed.

Lemma vanished_file_witness :
  processFile sampleBucket sampleWorld
  = (Throw (js "ENOENT"),
     setDisk (delete (Processing, sampleBucket ++ js ".gz") (disk sampleWorld))
             sampleWorld).
Proof.
  apply (vanished_file_fails_without_upload sampleBucket sampleWorld).
  reflexivity.
Defined.

(** X7.  Quarantining never throws. When the file is no longer in the
    processing directory nothing is written: no sidecar appears for it. *)
Theorem quarantine_never_throws filename errorMessage w :
  (exists w', handleFailedFile filename errorMessage w = (Return tt, w'))
  /\ (disk w !! (Processing, filename) = None ->
      handleFailedFile filename errorMessage w = (Return tt, w)).
Proof.
  split.
  - unfold handleFailedFile, tryCatch.
    destruct ((moveFile _ _ ≫= _) w) as [[[]|m] w']; eexists; reflexivity.
  - intros Hd. unfold handleFailedFile, tryCatch.
    rewrite bind_run, (moveFile_absent _ _ _ Hd). reflexivity.
Qed.

(** X8.  Every [.log] file in the incoming directory whose name does not
    begin with the key of the current hour is moved to the processing
    directory with its content, replacing a file of that name already
    there; the names moved are exactly those, each once, and no other file
    changes. *)
Theorem sweep_moves_every_completed_file tza w :
  let key := currentHourKey tza (clock w 0%nat) (clock w 1%nat) in
  exists swept w',
    sweepCompletedFiles tza w = (Return swept, w')
    /\ NoDup swept
    /\ (forall f, f ∈ swept <->
          is_Some (disk w !! (Incoming, f)) /\ endsWith f (js ".log") = true
          /\ startsWith f key = false)
    /\ (forall f, f ∈ swept ->
          disk w' !! (Processing, f) = disk w !! (Incoming, f)
          /\ disk w' !! (Incoming, f) = None)
    /\ (forall p, p.2 ∉ swept \/ (p.1 <> Incoming /\ p.1 <> Processing) ->
          disk w' !! p = disk w !! p).
Proof.
  intros key. unfold sweepCompletedFiles.
  rewrite bind_run, now_run, bind_run, now_run.
  change (clock (tick w) 0%nat) with (clock w 1%nat). cbv zeta. fold key.
  rewrite bind_run.
  destruct (listFiles_spec Incoming (completed key) (tick (tick w)))
    as (l & -> & Hnd & Hl).
  destruct (sweepLoop_moves l [] (tick (tick w)) Hnd) as (w' & -> & _ & Hm & Hk).
  { intros f Hf. apply Hl in Hf as [Hf _]. exact Hf. }
  exists l, w'. cbn [app]. split; [reflexivity|]. split; [exact Hnd|].
  split; [|split; [exact Hm|exact Hk]].
  intros f. rewrite Hl. unfold completed. cbn [disk tick setClock].
  rewrite andb_true_iff, negb_true_iff. tauto.
Qed.



(** X10.  A cycle writes the status exactly twice: [running] with the start
    time first, and a finished status, [success] or [failed], last; the
    sweep, the uploads and the quarantine in between write none. *)
Theorem cycle_writes_the_status_twice tza w :
  isProcessing w = false ->
  exists st finishedAt duration n,
    statusWrites (effects (run tza w).2)
    = statusWrites (effects w)
      ++ [ {| status := running;
              started_at := Some (toISOString (clock w 1%nat));
              finished_at := None; duration_ms := None;
              files_processed := None; error_message := None |};
           {| status := st; started_at := None;
              finished_at := Some finishedAt; duration_ms := Some duration;
              files_processed := Some n; error_message := None |} ]
    /\ (st = success \/ st = failed).
Proof.
  intros Hb. unfold run. rewrite bind_run. unfold gets at 1. rewrite Hb.
  rewrite bind_run. unfold modify at 1. rewrite bind_run, now_run.
  unfold finally, tryCatch, cycle.
  rewrite bind_run, now_run, bind_run, updateStatus_run, bind_run.
  set (w1 := emit _ _).
  pose proof (quiet_sweepCompletedFiles tza w1) as Hq1.
  destruct (sweepCompletedFiles_run tza w1) as (swept & w2 & Hsw & _).
  rewrite Hsw in Hq1 |- *. cbn [snd] in Hq1. rewrite bind_run.
  pose proof (quiet_processLoop swept 0 success w2) as Hq2.
  destruct (processLoop_returns swept 0 success w2) as (n & st & w3 & Hpl & _ & _ & Hst).
  rewrite Hpl in Hq2 |- *. cbn [snd] in Hq2.
  rewrite bind_run, now_run, bind_run, now_run, updateStatus_run.
  eexists st, _, _, n. split.
  - cbn [snd effects emit setDisk setIsProcessing tick setClock fst].
    rewrite statusWrites_snoc, Hq2, Hq1. subst w1.
    cbn [effects emit setDisk setIsProcessing tick setClock].
    rewrite statusWrites_snoc, <- app_assoc. reflexivity.
  - destruct (Hst eq_refl) as [[-> _]|[-> _]]; auto.
Qed.

Lemma cycle_writes_the_status_twice_witness :
  exists st finishedAt duration n,
    statusWrites (effects (run utc worldWithBuckets).2)
    = statusWrites (effects worldWithBuckets)
      ++ [ {| status := running;
              started_at := Some (toISOString (clock worldWithBuckets 1%nat));
              finished_at := None; duration_ms := None;
              files_processed := None; error_message := None |};
           {| status := st; started_at := None;
              finished_at := Some finishedAt; duration_ms := Some duration;
              files_processed := Some n; error_message := None |} ]
    /\ (st = success \/ st = failed).
Proof.
  apply (cycle_writes_the_status_twice utc worldWithBuckets). reflexivity.
Defined.

(** X11.  Content without a non-empty line (empty, or line breaks only) is
    answered with [success: false] and no line or file counted; nothing is
    written, but the call is still recorded for the ingestion rate. *)
Theorem blank_content_is_counted_but_writes_nothing tza deviceId logContent w :
  Forall (fun c => c = 10%N) logContent ->
  processLogContentLineByLine tza deviceId logContent w
  = (Return {| result_success := false; linesProcessed := 0; filesWritten := 0 |},
     setRecentRequests
       (List.filter (fun timestamp => clock w 0%nat - 5 * 60 * 1000 <? timestamp)
                    (recentRequests w ++ [clock w 0%nat]))
       (tick w)).
Proof.
  intros Hb. unfold processLogContentLineByLine.
  rewrite bind_run, trackRequest_run.
  rewrite (nonEmptyLines_blank _ Hb). reflexivity.
Qed.

Lemma blank_content_witness :
  processLogContentLineByLine utc (js "unit-a") [10%N; 10%N] sampleWorld
  = (Return {| result_success := false; linesProcessed := 0; filesWritten := 0 |},
     setRecentRequests
       (List.filter
          (fun timestamp => clock sampleWorld 0%nat - 5 * 60 * 1000 <? timestamp)
          (recentRequests sampleWorld ++ [clock sampleWorld 0%nat]))
       (tick sampleWorld)).
Proof.
  apply (blank_content_is_counted_but_writes_nothing utc (js "unit-a")
           [10%N; 10%N] sampleWorld).
  repeat constructor.
Defined.

(** X12.  One call appends to each bucket file the entries that belong to it,
    in the order of their lines in the input, after the records the file
    already held; it creates the files that were missing and touches no file
    outside the incoming directory. *)
Theorem bucket_files_grow_in_input_order tza deviceId logContent w :
  bucketFiles (disk w) ->
  exists es,
    map message es = nonEmptyLines logContent
    /\ (forall name,
          recordsOf (disk (processLogContentLineByLine tza deviceId logContent w).2)
                    (Incoming, name)
          = recordsOf (disk w) (Incoming, name)
            ++ List.filter
                 (fun e => bool_decide (bucketOf tza (log_timestamp e) = name)) es)
    /\ (forall dir name, dir <> Incoming ->
          disk (processLogContentLineByLine tza deviceId logContent w).2 !! (dir, name)
          = disk w !! (dir, name))
    /\ bucketFiles (disk (processLogContentLineByLine tza deviceId logContent w).2).
Proof.
  intros Hb.
  destruct (processLogContentLineByLine_run tza deviceId logContent w)
    as (w' & Hrun & Hdisk & _).
  rewrite Hrun. cbn [snd]. rewrite Hdisk.
  set (lines := nonEmptyLines logContent).
  set (es := zip_with (entryOf deviceId) lines
               (lineStamps tza (later 1 (clock w)) ∅ lines)).
  destruct (written_records (groupEntries tza es []) (disk w)) as (Hb' & Hrec & Hoth).
  { apply groupEntries_names. apply NoDup_nil_2. }
  { exact Hb. }
  exists es. split; [apply zip_entries_messages, lineStamps_length|].
  split; [|split; [exact Hoth|exact Hb']].
  intros name. rewrite Hrec, groupEntries_entriesFor. reflexivity.
Qed.

Lemma bucket_files_grow_witness :
  exists es,
    map message es = nonEmptyLines twoLines
    /\ (forall name,
          recordsOf (disk (processLogContentLineByLine utc (js "unit-a") twoLines
                             sampleWorld).2) (Incoming, name)
          = recordsOf (disk sampleWorld) (Incoming, name)
            ++ List.filter
                 (fun e => bool_decide (bucketOf utc (log_timestamp e) = name)) es)
    /\ (forall dir name, dir <> Incoming ->
          disk (processLogContentLineByLine utc (js "unit-a") twoLines
                  sampleWorld).2 !! (dir, name)
          = disk sampleWorld !! (dir, name))
    /\ bucketFiles (disk (processLogContentLineByLine utc (js "unit-a") twoLines
                            sampleWorld).2).
Proof.
  apply (bucket_files_grow_in_input_order utc (js "unit-a") twoLines sampleWorld).
  intros name data H. discriminate.
Defined.

(** X13.  Within one call made in one calendar year, lines that share a
    second are given timestamps that increase strictly, as text, in the order
    of the lines in the input, however many they are: sorting the records by
    [log_timestamp] keeps the lines of a second in their order. *)
Theorem same_second_lines_sort_in_input_order tza deviceId logContent k y w :
  let lines := nonEmptyLines logContent in
  (forall n, getFullYear tza (clock w n) = y) ->
  lineKeys tza (later 1 (clock w)) lines = replicate (length lines) (Some k) ->
  (forall line f, line ∈ lines -> logFields line = Some f ->
     0 <= YearFromTime (eventTime y f)
     /\ YearFromTime (eventTime y f + Z.of_nat (length lines)) <= 9999) ->
  exists stamps,
    disk (processLogContentLineByLine tza deviceId logContent w).2
    = written (groupEntries tza (zip_with (entryOf deviceId) lines stamps) [])
              (disk w)
    /\ length stamps = length lines
    /\ forall i j si sj,
         (i < j)%nat -> stamps !! i = Some si -> stamps !! j = Some sj ->
         ltb si sj = true.
Proof.
  intros lines Hyear Hkeys Hrange.
  destruct (processLogContentLineByLine_run tza deviceId logContent w)
    as (w' & Hrun & Hdisk & _).
  fold lines in Hrun, Hdisk.
  exists (lineStamps tza (later 1 (clock w)) ∅ lines).
  split; [rewrite Hrun; exact Hdisk|]. split; [apply lineStamps_length|].
  assert (Hst : forall i s, lineStamps tza (later 1 (clock w)) ∅ lines !! i = Some s ->
            exists f line, line ∈ lines /\ logFields line = Some f
              /\ k = secondKeyOf (toISOString (eventTime y f))
              /\ s = toISOString (eventTime y f + Z.of_nat i)
              /\ (i < length lines)%nat).
  { intros i s Hs.
    assert (Hi : (i < length lines)%nat).
    { apply lookup_lt_Some in Hs. rewrite lineStamps_length in Hs. exact Hs. }
    destruct (lookup_lt_is_Some_2 lines i Hi) as [line Hline].
    pose proof (lineStamps_lookup tza lines (later 1 (clock w)) ∅ i line Hline) as H.
    destruct (logFields line) as [f|] eqn:Ef.
    - destruct H as (m & k' & Hk' & Hkey & Hstamp).
      rewrite Hkeys in Hkey. apply lookup_replicate in Hkey as [Hkey _].
      injection Hkey as <-.
      assert (Hy' : forall n, getFullYear tza (later 1 (clock w) n) = y)
        by (intros n; apply Hyear).
      rewrite Hy' in Hk', Hstamp.
      rewrite Hkeys, seenBefore_replicate, lookup_empty in Hstamp by lia.
      cbn [default from_option id] in Hstamp. rewrite Z.add_0_l, Hs in Hstamp.
      injection Hstamp as ->.
      exists f, line. split; [eapply list_elem_of_lookup_2; exact Hline|].
      auto.
    - destruct H as (Hkey & _). rewrite Hkeys in Hkey.
      apply lookup_replicate in Hkey as [Hkey _]. discriminate. }
  intros i j si sj Hij Hi Hj.
  destruct (Hst i si Hi) as (fi & li & Hli & Hfi & Hki & -> & Hil).
  destruct (Hst j sj Hj) as (fj & lj & Hlj & Hfj & Hkj & -> & Hjl).
  destruct (Hrange li fi Hli Hfi) as [Hi0 Hi1].
  destruct (Hrange lj fj Hlj Hfj) as [Hj0 Hj1].
  assert (Hin : forall f n, 0 <= YearFromTime (eventTime y f) ->
            YearFromTime (eventTime y f + Z.of_nat (length lines)) <= 9999 ->
            (n <= length lines)%nat ->
            0 <= YearFromTime (eventTime y f + Z.of_nat n) <= 9999).
  { intros f n H0 H1 Hn.
    pose proof (YearFromTime_mono (eventTime y f) (eventTime y f + Z.of_nat n)
                  ltac:(lia)).
    pose proof (YearFromTime_mono (eventTime y f + Z.of_nat n)
                  (eventTime y f + Z.of_nat (length lines)) ltac:(lia)).
    lia. }
  assert (He : eventTime y fi = eventTime y fj).
  { apply secondKeyOf_inj.
    - pose proof (Hin fi 0%nat Hi0 Hi1 ltac:(lia)) as H. rewrite Z.add_0_r in H. exact H.
    - pose proof (Hin fj 0%nat Hj0 Hj1 ltac:(lia)) as H. rewrite Z.add_0_r in H. exact H.
    - apply eventTime_whole_seconds.
    - apply eventTime_whole_seconds.
    - congruence. }
  rewrite He. apply toISOString_lt.
  - apply Hin; [assumption|assumption|lia].
  - apply Hin; [assumption|assumption|lia].
  - lia.
Qed.

Lemma same_second_lines_sort_witness :
  exists stamps,
    disk (processLogContentLineByLine utc (js "unit-a") twoLines sampleWorld).2
    = written (groupEntries utc (zip_with (entryOf (js "unit-a"))
                                   (nonEmptyLines twoLines) stamps) [])
              (disk sampleWorld)
    /\ length stamps = length (nonEmptyLines twoLines)
    /\ forall i j si sj,
         (i < j)%nat -> stamps !! i = Some si -> stamps !! j = Some sj ->
         ltb si sj = true.
Proof.
  apply (same_second_lines_sort_in_input_order utc (js "unit-a") twoLines
           (js "2025-09-04T05:53:01Z") 2025 sampleWorld).
  - intros n. vm_compute. reflexivity.
  - vm_compute. reflexivity.
  - intros line f Hl Hf.
    assert (Hc : line = bootLine \/ line = readyLine).
    { change (nonEmptyLines twoLines) with [bootLine; readyLine] in Hl.
      apply elem_of_cons in Hl as [->|Hl]; [left; reflexivity|].
      apply list_elem_of_singleton in Hl. right. exact Hl. }
    destruct Hc as [-> | ->]; vm_compute in Hf; injection Hf as <-;
      vm_compute; split; discriminate.
Defined.

(** X14.  [cleanOldCounters] drops the counter of a second exactly when that
    second lies before the second of the time one hour before the clock
    reading; the other counters stay as they are. *)
Theorem counters_are_dropped_by_age b w :
  0 <= YearFromTime b <= 9999 ->
  0 <= YearFromTime (clock w 0%nat - 60 * 60 * 1000) <= 9999 ->
  exists w',
    cleanOldCounters w = (Return tt, w')
    /\ disk w' = disk w
    /\ timestampCounters w' !! formatTimestampKey b
       = if b / 1000 <? (clock w 0%nat - 60 * 60 * 1000) / 1000 then None
         else timestampCounters w !! formatTimestampKey b.
Proof.
  intros Hb Hc. unfold cleanOldCounters. rewrite bind_run, now_run.
  unfold modify. eexists. split; [reflexivity|]. split; [reflexivity|].
  cbn [timestampCounters setTimestampCounters tick setClock].
  pose proof (formatTimestampKey_order b (clock w 0%nat - 60 * 60 * 1000) Hb Hc)
    as Hord.
  destruct (Z.ltb_spec (b / 1000) ((clock w 0%nat - 60 * 60 * 1000) / 1000))
    as [Hlt|Hge].
  - apply map_lookup_filter_None. right. intros x _. cbn [fst].
    apply Hord in Hlt. rewrite Hlt. discriminate.
  - assert (Hf : ltb (formatTimestampKey b)
                   (formatTimestampKey (clock w 0%nat - 60 * 60 * 1000)) = false).
    { destruct (ltb _ _); [|reflexivity]. pose proof (proj1 Hord eq_refl). lia. }
    destruct (timestampCounters w !! formatTimestampKey b) as [x|] eqn:E.
    + apply map_lookup_filter_Some. split; [exact E|exact Hf].
    + apply map_lookup_filter_None. left. exact E.
Qed.

Lemma counters_are_dropped_witness :
  exists w',
    cleanOldCounters sampleWorld = (Return tt, w')
    /\ disk w' = disk sampleWorld
    /\ timestampCounters w' !! formatTimestampKey 1756990381000
       = if 1756990381000 / 1000 <? (clock sampleWorld 0%nat - 60 * 60 * 1000) / 1000
         then None
         else timestampCounters sampleWorld !! formatTimestampKey 1756990381000.
Proof.
  apply (counters_are_dropped_by_age 1756990381000 sampleWorld);
    vm_compute; split; discriminate.
Defined.

(** X15 is [ingestion_rate_right_after_a_request] above; here at two
    requests made at one reading of the clock. *)
Lemma ingestion_rate_witness :
  (getIngestionRate (trackEach 2 sampleWorld).2).1
  = Return (ingestionRateAt (map (clock sampleWorld) (seq 0 2)) (clock sampleWorld 1%nat)).
Proof.
  apply (ingestion_rate_right_after_a_request 1 sampleWorld).
  - reflexivity.
  - intros i j _. apply Z.le_refl.
Defined.

(** X16.  A request whose [Authorization] header is not the configured key is
    answered 401 by both upload routes and changes nothing: no file is
    written and the request is not counted. The configured key is never
    empty: without [API_KEY] it is the built-in default. *)
Theorem unauthenticated_upload_changes_nothing tza dateParse API_KEY req w :
  authorization req <> Some (apiKey API_KEY) ->
  apiKey API_KEY <> []
  /\ (exists m,
        postUploadLogs tza API_KEY req w
        = (Return {| statusCode := 401; payload := ErrorPayload m |}, w))
  /\ (exists m,
        postUploadLogMessage tza dateParse API_KEY req w
        = (Return {| statusCode := 401; payload := ErrorPayload m |}, w)).
Proof.
  intros Hk. split.
  - unfold apiKey. destruct API_KEY as [[|c s]|]; discriminate.
  - unfold postUploadLogs, postUploadLogMessage, authenticateApiKey.
    destruct (authorization req) as [[|c s]|]; try (split; eexists; reflexivity).
    rewrite !decide_False by congruence.
    split; eexists; reflexivity.
Qed.

Lemma unauthenticated_upload_witness :
  apiKey None <> []
  /\ (exists m,
        postUploadLogs utc None
          {| authorization := None; param_device_id := js "unit-a";
             file := None; body := TextBody twoLines |} sampleWorld
        = (Return {| statusCode := 401; payload := ErrorPayload m |}, sampleWorld))
  /\ (exists m,
        postUploadLogMessage utc sampleDateParse None
          {| authorization := None; param_device_id := js "unit-a";
             file := None; body := TextBody twoLines |} sampleWorld
        = (Return {| statusCode := 401; payload := ErrorPayload m |}, sampleWorld)).
Proof.
  apply (unauthenticated_upload_changes_nothing utc sampleDateParse None
           {| authorization := None; param_device_id := js "unit-a";
              file := None; body := TextBody twoLines |} sampleWorld).
  discriminate.
Defined.

(** X17.  An authorised upload with a device id and content that is not blank
    (the attached file if there is one, else the text body) is answered 202
    after every non-empty line of the content, at least one, has been
    processed. *)
Theorem accepted_upload_processes_every_line tza API_KEY req content w :
  authorization req = Some (apiKey API_KEY) ->
  param_device_id req <> [] ->
  file req = Some content \/ (file req = None /\ body req = TextBody content) ->
  trim content <> [] ->
  exists r w',
    processLogContentLineByLine tza (param_device_id req) content w = (Return r, w')
    /\ postUploadLogs tza API_KEY req w
       = (Return {| statusCode := 202; payload := AcceptedPayload |}, w')
    /\ result_success r = true
    /\ linesProcessed r = Z.of_nat (length (nonEmptyLines content))
    /\ 1 <= linesProcessed r.
Proof.
  intros Hauth Hdev Hcontent Htrim.
  destruct (processLogContentLineByLine_returns tza (param_device_id req) content w
              (trim_lines content Htrim)) as (r & w' & Hrun & Hs & Hl).
  exists r, w'. split; [exact Hrun|].
  assert (Hne : content <> []) by (intros ->; apply Htrim; reflexivity).
  split; [|split; [exact Hs|split; [exact Hl|]]].
  - unfold postUploadLogs, authenticateApiKey. rewrite Hauth.
    assert (Hk : apiKey API_KEY <> []).
    { unfold apiKey. destruct API_KEY as [[|c s]|]; discriminate. }
    destruct (apiKey API_KEY) as [|c s] eqn:Ek; [congruence|].
    rewrite decide_True by reflexivity.
    unfold uploadLogs, tryCatch. cbv zeta.
    rewrite decide_False by exact Hdev.
    assert (Hsel : match file req with
                   | Some content => Some content
                   | None => match body req with
                             | TextBody (c :: s) => Some (c :: s)
                             | _ => None
                             end
                   end = Some content).
    { destruct Hcontent as [->|[-> ->]]; [reflexivity|].
      destruct content; [congruence|reflexivity]. }
    rewrite Hsel.
    rewrite (bool_decide_eq_false_2 _ Hne), (bool_decide_eq_false_2 _ Htrim).
    cbn [orb]. rewrite bind_run, Hrun. reflexivity.
  - rewrite Hl. pose proof (trim_lines content Htrim).
    destruct (nonEmptyLines content); [congruence|]. cbn [length]. lia.
Qed.

Lemma accepted_upload_witness :
  exists r w',
    processLogContentLineByLine utc (param_device_id sampleUpload) twoLines
      sampleWorld = (Return r, w')
    /\ postUploadLogs utc None sampleUpload sampleWorld
       = (Return {| statusCode := 202; payload := AcceptedPayload |}, w')
    /\ result_success r = true
    /\ linesProcessed r = Z.of_nat (length (nonEmptyLines twoLines))
    /\ 1 <= linesProcessed r.
Proof.
  apply (accepted_upload_processes_every_line utc None sampleUpload twoLines
           sampleWorld).
  - reflexivity.
  - discriminate.
  - right. split; reflexivity.
  - vm_compute. discriminate.
Defined.

(** X18.  On a request that [multer] has parsed, the key check and the
    handler of the line-by-line upload route never throw and never answer
    500 (appending to a bucket file does not fail on the modelled disk): the
    request is either accepted with 202, or refused with 400 or 401, and a
    refused request leaves everything as it was. *)
Theorem refused_upload_changes_nothing tza API_KEY req w :
  exists resp w',
    postUploadLogs tza API_KEY req w = (Return resp, w')
    /\ ((statusCode resp = 202 /\ payload resp = AcceptedPayload)
        \/ ((statusCode resp = 400 \/ statusCode resp = 401) /\ w' = w)).
Proof.
  unfold postUploadLogs, authenticateApiKey.
  destruct (authorization req) as [[|c s]|];
    try (eexists _, w; split; [reflexivity|right; split; [right|]; reflexivity]).
  case_decide;
    [|eexists _, w; split; [reflexivity|right; split; [right|]; reflexivity]].
  unfold uploadLogs, tryCatch. cbv zeta.
  case_decide;
    [eexists _, w; split; [reflexivity|right; split; [left|]; reflexivity]|].
  destruct (match file req with Some _ => _ | None => _ end) as [logMessage|];
    [|eexists _, w; split; [reflexivity|right; split; [left|]; reflexivity]].
  destruct (bool_decide (logMessage = [])) eqn:E1;
    [eexists _, w; split; [reflexivity|right; split; [left|]; reflexivity]|].
  destruct (bool_decide (trim logMessage = [])) eqn:E2;
    [eexists _, w; split; [reflexivity|right; split; [left|]; reflexivity]|].
  cbn [orb]. apply bool_decide_eq_false in E2.
  destruct (processLogContentLineByLine_returns tza (param_device_id req)
              logMessage w (trim_lines logMessage E2)) as (r & w' & Hrun & _).
  rewrite bind_run, Hrun. eexists _, w'. split; [reflexivity|].
  left. split; reflexivity.
Qed.

(** X19.  The single-line route answers 400 with the parser's message to a
    message it cannot read a timestamp from, and writes nothing; but the
    request has already been counted for the ingestion rate. *)
Theorem rejected_message_is_still_counted tza dateParse API_KEY req msg w :
  authorization req = Some (apiKey API_KEY) ->
  param_device_id req <> [] ->
  body req = TextBody msg ->
  msg <> [] ->
  (matchLegacyPrefix msg = None ->
   postUploadLogMessage tza dateParse API_KEY req w
   = (Return {| statusCode := 400;
                payload := ErrorPayload
                             (js "Invalid log format: timestamp not found") |},
      tracked w))
  /\ (forall s,
        matchLegacyPrefix msg = Some s ->
        dateParse (s ++ js " " ++ ofInteger (getFullYear tza (clock w 1%nat))) = None ->
        postUploadLogMessage tza dateParse API_KEY req w
        = (Return {| statusCode := 400;
                     payload := ErrorPayload (js "Invalid timestamp format") |},
           tick (tracked w))).
Proof.
  intros Hauth Hdev Hbody Hmsg.
  assert (Hk : apiKey API_KEY <> []).
  { unfold apiKey. destruct API_KEY as [[|c s]|]; discriminate. }
  assert (Hroute : postUploadLogMessage tza dateParse API_KEY req w
                   = tryCatch
                       (processLogRequest tza dateParse (param_device_id req) msg ;;
                        respond 202 AcceptedPayload) (uploadError) w).
  { unfold postUploadLogMessage, authenticateApiKey. rewrite Hauth.
    destruct (apiKey API_KEY) as [|c s]; [congruence|].
    rewrite decide_True by reflexivity.
    unfold uploadLogMessage. cbv zeta. rewrite decide_False by exact Hdev.
    rewrite Hbody. destruct msg; [congruence|reflexivity]. }
  rewrite Hroute. unfold tryCatch, processLogRequest.
  rewrite !bind_run, trackRequest_run. fold (tracked w).
  unfold createLogEntry. rewrite bind_run.
  unfold parseAndEnhanceTimestamp. split.
  - intros ->. reflexivity.
  - intros s -> Hp. cbv iota. rewrite !bind_run, now_run. cbv zeta.
    change (clock (tracked w) 0%nat) with (clock w 1%nat). rewrite Hp.
    reflexivity.
Qed.

Lemma rejected_message_witness :
  postUploadLogMessage utc sampleDateParse None (sampleMessage (js "link is up"))
    sampleWorld
  = (Return {| statusCode := 400;
               payload := ErrorPayload
                            (js "Invalid log format: timestamp not found") |},
     tracked sampleWorld).
Proof.
  refine (proj1 (rejected_message_is_still_counted utc sampleDateParse None
                   (sampleMessage (js "link is up")) (js "link is up") sampleWorld
                   _ _ _ _) _);
    [reflexivity|discriminate|reflexivity|discriminate|reflexivity].
Defined.

(** X20.  A message the parser reads is answered 202 after exactly one record
    has been appended to the bucket file of the hour of its base time: the
    record carries the device id, the message, and the base time plus the
    counter of its second, which is one more than the counter held. *)
Theorem accepted_message_appends_one_record tza dateParse API_KEY req msg s b w :
  authorization req = Some (apiKey API_KEY) ->
  param_device_id req <> [] ->
  body req = TextBody msg ->
  matchLegacyPrefix msg = Some s ->
  dateParse (s ++ js " " ++ ofInteger (getFullYear tza (clock w 1%nat))) = Some b ->
  let counter := default 0 (timestampCounters w !! formatTimestampKey b) + 1 in
  let p : Path := (Incoming, getHourKey tza b ++ js ".log") in
  let record := Lines [ {| device_id := param_device_id req;
                           log_timestamp := toISOString (b + counter);
                           message := msg |} ] in
  exists w',
    postUploadLogMessage tza dateParse API_KEY req w
    = (Return {| statusCode := 202; payload := AcceptedPayload |}, w')
    /\ disk w' = <[p := match disk w !! p with
                        | Some old => appendData old record
                        | None => record
                        end]> (disk w)
    /\ recentRequests w' = recentRequests (tracked w).
Proof.
  intros Hauth Hdev Hbody Hm Hp counter p record.
  assert (Hk : apiKey API_KEY <> []).
  { unfold apiKey. destruct API_KEY as [[|c r]|]; discriminate. }
  assert (Hmsg : msg <> []) by (intros ->; discriminate).
  assert (Hroute : postUploadLogMessage tza dateParse API_KEY req w
                   = tryCatch
                       (processLogRequest tza dateParse (param_device_id req) msg ;;
                        respond 202 AcceptedPayload) (uploadError) w).
  { unfold postUploadLogMessage, authenticateApiKey. rewrite Hauth.
    destruct (apiKey API_KEY) as [|c r]; [congruence|].
    rewrite decide_True by reflexivity.
    unfold uploadLogMessage. cbv zeta. rewrite decide_False by exact Hdev.
    rewrite Hbody. destruct msg; [congruence|reflexivity]. }
  rewrite Hroute. unfold tryCatch, processLogRequest.
  rewrite !bind_run, trackRequest_run. fold (tracked w).
  unfold createLogEntry. rewrite bind_run.
  unfold parseAndEnhanceTimestamp. rewrite Hm. cbv iota.
  rewrite !bind_run, now_run. cbv zeta.
  change (clock (tracked w) 0%nat) with (clock w 1%nat). rewrite Hp.
  rewrite bind_run. unfold gets at 1.
  rewrite bind_run. unfold modify at 1.
  rewrite bind_run. unfold cleanOldCounters.
  rewrite bind_run, now_run. unfold modify at 1.
  unfold mret, IO_ret, ret. cbv beta iota. cbn [fst snd hourKey enhancedTimestamp].
  unfold writeLogEntry, appendFile, modify, respond, mret, IO_ret, ret.
  eexists. split; [reflexivity|]. split; reflexivity.
Qed.

Lemma accepted_message_witness :
  exists w',
    postUploadLogMessage utc sampleDateParse None (sampleMessage bootLine) sampleWorld
    = (Return {| statusCode := 202; payload := AcceptedPayload |}, w')
    /\ disk w'
       = <[((Incoming, getHourKey utc 1756990381000 ++ js ".log") : Path)
           := match disk sampleWorld
                    !! ((Incoming, getHourKey utc 1756990381000 ++ js ".log") : Path)
              with
              | Some old =>
                  appendData old
                    (Lines [ {| device_id := js "unit-a";
                                log_timestamp := toISOString (1756990381000 + (0 + 1));
                                message := bootLine |} ])
              | None =>
                  Lines [ {| device_id := js "unit-a";
                             log_timestamp := toISOString (1756990381000 + (0 + 1));
                             message := bootLine |} ]
              end]> (disk sampleWorld)
    /\ recentRequests w' = recentRequests (tracked sampleWorld).
Proof.
  apply (accepted_message_appends_one_record utc sampleDateParse None
           (sampleMessage bootLine) bootLine (js "Sep 04 12:53:01") 1756990381000
           sampleWorld).
  - reflexivity.
  - discriminate.
  - reflexivity.
  - vm_compute. reflexivity.
  - vm_compute. reflexivity.
Defined.

(** X21.  [readJsonFile] reads back what [writeJsonFile] wrote, whatever the
    file held before, and no temporary file is left; a missing file reads as
    [null]. *)
Theorem json_file_reads_back filePath data j w :
  parseJson data = Some j ->
  (exists w',
     (writeJsonFile filePath data ;; readJsonFile filePath) w = (Return (Some j), w')
     /\ disk w' !! filePath = Some data
     /\ disk w' !! ((filePath.1, filePath.2 ++ js ".tmp") : Path) = None
     /\ forall p : Path, p <> filePath -> p <> (filePath.1, filePath.2 ++ js ".tmp") ->
          disk w' !! p = disk w !! p)
  /\ (disk w !! filePath = None -> readJsonFile filePath w = (Return None, w)).
Proof.
  intros Hj. split.
  - rewrite bind_run, writeJsonFile_run.
    set (w' := setDisk _ w).
    assert (Hne : filePath <> (filePath.1, filePath.2 ++ js ".tmp")).
    { destruct filePath as [dir name]. cbn. intros [= H]. symmetry in H.
      revert H. apply app_ne_self. discriminate. }
    assert (Hd : disk w' !! filePath = Some data) by apply lookup_insert_eq.
    exists w'. split; [apply (readJsonFile_present _ data j w' Hd Hj)|].
    split; [exact Hd|]. split.
    + subst w'. cbn [disk setDisk]. rewrite lookup_insert_ne by exact Hne.
      apply lookup_delete_eq.
    + intros p H1 H2. subst w'. cbn [disk setDisk].
      rewrite lookup_insert_ne by congruence.
      rewrite lookup_delete_ne by congruence.
      apply lookup_insert_ne. congruence.
  - apply readJsonFile_absent.
Qed.

Lemma json_file_reads_back_witness :
  (exists w',
     (writeJsonFile (Failed, sampleBucket ++ js ".meta") (MetaJson sampleMeta) ;;
      readJsonFile (Failed, sampleBucket ++ js ".meta")) sampleWorld
     = (Return (Some (JsonMeta sampleMeta)), w')
     /\ disk w' !! ((Failed, sampleBucket ++ js ".meta") : Path)
        = Some (MetaJson sampleMeta)
     /\ disk w' !! ((Failed, (sampleBucket ++ js ".meta") ++ js ".tmp") : Path) = None
     /\ forall p : Path,
          p <> (Failed, sampleBucket ++ js ".meta") ->
          p <> (Failed, (sampleBucket ++ js ".meta") ++ js ".tmp") ->
          disk w' !! p = disk sampleWorld !! p)
  /\ (disk sampleWorld !! ((Failed, sampleBucket ++ js ".meta") : Path) = None ->
      readJsonFile (Failed, sampleBucket ++ js ".meta") sampleWorld
      = (Return None, sampleWorld)).
Proof.
  apply (json_file_reads_back (Failed, sampleBucket ++ js ".meta")
           (MetaJson sampleMeta) (JsonMeta sampleMeta) sampleWorld).
  reflexivity.
Defined.

(** X22.  With sidecars that parse, [GET /api/failures] lists exactly the
    [.log] files of the failed directory, each once, and changes nothing: a
    file with a sidecar is reported with the sidecar's time, error message
    and retry count, a file without one with [null], "No metadata available"
    and 0. *)
Theorem failures_lists_the_quarantined_files w :
  (forall f d, disk w !! ((Failed, f ++ js ".meta") : Path) = Some d ->
               parseJson d <> None) ->
  exists failures,
    getFailures w = (Return (FailuresOk failures), w)
    /\ NoDup (map Failure.file_name failures)
    /\ (forall f, f ∈ map Failure.file_name failures <->
          is_Some (disk w !! ((Failed, f) : Path)) /\ endsWith f (js ".log") = true)
    /\ (forall e, e ∈ failures ->
          match disk w !! ((Failed, Failure.file_name e ++ js ".meta") : Path) with
          | Some (MetaJson m) =>
              e = {| Failure.file_name := Failure.file_name e;
                     Failure.failed_at := Text (Meta.failed_at m);
                     Failure.error_message := Text (Meta.error_message m);
                     Failure.retry_attempts := Meta.retry_attempts m |}
          | Some _ => Failure.failed_at e = Undefined /\ Failure.retry_attempts e = 0
          | None =>
              e = {| Failure.file_name := Failure.file_name e; Failure.failed_at := Null;
                     Failure.error_message := Text (js "No metadata available");
                     Failure.retry_attempts := 0 |}
          end).
Proof.
  intros Hok. unfold getFailures, tryCatch. rewrite bind_run.
  destruct (listFiles_spec Failed (fun filename => endsWith filename (js ".log")) w)
    as (l & -> & Hnd & Hl).
  rewrite bind_run, failuresLoop_run by (intros f d _; apply Hok).
  cbn [app]. eexists. split; [reflexivity|].
  assert (Hnames : forall (g : jsstring -> option Json) l,
            map Failure.file_name (map (fun f => failureOf f (g f)) l) = l).
  { intros g l'. induction l' as [|f l' IH]; [reflexivity|].
    cbn [map]. rewrite IH. f_equal.
    destruct (g f) as [[| |]|]; reflexivity. }
  rewrite Hnames. split; [exact Hnd|]. split; [exact Hl|].
  intros e He. apply list_elem_of_In, in_map_iff in He as (f & <- & _).
  assert (Hf : forall o, Failure.file_name (failureOf f o) = f)
    by (intros [[| |]|]; reflexivity).
  rewrite Hf.
  destruct (disk w !! ((Failed, f ++ js ".meta") : Path)) as [d|] eqn:E;
    [|reflexivity].
  pose proof (Hok f d E) as Hd.
  cbn [mbind option_bind]. destruct d as [es| | | |]; cbn [parseJson failureOf].
  - destruct es as [|e [|]]; try (exfalso; apply Hd; reflexivity). cbn. auto.
  - exfalso. apply Hd. reflexivity.
  - destruct (error_message s); auto.
  - unfold orZero. destruct (Z.eqb_spec (Meta.retry_attempts m) 0) as [->|];
      reflexivity.
  - exfalso. apply Hd. reflexivity.
Qed.

Lemma failures_witness :
  exists failures,
    getFailures worldWithQuarantine = (Return (FailuresOk failures), worldWithQuarantine)
    /\ NoDup (map Failure.file_name failures)
    /\ (forall f, f ∈ map Failure.file_name failures <->
          is_Some (disk worldWithQuarantine !! ((Failed, f) : Path))
          /\ endsWith f (js ".log") = true)
    /\ (forall e, e ∈ failures ->
          match disk worldWithQuarantine
                  !! ((Failed, Failure.file_name e ++ js ".meta") : Path) with
          | Some (MetaJson m) =>
              e = {| Failure.file_name := Failure.file_name e;
                     Failure.failed_at := Text (Meta.failed_at m);
                     Failure.error_message := Text (Meta.error_message m);
                     Failure.retry_attempts := Meta.retry_attempts m |}
          | Some _ => Failure.failed_at e = Undefined /\ Failure.retry_attempts e = 0
          | None =>
              e = {| Failure.file_name := Failure.file_name e; Failure.failed_at := Null;
                     Failure.error_message := Text (js "No metadata available");
                     Failure.retry_attempts := 0 |}
          end).
Proof.
  apply (failures_lists_the_quarantined_files worldWithQuarantine).
  intros f d H. unfold worldWithQuarantine in H. cbn [disk setDisk] in H.
  apply lookup_insert_Some in H as [[_ <-]|[_ H]]; [discriminate|].
  apply lookup_singleton_Some in H as [_ <-]. discriminate.
Defined.

(** X23.  The sweep takes the bucket of every hour but the current one: for
    times of four-digit years, the file of the hour of [t] passes the filter
    exactly when its hour key differs from the key of the clock reading,
    whether the hour of [t] is earlier or later. *)
Theorem bucket_of_another_hour_is_swept tza t reading :
  1000 <= getFullYear tza t <= 9999 ->
  1000 <= getFullYear tza reading <= 9999 ->
  completed (currentHourKey tza reading reading) (getHourKey tza t ++ js ".log")
  = negb (bool_decide (getHourKey tza t = getHourKey tza reading)).
Proof.
  intros Ht Hr. unfold completed.
  rewrite endsWith_app. cbn [andb]. f_equal.
  rewrite (currentHourKey_getHourKey tza reading reading eq_refl).
  apply startsWith_same_length.
  rewrite (getHourKey_fields tza t Ht), (getHourKey_fields tza reading Hr).
  rewrite !bucketStem_length by apply fixedDigits_length. reflexivity.
Qed.

Lemma bucket_of_another_hour_witness :
  completed (currentHourKey utc sampleTime sampleTime)
            (getHourKey utc (sampleTime + 2 * msPerHour) ++ js ".log")
  = negb (bool_decide (getHourKey utc (sampleTime + 2 * msPerHour)
                       = getHourKey utc sampleTime)).
Proof.
  apply (bucket_of_another_hour_is_swept utc (sampleTime + 2 * msPerHour) sampleTime);
    vm_compute; split; discriminate.
Defined.

(** X24.  The pattern of the single-line parser accepts every line with a
    well-formed [MMM DD HH:MM:SS] prefix, whatever its three letters, and
    captures the prefix up to the seconds, white space as written. *)
Theorem legacy_pattern_captures_the_prefix p :
  wellFormed p = true ->
  matchLegacyPrefix (lineOf p)
  = Some (monthStr p ++ gap1 p ++ dayStr p ++ gap2 p
          ++ hh p ++ js ":" ++ mm p ++ js ":" ++ ss p).
Proof.
  intros H. apply wellFormed_parts in H
    as ((Lm & Am) & (L1 & S1) & (Ld & Dd) & (L2 & S2) & (Lh & Dh) & (Lmi & Dmi) & (Ls & Ds)).
  unfold lineOf. destruct p as [mo g1 d g2 h m s r].
  cbn [monthStr gap1 dayStr gap2 hh mm ss tail] in *.
  destruct mo as [|a [|b [|c [|? ?]]]]; try discriminate.
  cbn [forallb] in Am.
  apply andb_true_iff in Am as [Ha Am]. apply andb_true_iff in Am as [Hb Am].
  apply andb_true_iff in Am as [Hc _].
  cbn [app matchLegacyPrefix].
  rewrite (isLetter_isWordChar a Ha), (isLetter_isWordChar b Hb),
    (isLetter_isWordChar c Hc).
  cbn [andb]. rewrite dayAndTime_app by assumption.
  reflexivity.
Qed.

Lemma legacy_pattern_witness :
  matchLegacyPrefix (lineOf bootPrefix)
  = Some (monthStr bootPrefix ++ gap1 bootPrefix ++ dayStr bootPrefix
          ++ gap2 bootPrefix ++ hh bootPrefix ++ js ":" ++ mm bootPrefix
          ++ js ":" ++ ss bootPrefix).
Proof.
  apply (legacy_pattern_captures_the_prefix bootPrefix). reflexivity.
Defined.

(** X25.  The file-only upload route answers an authorised request without
    an attached file with 500, "Internal server error": the handler fails on
    [req.file.buffer] before anything is validated. Nothing is written and
    the request is not counted. *)
Theorem upload_without_file_is_answered_500 tza API_KEY req w :
  authorization req = Some (apiKey API_KEY) ->
  file req = None ->
  exists w',
    postUploadLogFile tza API_KEY req w
    = (Return {| statusCode := 500;
                 payload := ErrorPayload (js "Internal server error") |}, w')
    /\ disk w' = disk w
    /\ recentRequests w' = recentRequests w
    /\ timestampCounters w' = timestampCounters w.
Proof.
  intros Hauth Hfile. unfold postUploadLogFile.
  rewrite (authenticateApiKey_pass API_KEY req _ Hauth).
  unfold uploadLogFile. rewrite bind_run, now_run, bind_run, now_run.
  unfold tryCatch. cbv zeta. rewrite Hfile. unfold throw.
  rewrite bind_run, now_run, bind_run, now_run.
  eexists. split; [reflexivity|]. auto.
Qed.

Lemma upload_without_file_witness :
  exists w',
    postUploadLogFile utc None sampleUpload sampleWorld
    = (Return {| statusCode := 500;
                 payload := ErrorPayload (js "Internal server error") |}, w')
    /\ disk w' = disk sampleWorld
    /\ recentRequests w' = recentRequests sampleWorld
    /\ timestampCounters w' = timestampCounters sampleWorld.
Proof.
  apply (upload_without_file_is_answered_500 utc None sampleUpload sampleWorld);
    reflexivity.
Defined.

(** X26.  The file-only upload route does not look at what the file holds:
    an attached file without a non-empty line (empty, or line breaks only)
    is answered 202, "accepted", although no entry is written; the request
    is counted for the ingestion rate. *)
Theorem empty_file_is_accepted_but_writes_nothing tza API_KEY req content w :
  authorization req = Some (apiKey API_KEY) ->
  file req = Some content ->
  Forall (fun c => c = 10%N) content ->
  exists w',
    postUploadLogFile tza API_KEY req w
    = (Return {| statusCode := 202; payload := AcceptedPayload |}, w')
    /\ disk w' = disk w
    /\ recentRequests w'
       = List.filter (fun timestamp => clock w 3%nat - 5 * 60 * 1000 <? timestamp)
                     (recentRequests w ++ [clock w 3%nat]).
Proof.
  intros Hauth Hfile Hblank. unfold postUploadLogFile.
  rewrite (authenticateApiKey_pass API_KEY req _ Hauth).
  unfold uploadLogFile. rewrite bind_run, now_run, bind_run, now_run.
  unfold tryCatch. cbv zeta. rewrite Hfile.
  rewrite bind_run, now_run, bind_run.
  unfold processLogContentLineByLine.
  rewrite bind_run, trackRequest_run, (nonEmptyLines_blank _ Hblank).
  cbn [length Nat.eqb]. unfold mret at 1, IO_ret, ret. cbv beta iota.
  rewrite bind_run, now_run, bind_run, now_run.
  eexists. split; [reflexivity|]. split; reflexivity.
Qed.

Lemma empty_file_witness :
  exists w',
    postUploadLogFile utc None
      {| authorization := Some (js "your-api-key-here");
         param_device_id := js "unit-a"; file := Some [10%N]; body := NoBody |}
      sampleWorld
    = (Return {| statusCode := 202; payload := AcceptedPayload |}, w')
    /\ disk w' = disk sampleWorld
    /\ recentRequests w'
       = List.filter
           (fun timestamp => clock sampleWorld 3%nat - 5 * 60 * 1000 <? timestamp)
           (recentRequests sampleWorld ++ [clock sampleWorld 3%nat]).
Proof.
  apply (empty_file_is_accepted_but_writes_nothing utc None
           {| authorization := Some (js "your-api-key-here");
              param_device_id := js "unit-a"; file := Some [10%N]; body := NoBody |}
           [10%N] sampleWorld).
  - reflexivity.
  - reflexivity.
  - repeat constructor.
Defined.

(** X27.  When the sweep's two readings of the clock agree on the hour, no
    file it relocates has a name that begins with the key of the current
    hour, and every file whose name begins with that key is left as it is,
    in the incoming and in the processing directory. *)
Theorem sweep_never_relocates_current_hour tza w :
  getHours tza (clock w 0%nat) = getHours tza (clock w 1%nat) ->
  let key := getHourKey tza (clock w 1%nat) in
  exists swept w',
    sweepCompletedFiles tza w = (Return swept, w')
    /\ (forall f, f ∈ swept -> ~ key `prefix_of` f)
    /\ (forall f, key `prefix_of` f ->
          disk w' !! (Incoming, f) = disk w !! (Incoming, f)
          /\ disk w' !! (Processing, f) = disk w !! (Processing, f)).
Proof.
  intros Hh key.
  destruct (sweepCompletedFiles_run tza w) as (swept & w' & Hrun & Hin & Hd).
  rewrite (currentHourKey_getHourKey tza _ _ Hh) in Hin, Hd. fold key in Hin, Hd.
  exists swept, w'. split; [exact Hrun|]. split.
  - intros f Hf Hp. specialize (Hin f Hf). unfold completed in Hin.
    apply andb_true_iff in Hin as [_ Hin]. apply negb_true_iff in Hin.
    unfold startsWith in Hin. apply bool_decide_eq_false in Hin. contradiction.
  - intros f Hp.
    assert (Hc : completed key f = false).
    { unfold completed, startsWith. rewrite (bool_decide_eq_true_2 _ Hp).
      apply andb_false_r. }
    split; apply Hd; exact Hc.
Qed.

Lemma sweep_witness :
  exists swept w',
    sweepCompletedFiles utc worldWithBuckets = (Return swept, w')
    /\ (forall f, f ∈ swept ->
          ~ getHourKey utc (clock worldWithBuckets 1%nat) `prefix_of` f)
    /\ (forall f, getHourKey utc (clock worldWithBuckets 1%nat) `prefix_of` f ->
          disk w' !! (Incoming, f) = disk worldWithBuckets !! (Incoming, f)
          /\ disk w' !! (Processing, f) = disk worldWithBuckets !! (Processing, f)).
Proof.
  apply (sweep_never_relocates_current_hour utc worldWithBuckets).
  reflexivity.
Defined.

(** X28.  When the hour changes between the sweep's two readings of the
    clock, in a four-digit year, the bucket of the hour of the second
    reading does not begin with the key the sweep compares with: if it is
    in the incoming directory it is relocated to the processing directory,
    with its content. *)
Theorem hour_change_sweeps_the_new_bucket tza d w :
  1000 <= getFullYear tza (clock w 1%nat) <= 9999 ->
  getHours tza (clock w 0%nat) <> getHours tza (clock w 1%nat) ->
  let name := getHourKey tza (clock w 1%nat) ++ js ".log" in
  disk w !! ((Incoming, name) : Path) = Some d ->
  exists swept w',
    sweepCompletedFiles tza w = (Return swept, w')
    /\ name ∈ swept
    /\ disk w' !! ((Processing, name) : Path) = Some d
    /\ disk w' !! ((Incoming, name) : Path) = None.
Proof.
  intros Hy Hh name Hd. unfold sweepCompletedFiles.
  rewrite bind_run, now_run, bind_run, now_run.
  change (clock (tick w) 0%nat) with (clock w 1%nat). cbv zeta.
  set (key := currentHourKey tza _ _). rewrite bind_run.
  destruct (listFiles_spec Incoming (completed key) (tick (tick w)))
    as (l & -> & Hnd & Hl).
  destruct (sweepLoop_moves l [] (tick (tick w)) Hnd) as (w' & -> & _ & Hm & _).
  { intros f Hf. apply Hl in Hf as [Hf _]. exact Hf. }
  assert (Hin : name ∈ l).
  { apply Hl. cbn [disk tick setClock]. split; [exists d; exact Hd|].
    apply completed_at_hour_change; assumption. }
  exists l, w'. cbn [app]. split; [reflexivity|]. split; [exact Hin|].
  destruct (Hm name Hin) as [H1 H2]. cbn [disk tick setClock] in H1.
  split; [etrans; [exact H1|exact Hd]|exact H2].
Qed.

Lemma hour_change_witness :
  exists swept w',
    sweepCompletedFiles utc worldAtMidnight = (Return swept, w')
    /\ getHourKey utc (clock worldAtMidnight 1%nat) ++ js ".log" ∈ swept
    /\ disk w' !! ((Processing,
                    getHourKey utc (clock worldAtMidnight 1%nat) ++ js ".log") : Path)
       = Some (Lines [sampleEntry])
    /\ disk w' !! ((Incoming,
                    getHourKey utc (clock worldAtMidnight 1%nat) ++ js ".log") : Path)
       = None.
Proof.
  apply (hour_change_sweeps_the_new_bucket utc (Lines [sampleEntry])
           worldAtMidnight).
  - vm_compute. split; discriminate.
  - vm_compute. discriminate.
  - vm_compute. reflexivity.
Defined.
